(** * File organizer: date extraction, collision-safe relocation, undo ledger

    A shallow embedding of the Python package [file_organizer]
    (modules [organizers/photo_organizer.py], [organizers/document_organizer.py],
    [organizers/downloads_organizer.py], [utils/backup.py], [utils/config.py]
    and [file_organizer.py]) together with the properties its specification
    states about it.

    Layout of the development:
    - Python values: exceptions, byte strings, [struct] unpacking, the [str]
      and [pathlib] helpers the package calls;
    - the EXIF date parser of [photo_organizer.py];
    - a filesystem (a finite map from absolute paths to nodes) with the
      [pathlib]/[shutil] primitives the package calls, and a state-and-exception
      monad over it;
    - the backup ledger of [backup.py] and the organizers;
    - the properties. *)

From Stdlib Require Import ZArith Lia List Ascii String.
From Stdlib Require Import Strings.Byte.
From stdpp Require Import gmap strings list fin_maps pretty.

Local Open Scope string_scope.
Local Open Scope list_scope.

(* ===================================================================== *)
(** * Part I. Definitions                                                 *)
(* ===================================================================== *)

(** ** Python exceptions and results *)

(** The exception classes that the modelled code can meet. [shutil.Error],
    [FileNotFoundError], [FileExistsError], [NotADirectoryError] and
    [IsADirectoryError] are all subclasses of [OSError] and are modelled by
    it; [json.JSONDecodeError] is a subclass of [ValueError]. *)
Inductive exn : Type :=
  | OSError
  | StructError
  | ValueError.

Global Instance exn_eq_dec : EqDecision exn.
Proof. solve_decision. Defined.

(** What evaluating a Python expression yields: a value or a raised
    exception. *)
Inductive outcome (A : Type) : Type :=
  | Returns (a : A)
  | Raises (e : exn).
Arguments Returns {A} a.
Arguments Raises {A} e.

Definition obind {A B} (o : outcome A) (k : A -> outcome B) : outcome B :=
  match o with
  | Returns a => k a
  | Raises e => Raises e
  end.

Notation "x <-! c1 ;; c2" := (obind c1 (fun x => c2))
  (at level 100, c1 at next level, right associativity).

(** ** Byte strings and [struct] *)

Definition bytes := list byte.

Global Instance byte_eq_dec : EqDecision byte := Byte.byte_eq_dec.

Definition byte_val (b : byte) : Z := Z.of_N (Byte.to_N b).

Definition py_len {A} (l : list A) : Z := Z.of_nat (length l).

(** [data[lo:hi]] for [0 <= lo]; like Python's slice it is clipped to the
    buffer and never fails. *)
Definition slice (data : bytes) (lo hi : Z) : bytes :=
  take (Z.to_nat (hi - lo)) (drop (Z.to_nat lo) data).

(** The two byte orders of the [struct] format strings [">"] and ["<"]. *)
Inductive endian : Type :=
  | BigEndian
  | LittleEndian.

Definition be_value (bs : bytes) : Z :=
  fold_left (fun acc b => (acc * 256 + byte_val b)%Z) bs 0%Z.

Definition unpack_int (e : endian) (bs : bytes) : Z :=
  match e with
  | BigEndian => be_value bs
  | LittleEndian => be_value (rev bs)
  end.

(** [struct.unpack_from(f"{endian}H" / f"{endian}I", data, offset)[0]] with a
    field of [size] bytes: [struct.error] when the buffer is too short. The
    package only passes non-negative offsets. *)
Definition unpack_from (e : endian) (size : Z) (data : bytes) (offset : Z)
  : outcome Z :=
  if ((0 <=? offset) && (offset + size <=? py_len data))%Z
  then Returns (unpack_int e (slice data offset (offset + size)))
  else Raises StructError.

Definition unpack_from_H e data offset := unpack_from e 2 data offset.
Definition unpack_from_I e data offset := unpack_from e 4 data offset.

(** [data.rstrip(b"\x00")] *)
Fixpoint lstrip_byte (c : byte) (bs : bytes) : bytes :=
  match bs with
  | [] => []
  | b :: bs' => if decide (b = c) then lstrip_byte c bs' else bs
  end.

Definition rstrip_byte (c : byte) (bs : bytes) : bytes :=
  rev (lstrip_byte c (rev bs)).

(** [data.decode("ascii", errors="ignore")]: bytes above 127 are dropped. *)
Definition decode_ascii_ignore (bs : bytes) : string :=
  string_of_list_byte (List.filter (fun b => (byte_val b <? 128)%Z) bs).

(** ** [str] methods *)

(** [s.split(sep)] for a one-character separator. *)
Fixpoint str_split (sep : ascii) (s : string) : list string :=
  match s with
  | EmptyString => [EmptyString]
  | String c s' =>
      if decide (c = sep) then EmptyString :: str_split sep s'
      else match str_split sep s' with
           | h :: t => String c h :: t
           | [] => [String c EmptyString]
           end
  end.

(** [s.rfind(c)], as the index counted from [i] for the head of [s]. *)
Fixpoint str_rfind (c : ascii) (s : string) (i : nat) : option nat :=
  match s with
  | EmptyString => None
  | String a s' =>
      match str_rfind c s' (S i) with
      | Some j => Some j
      | None => if decide (a = c) then Some i else None
      end
  end.

(** [s.lower()] on the ASCII letters. *)
Definition ascii_lower (c : ascii) : ascii :=
  let n := nat_of_ascii c in
  if (65 <=? n)%nat && (n <=? 90)%nat then ascii_of_nat (n + 32) else c.

Fixpoint str_lower (s : string) : string :=
  match s with
  | EmptyString => EmptyString
  | String c s' => String (ascii_lower c) (str_lower s')
  end.

(** [s.lstrip(".")] *)
Fixpoint str_lstrip (c : ascii) (s : string) : string :=
  match s with
  | EmptyString => EmptyString
  | String a s' => if decide (a = c) then str_lstrip c s' else s
  end.

Definition str_startswith (p s : string) : bool := String.prefix p s.

(** ** [photo_organizer.py]: the EXIF date parser *)

(** The value of a date tag: [rstrip], [decode], [split(":")] and the shape
    test of [_search_ifd_for_date]. *)
Definition date_of_value (raw : bytes) : option (string * string) :=
  let date_str := decode_ascii_ignore (rstrip_byte x00 raw) in
  match str_split ":" date_str with
  | year :: month :: _ =>
      if decide (String.length year = 4%nat) then Some (year, month) else None
  | _ => None
  end.

(** [tag in {0x9003, 0x0132}] *)
Definition DateTimeOriginal : Z := 0x9003.
Definition DateTime : Z := 0x0132.
Definition is_target_tag (tag : Z) : bool :=
  ((tag =? DateTimeOriginal) || (tag =? DateTime))%Z.

(** The [for i in range(entry_count)] loop of [_search_ifd_for_date], from
    index [i] with [remaining] iterations to go. *)
Fixpoint search_entries (tiff_data : bytes) (ifd_offset : Z) (e : endian)
    (i : Z) (remaining : nat) : outcome (option (string * string)) :=
  match remaining with
  | O => Returns None
  | S remaining' =>
      let entry_offset := (ifd_offset + 2 + i * 12)%Z in
      if (py_len tiff_data <? entry_offset + 12)%Z then Returns None
      else
        tag <-! unpack_from_H e tiff_data entry_offset ;;
        if is_target_tag tag then
          value_count <-! unpack_from_I e tiff_data (entry_offset + 4) ;;
          value_offset <-! unpack_from_I e tiff_data (entry_offset + 8) ;;
          if (value_offset + value_count <=? py_len tiff_data)%Z then
            match date_of_value
                    (slice tiff_data value_offset (value_offset + value_count))
            with
            | Some ym => Returns (Some ym)
            | None => search_entries tiff_data ifd_offset e (i + 1) remaining'
            end
          else search_entries tiff_data ifd_offset e (i + 1) remaining'
        else search_entries tiff_data ifd_offset e (i + 1) remaining'
  end.

Definition _search_ifd_for_date (tiff_data : bytes) (ifd_offset : Z)
    (e : endian) : outcome (option (string * string)) :=
  if (py_len tiff_data <? ifd_offset + 2)%Z then Returns None
  else
    entry_count <-! unpack_from_H e tiff_data ifd_offset ;;
    search_entries tiff_data ifd_offset e 0 (Z.to_nat entry_count).

Definition _parse_tiff_for_date (tiff_data : bytes)
  : outcome (option (string * string)) :=
  if (py_len tiff_data <? 8)%Z then Returns None
  else
    let byte_order := slice tiff_data 0 2 in
    if decide (byte_order = [x4d; x4d]) then
      ifd_offset <-! unpack_from_I BigEndian tiff_data 4 ;;
      _search_ifd_for_date tiff_data ifd_offset BigEndian
    else if decide (byte_order = [x49; x49]) then
      ifd_offset <-! unpack_from_I LittleEndian tiff_data 4 ;;
      _search_ifd_for_date tiff_data ifd_offset LittleEndian
    else Returns None.

(** A binary file object opened for reading: its bytes and the position.
    [f.read(n)] returns at most [n] bytes; [f.read(-1)] reads to the end and a
    size below [-1] is a [ValueError]. *)
Definition file_read (data : bytes) (pos : nat) (n : Z) : outcome bytes :=
  if (n <? -1)%Z then Raises ValueError
  else if (n =? -1)%Z then Returns (drop pos data)
  else Returns (take (Z.to_nat n) (drop pos data)).

(** [f.seek(offset, 1)]: a negative resulting position is an [OSError]. *)
Definition file_seek_cur (pos : nat) (offset : Z) : outcome nat :=
  let target := (Z.of_nat pos + offset)%Z in
  if (target <? 0)%Z then Raises OSError else Returns (Z.to_nat target).

(** How the [while True] marker scan of [_extract_exif_date] ends. *)
Inductive scan_result : Type :=
  | FoundApp1 (pos : nat)      (* [break]: the position after the marker *)
  | NoApp1                     (* [return None] *)
  | ScanRaises (e : exn).

(** The marker scan, one loop iteration per unit of [fuel]; [None] when the
    fuel runs out. *)
Fixpoint scan_markers (fuel : nat) (data : bytes) (pos : nat)
  : option scan_result :=
  match fuel with
  | O => None
  | S fuel' =>
      let marker := take 2 (drop pos data) in
      let pos1 := (pos + length marker)%nat in
      if (length marker <? 2)%nat then Some NoApp1
      else if decide (marker = [xff; xe1]) then Some (FoundApp1 pos1)
      else if decide (take 1 marker = [xff]) then
        let seg_len_data := take 2 (drop pos1 data) in
        let pos2 := (pos1 + length seg_len_data)%nat in
        if (length seg_len_data <? 2)%nat then Some NoApp1
        else
          let seg_len := unpack_int BigEndian seg_len_data in
          match file_seek_cur pos2 (seg_len - 2) with
          | Returns pos3 => scan_markers fuel' data pos3
          | Raises e => Some (ScanRaises e)
          end
      else Some NoApp1
  end.

(** The body of the [try] block of [_extract_exif_date], on the bytes of the
    opened file. The scan is given one unit of fuel per byte of the file plus
    one, which is more than it can use. *)
Definition exif_try_body (data : bytes) : outcome (option (string * string)) :=
  if decide (take 2 data = [xff; xd8]) then
    match scan_markers (S (length data)) data 2 with
    | Some (FoundApp1 pos) =>
        let app1_len_data := take 2 (drop pos data) in
        let pos1 := (pos + length app1_len_data)%nat in
        if (length app1_len_data <? 2)%nat then Returns None
        else
          let app1_len := unpack_int BigEndian app1_len_data in
          app1_data <-! file_read data pos1 (app1_len - 2) ;;
          if decide (take 6 app1_data = [x45; x78; x69; x66; x00; x00]) then
            _parse_tiff_for_date (drop 6 app1_data)
          else Returns None
    | Some NoApp1 => Returns None
    | Some (ScanRaises e) => Raises e
    | None => Returns None
    end
  else Returns None.

(** [except (OSError, struct.error): return None] *)
Definition catch_os_struct {A} (o : outcome (option A)) : outcome (option A) :=
  match o with
  | Raises OSError | Raises StructError => Returns None
  | _ => o
  end.

(** [_extract_exif_date] on the content of the file at [photo_path]: the
    date extractor as a function of the byte sequence it is given. *)
Definition extract_exif_date_bytes (data : bytes)
  : outcome (option (string * string)) :=
  catch_os_struct (exif_try_body data).

(** ** Paths ([pathlib.Path]) *)

(** An absolute path is the list of its components, the last component
    first: [name :: parent]. The root directory is [[]]. Components are
    compared literally (no symbolic links, no case folding, [..] is not
    interpreted). *)
Abbreviation path := (list string).

Definition root : path := [].

(** [p.name] and [p.parent] *)
Definition path_name (p : path) : string :=
  match p with
  | [] => ""
  | name :: _ => name
  end.

Definition path_parent (p : path) : path :=
  match p with
  | [] => []
  | _ :: parent => parent
  end.

(** [d / name] for a single component, as in [dest_dir / photo.name]. *)
Notation "d // name" := (name :: d) (at level 40, left associativity, only parsing).

(** The components of a path string: empty and ["."] components are
    dropped. *)
Definition path_parts (s : string) : list string :=
  List.filter (fun c => negb (String.eqb c "" || String.eqb c "."))
              (str_split "/" s).

(** [d / s] for an arbitrary string [s], as in [target_dir / subfolder]: an
    absolute [s] replaces [d]. *)
Definition joinpath (d : path) (s : string) : path :=
  if str_startswith "/" s then rev (path_parts s)
  else rev (path_parts s) ++ d.

(** [p.suffix] and [p.stem]: the name is cut at its last dot, unless that
    dot is the first or the last character. *)
Definition name_cut (name : string) : option nat :=
  match str_rfind "." name 0 with
  | Some i =>
      if (0 <? i)%nat && (i <? String.length name - 1)%nat then Some i else None
  | None => None
  end.

Definition path_suffix (p : path) : string :=
  let name := path_name p in
  match name_cut name with
  | Some i => substring i (String.length name - i) name
  | None => ""
  end.

Definition path_stem (p : path) : string :=
  let name := path_name p in
  match name_cut name with
  | Some i => substring 0 i name
  | None => name
  end.

(** [Path] accepts any string, the operating system does not: on a path
    with an embedded NUL character [exists], [is_dir] and [is_file] answer
    [False], while [mkdir], [os.rename] (hence [shutil.move]) and [open]
    raise [ValueError] before the filesystem is consulted. No existing file
    or directory has such a path. *)
Fixpoint str_has_nul (s : string) : bool :=
  match s with
  | EmptyString => false
  | String c s' => Ascii.eqb c "000" || str_has_nul s'
  end.

Definition has_nul (p : path) : bool := existsb str_has_nul p.

(** ** [backup.py]: ledger entries *)

(** One entry of the manifest: [create_backup_entry] stores [str(source)],
    [str(destination)] and the time; [undo_moves] turns the strings back into
    paths. The strings are kept as the paths they denote. *)
Record BackupEntry : Type := mkEntry {
  source : path;
  destination : path;
  timestamp : nat;
}.

Global Instance BackupEntry_eq_dec : EqDecision BackupEntry.
Proof. solve_decision. Defined.

(** [BackupManifest]: the list [entries], in insertion order. *)
Abbreviation BackupManifest := (list BackupEntry).

(** ** The filesystem *)

(** What a regular file holds: raw bytes, or the JSON document that
    [save_manifest] writes. Raw bytes are taken not to parse as JSON. *)
Inductive content : Type :=
  | Raw (data : bytes)
  | ManifestJson (entries : BackupManifest).

Inductive node : Type :=
  | File (c : content)
  | Dir.

(** The filesystem maps every existing path to its node; the root is a key
    like any other directory. *)
Abbreviation FS := (gmap path node).

(** The state the package runs against: the filesystem and the clock that
    [datetime.now] reads. *)
Record World : Type := mkWorld {
  files : FS;
  clock : nat;
}.

Definition set_files (fs : FS) (w : World) : World :=
  {| files := fs; clock := clock w |}.

Definition fs_exists (fs : FS) (p : path) : bool :=
  match fs !! p with
  | Some _ => true
  | None => false
  end.

Definition fs_is_dir (fs : FS) (p : path) : bool :=
  match fs !! p with
  | Some Dir => true
  | _ => false
  end.

Definition fs_is_file (fs : FS) (p : path) : bool :=
  match fs !! p with
  | Some (File _) => true
  | _ => false
  end.

(** [p.mkdir(parents=True, exist_ok=True)]: [os.mkdir] is tried on [p] and
    refuses a path with an embedded NUL character; when the parent is missing
    the parent is made first; an existing directory is accepted and an
    existing regular file (at [p] or in place of an ancestor) is an error.
    [None] is an exception, and nothing has been made: the [ValueError] of
    the refused path, else an [OSError] (told apart in [path_mkdir]). *)
Fixpoint fs_mkdir (p : path) (fs : FS) : option FS :=
  if has_nul p then None
  else
    match fs !! p with
    | Some Dir => Some fs
    | Some (File _) => None
    | None =>
        match p with
        | [] => None
        | _ :: parent =>
            match fs_mkdir parent fs with
            | Some fs' => Some (<[p := Dir]> fs')
            | None => None
            end
        end
    end.

(** [k] lies in the tree rooted at [a]: the components of [k] below [a]. *)
Definition relative_to (a k : path) : option (list string) :=
  let n := (length k - length a)%nat in
  if decide (drop n k = a) then Some (take n k) else None.

Definition rekey (a t k : path) : path :=
  match relative_to a k with
  | Some rel => rel ++ t
  | None => k
  end.

(** Renaming the directory [a] to the free path [t] moves its whole tree. *)
Definition fs_move_tree (a t : path) (fs : FS) : FS :=
  list_to_map (map (fun kv : path * node => (rekey a t kv.1, kv.2))
                   (map_to_list fs)).

(** [os.rename(a, t)] where [t] is not an existing directory. A regular
    file replaces a regular file at [t]; a directory moves only to a free
    path outside itself. [None] is an [OSError]. *)
Definition os_rename (a t : path) (fs : FS) : option FS :=
  if negb (fs_is_dir fs (path_parent t)) then None
  else
    match fs !! a, fs !! t with
    | Some (File c), None | Some (File c), Some (File _) =>
        Some (<[t := File c]> (delete a fs))
    | Some Dir, None =>
        if decide (is_Some (relative_to a t)) then None
        else Some (fs_move_tree a t fs)
    | _, _ => None
    end.

(** [shutil.move(a, b)] on one device. An existing directory [b] receives
    [a] under [a]'s own name, unless that name is taken there. When
    [os.rename] fails, the copy that [shutil.move] falls back to fails for the
    same reason, so the failure is the result. *)
Definition fs_shutil_move (a b : path) (fs : FS) : option FS :=
  match fs !! a with
  | None => None
  | Some _ =>
      if fs_is_dir fs b then
        if decide (a = b) then Some fs
        else
          let real_dst := b // path_name a in
          if fs_exists fs real_dst then None else os_rename a real_dst fs
      else os_rename a b fs
  end.

(** The bytes a reader of the file sees. Of a JSON document only the first
    byte, an opening brace, matters to the package (it fails the JPEG marker
    test). *)
Definition content_bytes (c : content) : bytes :=
  match c with
  | Raw data => data
  | ManifestJson _ => [x7b]
  end.

(** ** The state-and-exception monad *)

(** A Python statement: from a world, a value or an exception, and the world
    as the statement left it (effects made before an exception persist). *)
Definition M (A : Type) : Type := World -> outcome A * World.

Definition ret {A} (a : A) : M A := fun w => (Returns a, w).

Definition raise {A} (e : exn) : M A := fun w => (Raises e, w).

Definition bind {A B} (c : M A) (k : A -> M B) : M B :=
  fun w =>
    match c w with
    | (Returns a, w') => k a w'
    | (Raises e, w') => (Raises e, w')
    end.

Notation "x <- c1 ;; c2" := (bind c1 (fun x => c2))
  (at level 100, c1 at next level, right associativity).
Notation "c1 ;;; c2" := (bind c1 (fun _ => c2))
  (at level 100, right associativity).

(** [try: c  except OSError: h] *)
Definition try_except_OSError {A} (c : M A) (h : M A) : M A :=
  fun w =>
    match c w with
    | (Raises OSError, w') => h w'
    | r => r
    end.

(** [for x in l: acc = body(acc, x)] *)
Fixpoint for_each {A S} (body : S -> A -> M S) (l : list A) (acc : S) : M S :=
  match l with
  | [] => ret acc
  | x :: l' => acc' <- body acc x ;; for_each body l' acc'
  end.

Definition fs_get {A} (f : FS -> A) : M A := fun w => (Returns (f (files w)), w).

Definition fs_update (f : FS -> option FS) : M unit :=
  fun w =>
    match f (files w) with
    | Some fs' => (Returns tt, set_files fs' w)
    | None => (Raises OSError, w)
    end.

Definition path_exists (p : path) : M bool := fs_get (fun fs => fs_exists fs p).
Definition path_is_dir (p : path) : M bool := fs_get (fun fs => fs_is_dir fs p).
Definition path_is_file (p : path) : M bool := fs_get (fun fs => fs_is_file fs p).

(** [p.mkdir(parents=True, exist_ok=True)]: the first call that meets a
    path given from outside (a target directory, a subfolder built from the
    bytes of a photo, the parent of a path read from a ledger). *)
Definition path_mkdir (p : path) : M unit :=
  if has_nul p then raise ValueError else fs_update (fs_mkdir p).

(** [shutil.move(str(a), str(b))] as the organizers call it: [a] is a file
    the listing yielded and [b] a name, built from the name of [a], inside a
    directory that [mkdir] has just made or found; neither holds a NUL
    character. *)
Definition shutil_move (a b : path) : M unit := fs_update (fs_shutil_move a b).

(** [shutil.move(str(a), str(b))] on paths read from a ledger file, which
    may hold any string: a NUL character in either is a [ValueError]. *)
Definition ledger_move (a b : path) : M unit :=
  if has_nul a || has_nul b then raise ValueError else shutil_move a b.

(** [open(p, "rb")] followed by reading: the bytes of a regular file. *)
Definition open_rb (p : path) : M bytes :=
  fun w =>
    match files w !! p with
    | Some (File c) => (Returns (content_bytes c), w)
    | _ => (Raises OSError, w)
    end.

(** [datetime.now(timezone.utc)]: the clock is read and moves on. *)
Definition datetime_now : M nat :=
  fun w => (Returns (clock w), {| files := files w; clock := S (clock w) |}).

(** ** [backup.py] *)

Definition create_backup_entry (src dst : path) : M BackupEntry :=
  now <- datetime_now ;;
  ret {| source := src; destination := dst; timestamp := now |}.

(** [save_manifest]: the parent directory is made, the file is opened for
    writing (a [ValueError] on a name with a NUL character, an [OSError] on
    a directory) and the document is dumped. *)
Definition save_manifest (manifest : BackupManifest) (p : path) : M unit :=
  path_mkdir (path_parent p) ;;;
  if has_nul p then raise ValueError
  else
    fs_update (fun fs =>
      match fs !! p with
      | Some Dir => None
      | _ => if fs_is_dir fs (path_parent p)
             then Some (<[p := File (ManifestJson manifest)]> fs)
             else None
      end).

(** [load_manifest]: a missing file is an empty manifest; a file that does
    not hold JSON makes [json.load] raise. *)
Definition load_manifest (p : path) : M BackupManifest :=
  fun w =>
    match files w !! p with
    | None => (Returns [], w)
    | Some Dir => (Raises OSError, w)
    | Some (File (Raw _)) => (Raises ValueError, w)
    | Some (File (ManifestJson entries)) => (Returns entries, w)
    end.

(** The counts [undo_moves] returns. *)
Record UndoCounts : Type := mkCounts {
  restored : nat;
  failed : nat;
}.

(** The body of the loop of [undo_moves]. Only an [OSError] is caught: the
    [ValueError] that [mkdir] or [shutil.move] raises on a source string with
    a NUL character leaves the loop and [undo_moves]. *)
Definition undo_entry (acc : UndoCounts) (entry : BackupEntry) : M UndoCounts :=
  let src := source entry in
  let dst := destination entry in
  dst_exists <- path_exists dst ;;
  if negb dst_exists then
    ret {| restored := restored acc; failed := S (failed acc) |}
  else
    try_except_OSError
      (path_mkdir (path_parent src) ;;;
       ledger_move dst src ;;;
       ret {| restored := S (restored acc); failed := failed acc |})
      (ret {| restored := restored acc; failed := S (failed acc) |}).

Definition undo_moves (manifest : BackupManifest) : M UndoCounts :=
  for_each undo_entry (rev manifest) {| restored := 0; failed := 0 |}.

(** ** [config.py] *)

(** The data of one category: [cat_data.get("extensions", [])] and
    [cat_data.get("target_dir")]. *)
Record CategoryData : Type := mkCategory {
  extensions : list string;
  target_dir : option string;
}.

(** [Config.categories]: a dictionary, kept as the list of its items in
    insertion order. *)
Record Config : Type := mkConfig {
  categories : list (string * CategoryData);
}.

(** [d.get(key)] on the items of a dictionary. *)
Fixpoint dict_get {V} (items : list (string * V)) (key : string) : option V :=
  match items with
  | [] => None
  | (k, v) :: items' => if decide (k = key) then Some v else dict_get items' key
  end.

Definition get_target_dir (cfg : Config) (category : string) : option string :=
  match dict_get (categories cfg) category with
  | Some cat_data => target_dir cat_data
  | None => None
  end.

(** [x in l] for strings. *)
Definition str_in (x : string) (l : list string) : bool :=
  existsb (String.eqb x) l.

(** ** The organizers *)

(** The directory enumeration primitive behind [Path.iterdir]: the entries
    of a directory of the filesystem, in the order the operating system
    yields them. *)
Class DirEnum : Type := mkDirEnum {
  iterdir : FS -> path -> list path;
  iterdir_NoDup : forall fs d, NoDup (iterdir fs d);
}.

(** An enumeration for concrete runs: the children of the directory in the
    order of the filesystem map. *)
Definition listdir (fs : FS) (d : path) : list path :=
  List.filter (fun p => bool_decide (p <> [] /\ path_parent p = d))
              (fst <$> map_to_list fs).

Definition listdir_enum : DirEnum.
Proof.
  refine {| iterdir := listdir |}.
  intros fs d. unfold listdir.
  generalize (NoDup_fst_map_to_list fs).
  generalize (fst <$> map_to_list fs). intros ps Hps.
  induction Hps as [|x ps' Hx Hps' IH]; simpl; [constructor|].
  destruct (bool_decide _); [|exact IH].
  constructor; [|exact IH].
  intros Hin. apply Hx. apply list_elem_of_In in Hin.
  apply List.filter_In in Hin. apply list_elem_of_In. tauto.
Defined.

(** The statistics an organizer returns: the dictionary with the keys
    [moved], [would_move], [duplicates] and [entries]. *)
Record Stats : Type := mkStats {
  moved : nat;
  would_move : nat;
  duplicates : nat;
  entries : list (path * path);
}.

Definition no_stats : Stats :=
  {| moved := 0; would_move := 0; duplicates := 0; entries := [] |}.

(** The [while dest.exists()] loop that probes [stem_1], [stem_2], ...: one
    test of [dest] per unit of fuel. *)
Fixpoint probe (fuel : nat) (fs : FS) (dest_dir : path) (stem suffix : string)
    (dest : path) (counter : nat) : path :=
  match fuel with
  | O => dest
  | S fuel' =>
      if fs_exists fs dest then
        probe fuel' fs dest_dir stem suffix
              (dest_dir // (stem +:+ "_" +:+ pretty counter +:+ suffix))
              (S counter)
      else dest
  end.

(** The loop run to its end: a filesystem of [n] entries cannot hold the
    first tested path and [n + 1] probes after it. *)
Definition first_free (fs : FS) (dest_dir : path) (stem suffix : string)
    (dest : path) : path :=
  probe (size fs + 2) fs dest_dir stem suffix dest 1.

(** The relocation every organizer performs on one file once the desired
    destination is known: duplicate handling, [shutil.move], the recorded
    entry and the counters. *)
Definition resolve_and_move (dest_dir dest f : path) (st : Stats) : M Stats :=
  dest_exists <- path_exists dest ;;
  final <- (if dest_exists
            then fs_get (fun fs =>
                   first_free fs dest_dir (path_stem f) (path_suffix f) dest)
            else ret dest) ;;
  shutil_move f final ;;;
  ret {| moved := S (moved st);
         would_move := would_move st;
         duplicates := (if dest_exists then S (duplicates st) else duplicates st);
         entries := entries st ++ [(f, final)] |}.

Definition count_would_move (st : Stats) : Stats :=
  {| moved := moved st; would_move := S (would_move st);
     duplicates := duplicates st; entries := entries st |}.

(** [_extract_exif_date(photo_path)]: opening the file is inside the [try]. *)
Definition _extract_exif_date (photo_path : path)
  : M (option (string * string)) :=
  fun w =>
    match open_rb photo_path w with
    | (Returns data, w') => (extract_exif_date_bytes data, w')
    | (Raises OSError, w') | (Raises StructError, w') => (Returns None, w')
    | (Raises e, w') => (Raises e, w')
    end.

(** The three organizer classes. Their [scan] and [organize] methods are the
    same text up to the category they read from the configuration and the
    subfolder they choose. *)
Inductive organizer_kind : Type :=
  | PhotoOrganizer
  | DocumentOrganizer
  | DownloadsOrganizer.

Definition category_of (k : organizer_kind) : string :=
  match k with
  | PhotoOrganizer => "photos"
  | DocumentOrganizer => "documents"
  | DownloadsOrganizer => "downloads"
  end.

Definition DOWNLOAD_TYPE_MAP : list (string * string) :=
  [ (".dmg", "installers"); (".exe", "installers"); (".msi", "installers");
    (".pkg", "installers"); (".deb", "installers"); (".rpm", "installers");
    (".appimage", "installers");
    (".zip", "archives"); (".tar", "archives"); (".gz", "archives");
    (".bz2", "archives"); (".xz", "archives"); (".7z", "archives");
    (".rar", "archives");
    (".iso", "disk_images"); (".img", "disk_images") ].

(** [_get_date_subfolder], [_get_extension_subfolder], [_get_type_subfolder] *)
Definition _get_date_subfolder (photo : path) : M string :=
  result <- _extract_exif_date photo ;;
  match result with
  | Some (year, month) => ret (year +:+ "/" +:+ month)
  | None => ret "unsorted"
  end.

Definition _get_extension_subfolder (doc : path) : string :=
  str_lower (str_lstrip "." (path_suffix doc)).

Definition _get_type_subfolder (download : path) : string :=
  match dict_get DOWNLOAD_TYPE_MAP (str_lower (path_suffix download)) with
  | Some bucket => bucket
  | None => "other"
  end.

Definition get_subfolder (k : organizer_kind) (f : path) : M string :=
  match k with
  | PhotoOrganizer => _get_date_subfolder f
  | DocumentOrganizer => ret (_get_extension_subfolder f)
  | DownloadsOrganizer => ret (_get_type_subfolder f)
  end.

(** [self._extensions], built by [__init__] from the configuration. *)
Definition organizer_extensions (cfg : Config) (k : organizer_kind)
  : list string :=
  match dict_get (categories cfg) (category_of k) with
  | Some cat_data => map str_lower (extensions cat_data)
  | None => []
  end.

Section Organizers.
Context `{DirEnum}.

(** [scan]: the regular files of [source_dir] with a recognized
    extension. *)
Definition scan (exts : list string) (source_dir : path) : M (list path) :=
  fs_get (fun fs =>
    if fs_is_dir fs source_dir then
      List.filter
        (fun f => fs_is_file fs f && str_in (str_lower (path_suffix f)) exts)
        (iterdir fs source_dir)
    else []).

(** The body of the [for] loop of [organize] in the three organizer
    classes. *)
Definition organizer_step (k : organizer_kind) (target_dir : path)
    (dry_run : bool) (st : Stats) (f : path) : M Stats :=
  subfolder <- get_subfolder k f ;;
  let dest_dir := joinpath target_dir subfolder in
  let dest := dest_dir // path_name f in
  if dry_run then ret (count_would_move st)
  else
    path_mkdir dest_dir ;;;
    resolve_and_move dest_dir dest f st.

(** [PhotoOrganizer.organize], [DocumentOrganizer.organize] and
    [DownloadsOrganizer.organize] *)
Definition organizer_organize (k : organizer_kind) (cfg : Config)
    (source_dir target_dir : path) (dry_run : bool) : M Stats :=
  found <- scan (organizer_extensions cfg k) source_dir ;;
  for_each (organizer_step k target_dir dry_run) found no_stats.

(** The body of the [for] loop of [_organize_generic]. *)
Definition generic_step (target_dir : path) (exts : list string)
    (dry_run : bool) (st : Stats) (f : path) : M Stats :=
  is_file <- path_is_file f ;;
  if negb is_file then ret st
  else if negb (str_in (str_lower (path_suffix f)) exts) then ret st
  else
    let dest := target_dir // path_name f in
    if dry_run then ret (count_would_move st)
    else resolve_and_move target_dir dest f st.

(** [FileOrganizer._organize_generic] *)
Definition _organize_generic (source_dir target_dir : path)
    (exts : list string) (dry_run : bool) : M Stats :=
  source_is_dir <- path_is_dir source_dir ;;
  if negb source_is_dir then ret no_stats
  else
    (if dry_run then ret tt else path_mkdir target_dir) ;;;
    listing <- fs_get (fun fs => iterdir fs source_dir) ;;
    for_each (generic_step target_dir exts dry_run) listing no_stats.

(** [FileOrganizer._build_organizers]: the dedicated organizers of the
    categories present in the configuration, in the order of
    [category_map]. *)
Definition _build_organizers (cfg : Config) : list (string * organizer_kind) :=
  List.filter
    (fun item => bool_decide (is_Some (dict_get (categories cfg) item.1)))
    [ ("photos", PhotoOrganizer); ("documents", DocumentOrganizer);
      ("downloads", DownloadsOrganizer) ].

(** The locals of [FileOrganizer.organize] that its two loops update. *)
Record Batch : Type := mkBatch {
  total_moved : nat;
  total_would_move : nat;
  manifest : BackupManifest;
  category_results : list (string * Stats);
}.

Definition new_batch : Batch :=
  {| total_moved := 0; total_would_move := 0; manifest := [];
     category_results := [] |}.

(** [categories and cat_name not in categories] *)
Definition filtered_out (selected : option (list string)) (cat_name : string)
  : bool :=
  match selected with
  | None | Some [] => false
  | Some l => negb (str_in cat_name l)
  end.

(** The tail shared by both loops: the results are stored, the totals
    grow and one backup entry per moved file is added to the manifest. *)
Definition record_results (cat_name : string) (results : Stats) (b : Batch)
  : M Batch :=
  m <- for_each
         (fun (m : BackupManifest) (entry : path * path) =>
            e <- create_backup_entry entry.1 entry.2 ;; ret (m ++ [e]))
         (entries results) (manifest b) ;;
  ret {| total_moved := total_moved b + moved results;
         total_would_move := total_would_move b + would_move results;
         manifest := m;
         category_results := category_results b ++ [(cat_name, results)] |}.

Definition dedicated_step (cfg : Config) (base_target source_dir : path)
    (dry_run : bool) (selected : option (list string)) (b : Batch)
    (item : string * organizer_kind) : M Batch :=
  let '(cat_name, organizer) := item in
  if filtered_out selected cat_name then ret b
  else
    let target_dir_name :=
      match get_target_dir cfg cat_name with
      | Some name => if String.eqb name "" then cat_name else name
      | None => cat_name
      end in
    let target := joinpath base_target target_dir_name in
    results <- organizer_organize organizer cfg source_dir target dry_run ;;
    record_results cat_name results b.

Definition generic_category_step (cfg : Config) (base_target source_dir : path)
    (dry_run : bool) (selected : option (list string)) (b : Batch)
    (item : string * CategoryData) : M Batch :=
  let '(cat_name, cat_data) := item in
  if bool_decide (is_Some (dict_get (_build_organizers cfg) cat_name)) then ret b
  else if filtered_out selected cat_name then ret b
  else
    let target_dir_name :=
      match target_dir cat_data with
      | Some name => name
      | None => cat_name
      end in
    let target := joinpath base_target target_dir_name in
    let exts := map str_lower (extensions cat_data) in
    results <- _organize_generic source_dir target exts dry_run ;;
    record_results cat_name results b.

(** The name of the ledger file inside the target root. *)
Definition manifest_path (base_target : path) : path :=
  base_target // ".file_organizer_manifest.json".

(** What [FileOrganizer.organize] returns. *)
Record Report : Type := mkReport {
  report_total_moved : nat;
  report_total_would_move : nat;
  report_categories : list (string * Stats);
}.

(** [FileOrganizer.organize]. The progress bar, and the count of eligible
    files that only feeds it, report and do not act; they are left out. *)
Definition organize (cfg : Config) (base_target source_dir : path)
    (dry_run : bool) (selected : option (list string)) : M Report :=
  b1 <- for_each (dedicated_step cfg base_target source_dir dry_run selected)
                 (_build_organizers cfg) new_batch ;;
  b2 <- for_each (generic_category_step cfg base_target source_dir dry_run
                    selected)
                 (categories cfg) b1 ;;
  (if negb dry_run && (0 <? total_moved b2)%nat then
     path_mkdir base_target ;;;
     save_manifest (manifest b2) (manifest_path base_target)
   else ret tt) ;;;
  ret {| report_total_moved := total_moved b2;
         report_total_would_move := total_would_move b2;
         report_categories := category_results b2 |}.

(** [FileOrganizer.undo] *)
Definition undo (manifest_file : path) : M UndoCounts :=
  m <- load_manifest manifest_file ;;
  undo_moves m.

End Organizers.

(** ** Concrete data for the examples *)

(** The nested container built by [test_photo_with_exif_date_goes_to_year_month_folder]:
    big-endian header, one directory entry with the tag [0x9003], count 20
    and value offset 26, and the date string with its terminating zero. *)
Definition exif_test_tiff : bytes :=
  [x4d; x4d; x00; x2a; x00; x00; x00; x08] ++
  [x00; x01] ++
  [x90; x03; x00; x02; x00; x00; x00; x14; x00; x00; x00; x1a] ++
  [x00; x00; x00; x00] ++
  list_byte_of_string "2023:06:15 10:30:00" ++ [x00].

(** The JPEG file of the same test: start-of-image marker, the APP1 segment
    with its length and signature, the container, the end-of-image marker. *)
Definition exif_test_jpeg : bytes :=
  [xff; xd8] ++ [xff; xe1; x00; x36] ++ [x45; x78; x69; x66; x00; x00] ++
  exif_test_tiff ++ [xff; xd9].

(** A container whose directory lists the generic date-time tag [0x0132]
    first (tags are stored in increasing order) and the date-time-original
    tag [0x9003] second, with different dates. *)
Definition two_dates_tiff : bytes :=
  [x4d; x4d; x00; x2a; x00; x00; x00; x08] ++
  [x00; x02] ++
  [x01; x32; x00; x02; x00; x00; x00; x14; x00; x00; x00; x26] ++
  [x90; x03; x00; x02; x00; x00; x00; x14; x00; x00; x00; x3a] ++
  [x00; x00; x00; x00] ++
  list_byte_of_string "2020:01:31 08:00:00" ++ [x00] ++
  list_byte_of_string "2023:06:15 10:30:00" ++ [x00].

(** A directory of three entries: an orientation tag, then the generic
    date-time tag, then the date-time-original tag. *)
Definition three_entries_tiff : bytes :=
  [x49; x49; x2a; x00; x08; x00; x00; x00] ++
  [x03; x00] ++
  [x12; x01; x03; x00; x01; x00; x00; x00; x01; x00; x00; x00] ++
  [x32; x01; x02; x00; x14; x00; x00; x00; x32; x00; x00; x00] ++
  [x03; x90; x02; x00; x14; x00; x00; x00; x46; x00; x00; x00] ++
  [x00; x00; x00; x00] ++
  list_byte_of_string "2019:12:24 18:00:00" ++ [x00] ++
  list_byte_of_string "2021:03:02 09:15:00" ++ [x00].

(** A JPEG file whose APP1 segment declares the length 0. *)
Definition zero_length_app1_jpeg : bytes := [xff; xd8; xff; xe1; x00; x00].

(** ** Specification vocabulary for the date parser *)

(** Entry [i] of the directory at [ifd_offset] lies within the buffer,
    carries one of the two recognized tags, and its value lies within the
    buffer and reads as the date [ym]. *)
Definition usable_date_entry (tiff_data : bytes) (ifd_offset : Z) (e : endian)
    (i : Z) (ym : string * string) : Prop :=
  let entry_offset := (ifd_offset + 2 + i * 12)%Z in
  (entry_offset + 12 <= py_len tiff_data)%Z /\
  exists tag value_count value_offset,
    unpack_from_H e tiff_data entry_offset = Returns tag /\
    is_target_tag tag = true /\
    unpack_from_I e tiff_data (entry_offset + 4) = Returns value_count /\
    unpack_from_I e tiff_data (entry_offset + 8) = Returns value_offset /\
    (value_offset + value_count <= py_len tiff_data)%Z /\
    date_of_value (slice tiff_data value_offset (value_offset + value_count))
    = Some ym.

(** ** Specification vocabulary for the filesystem *)

(** A well-formed filesystem: the root is a directory, every entry lies
    in a directory, and no entry has a NUL character in its path. *)
Definition wf_fs (fs : FS) : Prop :=
  fs !! root = Some Dir /\
  (forall name d, is_Some (fs !! (d // name)) -> fs !! d = Some Dir) /\
  (forall p, is_Some (fs !! p) -> has_nul p = false).

(** [fs'] is [fs] with directories added: every entry of [fs] is kept, and
    the regular files are the same. *)
Definition grows_by_dirs (fs fs' : FS) : Prop :=
  (forall p n, fs !! p = Some n -> fs' !! p = Some n) /\
  (forall p c, fs' !! p = Some (File c) -> fs !! p = Some (File c)).

(** The same, with the path [mp] left out of the comparison of regular
    files. *)
Definition grows_by_dirs_off (mp : path) (fs fs' : FS) : Prop :=
  (forall p n, p <> mp \/ n = Dir -> fs !! p = Some n -> fs' !! p = Some n) /\
  (forall p c, p <> mp -> fs' !! p = Some (File c) -> fs !! p = Some (File c)).

(** The source and destination of each entry of a manifest. *)
Definition entry_paths (m : BackupManifest) : list (path * path) :=
  map (fun e => (source e, destination e)) m.

(** The entries every category contributed, in processing order. *)
Definition all_entries (results : list (string * Stats)) : list (path * path) :=
  flat_map (fun r => entries r.2) results.

(** The name probed for at count [k]: [stem_k.ext]. *)
Definition suffixed (dest_dir : path) (stem suffix : string) (k : nat) : path :=
  dest_dir // (stem +:+ "_" +:+ pretty k +:+ suffix).

(** The path the relocation of [f] to the directory [dest_dir] settles on:
    the desired path when it is free, else the first free probed name. *)
Definition final_dest (fs : FS) (dest_dir : path) (name : string) (f : path)
  : path :=
  if fs_exists fs (dest_dir // name)
  then first_free fs dest_dir (path_stem f) (path_suffix f) (dest_dir // name)
  else dest_dir // name.

(** A statement that leaves the world as it found it and, when it returns,
    returns a value satisfying [Q]. *)
Definition quiet {A} (c : M A) (Q : A -> Prop) : Prop :=
  forall w, (c w).2 = w /\ forall a, (c w).1 = Returns a -> Q a.

(** Statistics and batches that record no relocation. *)
Definition nothing_moved (st : Stats) : Prop :=
  moved st = 0%nat /\ entries st = [].

(** The name a relocated file arrives under: its own, or its stem, an
    underscore, a count and its suffix. *)
Definition keeps_name (a b : path) : Prop :=
  path_name b = path_name a \/
  exists k : nat,
    path_name b = path_stem a +:+ "_" +:+ pretty k +:+ path_suffix a.

(** How an execute-mode batch changes the filesystem, as a trace: directories
    are made, and regular files are relocated to free paths inside existing
    directories, each under its name or a numbered variant of it; the
    relocations are recorded in order. *)
Inductive batch_steps (fs0 : FS) : FS -> list (path * path) -> Prop :=
  | steps_start : batch_steps fs0 fs0 []
  | steps_mkdir fs es p fs' :
      batch_steps fs0 fs es ->
      fs_mkdir p fs = Some fs' ->
      batch_steps fs0 fs' es
  | steps_move fs es a b c :
      batch_steps fs0 fs es ->
      fs !! a = Some (File c) ->
      fs !! b = None ->
      fs !! path_parent b = Some Dir ->
      keeps_name a b ->
      batch_steps fs0 (<[b := File c]> (delete a fs)) (es ++ [(a, b)]).

(** What the trace of one organizer says about its statistics and the
    world. *)
Definition traced (w0 : World) (st : Stats) (w : World) : Prop :=
  batch_steps (files w0) (files w) (entries st) /\
  moved st = length (entries st) /\
  clock w = clock w0.

(** What the trace of the batch so far says about the locals of
    [FileOrganizer.organize]. *)
Definition batch_traced (w0 : World) (b : Batch) (w : World) : Prop :=
  batch_steps (files w0) (files w) (entry_paths (manifest b)) /\
  total_moved b = length (manifest b) /\
  entry_paths (manifest b) = all_entries (category_results b).

(** A batch that has recorded no relocation so far. *)
Definition empty_batch (b : Batch) : Prop :=
  total_moved b = 0%nat /\ manifest b = [] /\
  all_entries (category_results b) = [].

(** One more entry restored, one more entry failed. *)
Definition one_restored (acc : UndoCounts) : UndoCounts :=
  {| restored := S (restored acc); failed := failed acc |}.

Definition one_failed (acc : UndoCounts) : UndoCounts :=
  {| restored := restored acc; failed := S (failed acc) |}.

Definition no_counts : UndoCounts := {| restored := 0; failed := 0 |}.

(** A check of well-formedness that computes. *)
Definition wf_fsb (fs : FS) : bool :=
  fs_is_dir fs root &&
  forallb (fun p => match p with
                    | [] => true
                    | _ :: d => fs_is_dir fs d
                    end)
          (fst <$> map_to_list fs) &&
  forallb (fun p => negb (has_nul p)) (fst <$> map_to_list fs).

(** ** Concrete scenarios *)

(** [DEFAULT_CONFIG] of [config.py] *)
Definition DEFAULT_CONFIG : Config :=
  {| categories :=
       [ ("photos",
          {| extensions :=
               [".jpg"; ".jpeg"; ".png"; ".gif"; ".bmp"; ".tiff"; ".tif";
                ".webp"; ".heic"; ".heif"; ".svg"; ".raw"; ".cr2"; ".nef";
                ".arw"; ".dng"; ".orf"; ".rw2"];
             target_dir := Some "Photos" |});
         ("documents",
          {| extensions :=
               [".pdf"; ".doc"; ".docx"; ".xls"; ".xlsx"; ".ppt"; ".pptx";
                ".odt"; ".ods"; ".odp"; ".txt"; ".rtf"; ".csv"; ".md";
                ".tex"; ".epub"];
             target_dir := Some "Documents" |});
         ("downloads",
          {| extensions :=
               [".dmg"; ".exe"; ".msi"; ".pkg"; ".deb"; ".rpm"; ".appimage";
                ".zip"; ".tar"; ".gz"; ".bz2"; ".xz"; ".7z"; ".rar";
                ".iso"; ".img"];
             target_dir := Some "Downloads" |}) ] |}.

(** The end-to-end scenario: a source directory with one image carrying the
    embedded date of the test above and one image with no metadata segment. *)
Definition inbox : path := root // "home" // "inbox".
Definition sorted : path := root // "home" // "sorted".

Definition inbox_world : World :=
  {| files := list_to_map
       [ (root, Dir); (root // "home", Dir); (inbox, Dir);
         (inbox // "dated.jpg", File (Raw exif_test_jpeg));
         (inbox // "plain.jpg", File (Raw [xff; xd8; xff; xd9])) ];
     clock := 0 |}.

Definition inbox_run : outcome Report * World :=
  organize (H := listdir_enum) DEFAULT_CONFIG sorted inbox false None
           inbox_world.

Definition inbox_report : Report :=
  match inbox_run.1 with
  | Returns r => r
  | Raises _ => {| report_total_moved := 0; report_total_would_move := 0;
                   report_categories := [] |}
  end.

(** A configuration with a custom category whose target directory has the
    name of a photo of the source directory, run with the source directory
    as target root. *)
Definition shadow_config : Config :=
  {| categories :=
       [ ("photos", {| extensions := [".jpg"]; target_dir := Some "Photos" |});
         ("code", {| extensions := [".py"]; target_dir := Some "a.jpg" |}) ] |}.

Definition desk : path := root // "desk".

Definition shadow_world : World :=
  {| files := list_to_map
       [ (root, Dir); (desk, Dir);
         (desk // "a.jpg", File (Raw [x01]));
         (desk // "x.py", File (Raw [x02])) ];
     clock := 0 |}.

Definition shadow_run : outcome Report * World :=
  organize (H := listdir_enum) shadow_config desk desk false None shadow_world.





(** A ledger of two entries whose destinations are there; the source string
    of the second has a NUL character in its last component. *)
Definition nul_name : string := "y" +:+ String "000" ".txt".

Definition nul_ledger : BackupManifest :=
  [ {| source := root // "old" // "z.txt";
       destination := root // "kept" // "z.txt"; timestamp := 0 |};
    {| source := root // "old" // nul_name;
       destination := root // "kept" // "y.txt"; timestamp := 1 |} ].

Definition nul_world : World :=
  {| files := list_to_map
       [ (root, Dir); (root // "kept", Dir);
         (root // "kept" // "y.txt", File (Raw [x03]));
         (root // "kept" // "z.txt", File (Raw [x05])) ];
     clock := 2 |}.

(** A source directory without any file of the custom category [code]. *)
Definition code_config : Config :=
  {| categories :=
       [ ("code", {| extensions := [".py"; ".rs"]; target_dir := Some "Code" |}) ] |}.

Definition notes_world : World :=
  {| files := list_to_map
       [ (root, Dir); (root // "home", Dir); (inbox, Dir);
         (inbox // "notes.txt", File (Raw [x68; x69])) ];
     clock := 0 |}.

Definition notes_run : outcome Report * World :=
  organize (H := listdir_enum) code_config sorted inbox false None notes_world.


(** Three files of the same name in three directories, and an empty target
    directory. *)
Definition reports_world : World :=
  {| files := list_to_map
       [ (root, Dir); (root // "a", Dir); (root // "b", Dir); (root // "c", Dir);
         (root // "docs", Dir);
         (root // "a" // "report.txt", File (Raw [x61]));
         (root // "b" // "report.txt", File (Raw [x62]));
         (root // "c" // "report.txt", File (Raw [x63])) ];
     clock := 0 |}.

Definition reports : list path :=
  [ root // "a" // "report.txt"; root // "b" // "report.txt";
    root // "c" // "report.txt" ].


(** Three photos of one name, without metadata, in three directories. *)
Definition photos_world : World :=
  {| files := list_to_map
       [ (root, Dir); (root // "a", Dir); (root // "b", Dir); (root // "c", Dir);
         (root // "a" // "img.jpg", File (Raw [xff; xd8; xff; xd9]));
         (root // "b" // "img.jpg", File (Raw [xff; xd8; xff; xd9; x00]));
         (root // "c" // "img.jpg", File (Raw [x89; x50; x4e; x47])) ];
     clock := 0 |}.

Definition photos : list path :=
  [ root // "a" // "img.jpg"; root // "b" // "img.jpg";
    root // "c" // "img.jpg" ].

(** A custom category that collects JSON files into the target root itself,
    run over a directory that holds the ledger file of an earlier batch. *)
Definition json_config : Config :=
  {| categories :=
       [ ("data", {| extensions := [".json"]; target_dir := Some "" |}) ] |}.

Definition old_ledger : content :=
  ManifestJson [ {| source := root // "x"; destination := root // "y";
                    timestamp := 7 |} ].

Definition archive_world : World :=
  {| files := list_to_map
       [ (root, Dir); (root // "home", Dir); (inbox, Dir); (sorted, Dir);
         (inbox // ".file_organizer_manifest.json", File old_ledger) ];
     clock := 0 |}.

Definition archive_run : outcome Report * World :=
  organize (H := listdir_enum) json_config sorted inbox false None archive_world.

(** A ledger of two relocations, after the destination of the second has
    been deleted behind the organizer's back. *)
Definition half_gone_ledger : BackupManifest :=
  [ {| source := inbox // "one.txt"; destination := sorted // "one.txt";
       timestamp := 0 |};
    {| source := inbox // "two.txt"; destination := sorted // "two.txt";
       timestamp := 1 |} ].

Definition half_gone_world : World :=
  {| files := list_to_map
       [ (root, Dir); (root // "home", Dir); (inbox, Dir); (sorted, Dir);
         (sorted // "one.txt", File (Raw [x31])) ];
     clock := 2 |}.

(** ** Recognized files *)

(** [is_photo], [is_document] and [is_download]: the same test in the three
    organizer classes, [path.suffix.lower() in self._extensions]. *)
Definition is_kind (k : organizer_kind) (cfg : Config) (p : path) : bool :=
  str_in (str_lower (path_suffix p)) (organizer_extensions cfg k).

Definition is_photo : Config -> path -> bool := is_kind PhotoOrganizer.
Definition is_document : Config -> path -> bool := is_kind DocumentOrganizer.
Definition is_download : Config -> path -> bool := is_kind DownloadsOrganizer.

(** The character [c] occurs in [s]. *)
Definition occurs (c : ascii) (s : string) : Prop :=
  c ∈ list_ascii_of_string s.

(** ** [config.py]: the extension map and the loader *)

(** A [Config] object as [from_dict] leaves it: the categories, and the
    dictionary [_extension_map] built from them. (The record [Config] above
    is the field [categories], which is all the organizers read.) *)
Record ConfigObject : Type := mkConfigObject {
  config_of : Config;
  _extension_map : gmap string string;
}.

(** The inner loop of [Config._build_extension_map]: the extensions of one
    category are entered, in lower case, under the name of the category. *)
Definition enter_extensions (category_name : string) (exts : list string)
    (m : gmap string string) : gmap string string :=
  fold_left (fun (m' : gmap string string) (ext : string) =>
               <[str_lower ext := category_name]> m')
            exts m.

(** [Config._build_extension_map]: the categories are entered in the order
    of the dictionary; a later entry for the same extension replaces the
    earlier one. *)
Definition _build_extension_map (cfg : Config) : gmap string string :=
  fold_left
    (fun (m : gmap string string) (item : string * CategoryData) =>
       enter_extensions item.1 (extensions item.2) m)
    (categories cfg) ∅.

(** [Config.from_dict(data)], on [data.get("categories")]. *)
Definition from_dict (data : option (list (string * CategoryData)))
  : ConfigObject :=
  let cfg := {| categories := match data with
                              | Some cats => cats
                              | None => []
                              end |} in
  {| config_of := cfg; _extension_map := _build_extension_map cfg |}.

Definition get_category_for_extension (c : ConfigObject) (ext : string)
  : option string :=
  _extension_map c !! str_lower ext.

(** [d[k] = v] on the items of a dictionary: an existing key keeps its
    place, a new key goes to the end. *)
Fixpoint dict_set {V} (items : list (string * V)) (k : string) (v : V)
  : list (string * V) :=
  match items with
  | [] => [(k, v)]
  | (k', v') :: items' =>
      if decide (k' = k) then (k, v) :: items'
      else (k', v') :: dict_set items' k v
  end.

(** [d.update(other)] *)
Definition dict_update {V} (items other : list (string * V))
  : list (string * V) :=
  fold_left (fun acc (kv : string * V) => dict_set acc kv.1 kv.2) other items.

(** What [yaml.safe_load] returns on the documents the package is written
    for: nothing (an empty document), or a mapping, of which the package
    reads the key [categories]. *)
Inductive yaml_doc : Type :=
  | YamlNull
  | YamlMapping (categories_key : option (list (string * CategoryData))).

Section Loader.

(** The parser of the YAML library, [None] when it raises. *)
Variable yaml_safe_load : content -> option yaml_doc.

(** [load_config]; [None] when an exception is raised (by [open] on a
    directory, or by the parser). *)
Definition load_config (config_path : path) (fs : FS) : option ConfigObject :=
  let defaults := from_dict (Some (categories DEFAULT_CONFIG)) in
  if negb (fs_exists fs config_path) then Some defaults
  else
    match fs !! config_path with
    | Some (File c) =>
        match yaml_safe_load c with
        | Some doc =>
            let user_categories :=
              match doc with
              | YamlMapping (Some cats) => cats
              | _ => []
              end in
            let merged_categories :=
              dict_update (categories DEFAULT_CONFIG) user_categories in
            Some (from_dict (Some merged_categories))
        | None => None
        end
    | _ => None
    end.

End Loader.

(** A user's configuration file that redefines [photos] and adds a category
    [code], and a parser that reads it. *)
Definition settings : list (string * CategoryData) :=
  [ ("photos", {| extensions := [".jpg"]; target_dir := Some "Pics" |});
    ("code", {| extensions := [".py"]; target_dir := Some "Code" |}) ].

Definition settings_file : path := root // "home" // ".file_organizer.yml".

Definition settings_world : World :=
  {| files := list_to_map
       [ (root, Dir); (root // "home", Dir);
         (settings_file, File (Raw [x63])) ];
     clock := 0 |}.

Definition settings_parser (c : content) : option yaml_doc :=
  Some (YamlMapping (Some settings)).

(** ** Specification vocabulary for reports *)

(** [categories and cat_name not in categories] is false: the category
    takes part in the run. *)
Definition selects (selected : option (list string)) (cat_name : string)
  : Prop :=
  filtered_out selected cat_name = false.

Global Instance selects_dec selected cat_name :
  Decision (selects selected cat_name).
Proof. unfold selects. apply _. Defined.

(** The categories of a run in the order in which [FileOrganizer.organize]
    processes them: those with a dedicated organizer, then the others in
    the order of the configuration. *)
Definition processing_order (cfg : Config) (selected : option (list string))
  : list string :=
  filter (selects selected) (_build_organizers cfg).*1 ++
  filter (fun name => selects selected name /\
                      dict_get (_build_organizers cfg) name = None)
         (categories cfg).*1.

(** What the counters of an organizer satisfy when it returns. *)
Definition stats_consistent (dry_run : bool) (st : Stats) : Prop :=
  moved st = length (entries st) /\
  (duplicates st <= moved st)%nat /\
  (if dry_run then moved st = 0%nat else would_move st = 0%nat).

(** What the two loops of [FileOrganizer.organize] keep: the names
    reported so far and still to come make up the processing order of the
    loop, the totals are the sums of the counters reported, and every
    reported counter is consistent. *)
Definition batch_reported (dry_run : bool) (names : list string) (b : Batch)
  : Prop :=
  (category_results b).*1 = names /\
  total_moved b = sum_list_with (fun x => moved x.2) (category_results b) /\
  total_would_move b
  = sum_list_with (fun x => would_move x.2) (category_results b) /\
  Forall (fun x => stats_consistent dry_run x.2) (category_results b).


(** What a batch has recorded when every organizer found nothing. *)
Definition idle (b : Batch) : Prop :=
  total_moved b = 0%nat /\ total_would_move b = 0%nat /\
  Forall (fun x => x.2 = no_stats) (category_results b).


(** The category [item] takes part in the run and lists the suffix of
    [p], case apart. *)
Definition lists_suffix (selected : option (list string)) (p : path)
    (item : string * CategoryData) : Prop :=
  selects selected item.1 /\
  str_in (str_lower (path_suffix p)) (map str_lower (extensions item.2)) = true.

(** Some category that takes part in the run lists the suffix of [p]. *)
Definition eligible (cfg : Config) (selected : option (list string))
    (p : path) : Prop :=
  Exists (lists_suffix selected p) (categories cfg).

Global Instance lists_suffix_dec selected p item :
  Decision (lists_suffix selected p item).
Proof. unfold lists_suffix. apply _. Defined.

Global Instance eligible_dec cfg selected p : Decision (eligible cfg selected p).
Proof. unfold eligible. apply _. Defined.

(** The filesystem [fs'] is reached from [fs] by the steps of a batch. *)
Definition reaches (fs fs' : FS) : Prop :=
  exists es, batch_steps fs fs' es.

(** What the loop of a dedicated organizer keeps in execute mode: the
    trace so far, and that the files still to come are distinct regular
    files. *)
Definition organizer_loop_inv (w0 : World) (rest : list path) (st : Stats)
    (w : World) : Prop :=
  traced w0 st w /\ NoDup rest /\
  forall f, f ∈ rest -> fs_is_file (files w) f = true.

(** A batch that cannot finish: a regular file stands where the documents
    organizer must make its directory. *)
Definition stuck_world : World :=
  {| files := list_to_map
       [ (root, Dir); (root // "home", Dir); (inbox, Dir); (sorted, Dir);
         (sorted // "Documents", File (Raw [x21]));
         (inbox // "plain.jpg", File (Raw [xff; xd8; xff; xd9]));
         (inbox // "notes.txt", File (Raw [x68; x69])) ];
     clock := 0 |}.

Definition stuck_run : outcome Report * World :=
  organize (H := listdir_enum) DEFAULT_CONFIG sorted inbox false None
           stuck_world.

(** The dedicated organizer [item] takes part in the run and recognizes
    [p]. *)
Definition organizer_lists (cfg : Config) (selected : option (list string))
    (p : path) (item : string * organizer_kind) : Prop :=
  selects selected item.1 /\ is_kind item.2 cfg p = true.

(** The category [item] takes part in the run, has no dedicated organizer
    and lists the suffix of [p]. *)
Definition generic_lists (cfg : Config) (selected : option (list string))
    (p : path) (item : string * CategoryData) : Prop :=
  lists_suffix selected p item /\
  dict_get (_build_organizers cfg) item.1 = None.

Global Instance organizer_lists_dec cfg selected p item :
  Decision (organizer_lists cfg selected p item).
Proof. unfold organizer_lists. apply _. Defined.

Global Instance generic_lists_dec cfg selected p item :
  Decision (generic_lists cfg selected p item).
Proof. unfold generic_lists. apply _. Defined.

Section Counting.
Context `{DirEnum}.

(** [FileOrganizer._count_eligible_files]: the set [all_extensions] is kept
    as the list of what is added to it. *)
Definition _count_eligible_files (cfg : Config) (source_dir : path)
    (selected : option (list string)) : M nat :=
  source_is_dir <- path_is_dir source_dir ;;
  if negb source_is_dir then ret 0%nat
  else
    let all_extensions :=
      flat_map (fun item : string * CategoryData =>
                  if filtered_out selected item.1 then []
                  else map str_lower (extensions item.2))
               (categories cfg) in
    listing <- fs_get (fun fs => iterdir fs source_dir) ;;
    for_each (fun (count : nat) (f : path) =>
                is_file <- path_is_file f ;;
                if is_file && str_in (str_lower (path_suffix f)) all_extensions
                then ret (S count)
                else ret count)
             listing 0%nat.

(** The number of regular files among the entries of the source directory
    that satisfy [P]. *)
Definition listed (P : path -> Prop) `{!forall f, Decision (P f)}
    (source_dir : path) (w : World) : nat :=
  length (filter (fun f => fs_is_file (files w) f = true /\ P f)
                 (iterdir (files w) source_dir)).

End Counting.

(** The photo organizer run on its own over the source directory of the
    end-to-end scenario. *)
Definition inbox_photos_run : outcome Stats * World :=
  organizer_organize (H := listdir_enum) PhotoOrganizer DEFAULT_CONFIG inbox
    (sorted // "Photos") false inbox_world.

Definition inbox_photos_stats : Stats :=
  match inbox_photos_run.1 with
  | Returns st => st
  | Raises _ => no_stats
  end.

(** A source directory with a photo whose APP1 segment declares the
    length 0. *)
Definition broken_world : World :=
  {| files := list_to_map
       [ (root, Dir); (root // "home", Dir); (inbox, Dir);
         (inbox // "bad.jpg", File (Raw zero_length_app1_jpeg)) ];
     clock := 0 |}.

(** The entry [e] does not concern the path [q]: [q] lies neither at or
    below its destination, nor at or below its source, nor above its
    source. *)
Definition unconcerned (q : path) (e : BackupEntry) : Prop :=
  ~ destination e `suffix_of` q /\
  ~ source e `suffix_of` q /\
  ~ q `suffix_of` path_parent (source e).

(** The generic organizer run on its own over the directory [a] of
    [reports_world]. *)
Definition reports_generic_run : outcome Stats * World :=
  _organize_generic (H := listdir_enum) (root // "a") (root // "docs")
    [".txt"] false reports_world.

Definition reports_generic_stats : Stats :=
  match reports_generic_run.1 with
  | Returns st => st
  | Raises _ => no_stats
  end.

(* ===================================================================== *)
(** * Part II. Properties                                                 *)
(* ===================================================================== *)

(** ** The EXIF date parser *)

Section ParserFacts.

Lemma byte_val_nonneg (b : byte) : (0 <= byte_val b)%Z.
Proof. unfold byte_val. lia. Qed.

Lemma be_value_from_nonneg (bs : bytes) (acc : Z) :
  (0 <= acc)%Z ->
  (0 <= fold_left (fun a b => (a * 256 + byte_val b)%Z) bs acc)%Z.
Proof.
  revert acc. induction bs as [|b bs IH]; intros acc Hacc; simpl; [lia|].
  apply IH. pose proof (byte_val_nonneg b). lia.
Qed.

Lemma unpack_int_nonneg (e : endian) (bs : bytes) : (0 <= unpack_int e bs)%Z.
Proof. destruct e; apply be_value_from_nonneg; lia. Qed.

Lemma unpack_from_in_range (e : endian) (size : Z) (data : bytes) (off : Z) :
  (0 <= off)%Z -> (off + size <= py_len data)%Z ->
  unpack_from e size data off
  = Returns (unpack_int e (slice data off (off + size))).
Proof.
  intros H0 H1. unfold unpack_from.
  destruct (Z.leb_spec 0 off); [|lia].
  destruct (Z.leb_spec (off + size) (py_len data)); [|lia].
  reflexivity.
Qed.

Lemma unpack_from_returns_nonneg (e : endian) (size : Z) (data : bytes)
    (off v : Z) :
  unpack_from e size data off = Returns v -> (0 <= v)%Z.
Proof.
  unfold unpack_from. destruct (_ && _); [|discriminate].
  intros [= <-]. apply unpack_int_nonneg.
Qed.

(** The entry loop never raises: every read happens after its bounds
    test. *)
Lemma search_entries_returns (tiff_data : bytes) (ifd_offset : Z) (e : endian)
    (remaining : nat) (i : Z) :
  (0 <= ifd_offset)%Z -> (0 <= i)%Z ->
  exists r, search_entries tiff_data ifd_offset e i remaining = Returns r.
Proof.
  intros Hoff. revert i.
  induction remaining as [|n IH]; intros i Hi; simpl; [eauto|].
  destruct (Z.ltb_spec (py_len tiff_data) (ifd_offset + 2 + i * 12 + 12));
    [eauto|].
  unfold unpack_from_H, unpack_from_I.
  rewrite !unpack_from_in_range by lia. cbn [obind].
  destruct (is_target_tag _); [|apply IH; lia].
  destruct (_ <=? _)%Z; [|apply IH; lia].
  destruct (date_of_value _); [eauto|apply IH; lia].
Qed.

Lemma search_ifd_returns (tiff_data : bytes) (ifd_offset : Z) (e : endian) :
  (0 <= ifd_offset)%Z ->
  exists r, _search_ifd_for_date tiff_data ifd_offset e = Returns r.
Proof.
  intros Hoff. unfold _search_ifd_for_date.
  destruct (Z.ltb_spec (py_len tiff_data) (ifd_offset + 2)); [eauto|].
  unfold unpack_from_H. rewrite unpack_from_in_range by lia. cbn [obind].
  apply search_entries_returns; lia.
Qed.

(** [_parse_tiff_for_date] is total and raises nothing, whatever the
    bytes. *)
Lemma parse_tiff_never_raises (tiff_data : bytes) :
  exists r, _parse_tiff_for_date tiff_data = Returns r.
Proof.
  unfold _parse_tiff_for_date.
  destruct (Z.ltb_spec (py_len tiff_data) 8); [eauto|].
  unfold unpack_from_I.
  destruct (decide _).
  - rewrite unpack_from_in_range by lia. cbn [obind].
    apply search_ifd_returns, unpack_int_nonneg.
  - destruct (decide _); [|eauto].
    rewrite unpack_from_in_range by lia. cbn [obind].
    apply search_ifd_returns, unpack_int_nonneg.
Qed.

(** The marker scan ends: every iteration that goes on has read a whole
    marker and moves the position forward by at least two bytes. *)
Lemma scan_markers_terminates (data : bytes) (fuel pos : nat) :
  (length data - pos < 2 * fuel)%nat ->
  exists r, scan_markers fuel data pos = Some r.
Proof.
  revert pos. induction fuel as [|fuel IH]; intros pos Hfuel; [lia|].
  cbn [scan_markers].
  assert (Hlen : forall n (l : bytes), length (take n l) = (n `min` length l)%nat)
    by (intros; apply length_take).
  destruct (Nat.ltb_spec (length (take 2 (drop pos data))) 2); [eauto|].
  assert (Hmk : length (take 2 (drop pos data)) = 2%nat).
  { rewrite Hlen in *. lia. }
  assert (Hpos : (pos + 2 <= length data)%nat).
  { rewrite Hlen, length_drop in Hmk. lia. }
  rewrite Hmk.
  destruct (decide _); [eauto|].
  destruct (decide _); [|eauto].
  destruct (Nat.ltb_spec (length (take 2 (drop (pos + 2) data))) 2); [eauto|].
  assert (Hsl : length (take 2 (drop (pos + 2) data)) = 2%nat).
  { rewrite Hlen in *. lia. }
  rewrite Hsl.
  unfold file_seek_cur. cbv zeta.
  pose proof (unpack_int_nonneg BigEndian (take 2 (drop (pos + 2) data))).
  match goal with
  | |- context [(?a <? 0)%Z] => destruct (Z.ltb_spec a 0); [lia|]
  end.
  apply IH. lia.
Qed.

(** With the fuel [exif_try_body] gives it, the scan never runs dry. *)
Lemma scan_from_start_terminates (data : bytes) :
  exists r, scan_markers (S (length data)) data 2 = Some r.
Proof. apply scan_markers_terminates. lia. Qed.

End ParserFacts.

Section DateEntries.

Variables (tiff_data : bytes) (ifd_offset : Z) (e : endian).

Lemma usable_entry_unique (i : Z) (ym ym' : string * string) :
  usable_date_entry tiff_data ifd_offset e i ym ->
  usable_date_entry tiff_data ifd_offset e i ym' ->
  ym = ym'.
Proof.
  intros (_ & t & c & o & Ht & _ & Hc & Ho & _ & Hd)
         (_ & t' & c' & o' & Ht' & _ & Hc' & Ho' & _ & Hd').
  congruence.
Qed.

(** The loop, started at index [k], returns the date of the first usable
    entry at or after [k]. *)
Lemma search_entries_first_usable (i : Z) (ym : string * string)
    (remaining : nat) (k : Z) :
  (0 <= ifd_offset)%Z -> (0 <= k <= i)%Z -> (i < k + Z.of_nat remaining)%Z ->
  usable_date_entry tiff_data ifd_offset e i ym ->
  (forall j ym', (k <= j < i)%Z ->
     ~ usable_date_entry tiff_data ifd_offset e j ym') ->
  search_entries tiff_data ifd_offset e k remaining = Returns (Some ym).
Proof.
  intros Hoff. revert k.
  induction remaining as [|n IH]; intros k Hk Hrem Hi Hnone; [lia|].
  pose proof Hi as (Hin & t & c & o & Ht & Htag & Hc & Ho & Hrange & Hd).
  cbn zeta in Hin.
  cbn [search_entries].
  destruct (Z.ltb_spec (py_len tiff_data) (ifd_offset + 2 + k * 12 + 12));
    [nia|].
  destruct (decide (k = i)) as [->|Hne].
  - rewrite Ht. cbn [obind]. rewrite Htag, Hc. cbn [obind].
    rewrite Ho. cbn [obind].
    destruct (Z.leb_spec (o + c) (py_len tiff_data)); [|lia].
    rewrite Hd. reflexivity.
  - assert (Hnext : search_entries tiff_data ifd_offset e (k + 1) n
                    = Returns (Some ym)).
    { apply IH; [lia|lia|exact Hi|]. intros j ym' Hj. apply Hnone. lia. }
    clear t c o Ht Htag Hc Ho Hrange Hd.
    unfold unpack_from_H, unpack_from_I.
    rewrite !unpack_from_in_range by lia. cbn [obind].
    destruct (is_target_tag _) eqn:Htag'; [|exact Hnext].
    destruct (Z.leb_spec
      (unpack_int e (slice tiff_data (ifd_offset + 2 + k * 12 + 8)
                       (ifd_offset + 2 + k * 12 + 8 + 4)) +
       unpack_int e (slice tiff_data (ifd_offset + 2 + k * 12 + 4)
                       (ifd_offset + 2 + k * 12 + 4 + 4)))
      (py_len tiff_data)); [|exact Hnext].
    destruct (date_of_value _) as [ym'|] eqn:Hd'; [|exact Hnext].
    exfalso. apply (Hnone k ym'); [lia|].
    split; [cbn zeta; lia|].
    eexists _, _, _. unfold unpack_from_H, unpack_from_I.
    rewrite !unpack_from_in_range by lia.
    repeat split; try reflexivity; try assumption.
Qed.


End DateEntries.

(** The directory is read in the order of its entries and the first entry
    that carries either recognized tag with a usable value supplies the
    date, whichever of the two tags it carries: no entry is preferred for its
    tag. *)
Theorem first_usable_date_entry_wins (tiff_data : bytes) (ifd_offset : Z)
    (e : endian) (entry_count i : Z) (ym : string * string) :
  unpack_from_H e tiff_data ifd_offset = Returns entry_count ->
  (0 <= i < entry_count)%Z ->
  usable_date_entry tiff_data ifd_offset e i ym ->
  (forall j ym', (0 <= j < i)%Z ->
     ~ usable_date_entry tiff_data ifd_offset e j ym') ->
  _search_ifd_for_date tiff_data ifd_offset e = Returns (Some ym).
Proof.
  intros Hcount Hi Hu Hnone.
  unfold unpack_from_H, unpack_from in Hcount.
  destruct (Z.leb_spec 0 ifd_offset) as [Hoff|]; [|discriminate].
  destruct (Z.leb_spec (ifd_offset + 2) (py_len tiff_data)) as [Hlen|];
    [|discriminate].
  cbn [andb] in Hcount.
  unfold _search_ifd_for_date.
  destruct (Z.ltb_spec (py_len tiff_data) (ifd_offset + 2)); [lia|].
  unfold unpack_from_H. rewrite unpack_from_in_range by lia. cbn [obind].
  injection Hcount as Hcount. rewrite Hcount.
  apply search_entries_first_usable with (i := i); try assumption; lia.
Qed.

(** The three-entry directory: the orientation entry is not usable, the
    generic date-time entry after it is, and it wins over the
    date-time-original entry that follows. *)
Lemma first_usable_date_entry_wins_witness :
  _search_ifd_for_date three_entries_tiff 8 LittleEndian
  = Returns (Some ("2019", "12")).
Proof.
  apply (first_usable_date_entry_wins three_entries_tiff 8 LittleEndian 3 1).
  - vm_compute. reflexivity.
  - lia.
  - split; [vm_compute; discriminate|].
    exists DateTime, 20%Z, 50%Z. vm_compute. repeat split; discriminate.
  - intros j ym' Hj (_ & t & c & o & Ht & Htag & _).
    assert (j = 0%Z) as -> by lia.
    vm_compute in Ht. injection Ht as <-. vm_compute in Htag. discriminate.
Defined.

(** C3. The value of the date-time-original tag is not preferred. In
    [two_dates_tiff] the second entry carries the date-time-original tag
    with the value "2023:06:15 10:30:00", within bounds and well formed, yet
    the parser returns the date of the generic date-time entry stored before
    it. *)
Lemma generic_date_time_entry_shadows_original :
  usable_date_entry two_dates_tiff 8 BigEndian 1 ("2023", "06") /\
  unpack_from_H BigEndian two_dates_tiff (8 + 2 + 1 * 12)
  = Returns DateTimeOriginal /\
  _parse_tiff_for_date two_dates_tiff = Returns (Some ("2020", "01")).
Proof.
  split; [|split; vm_compute; reflexivity].
  split; [vm_compute; discriminate|].
  exists DateTimeOriginal, 20%Z, 58%Z. vm_compute. repeat split; discriminate.
Qed.






(** The whole JPEG file of that test, through the marker scan. *)
Example exif_test_jpeg_date :
  extract_exif_date_bytes exif_test_jpeg = Returns (Some ("2023", "06")).
Proof. vm_compute. reflexivity. Qed.

(** A file without any metadata segment, and one that stops inside the
    declared length of its APP1 segment, have no date. *)
Example no_metadata_segment_no_date :
  extract_exif_date_bytes [xff; xd8; xff; xd9] = Returns None /\
  extract_exif_date_bytes (take 40 exif_test_jpeg) = Returns None.
Proof. split; vm_compute; reflexivity. Qed.

(** C2 (the failing input). On a file whose APP1 segment declares the length
    0 the extractor asks the file for [-2] bytes; the [ValueError] this
    raises is not among the exceptions the extractor catches, so it leaves
    the extractor. *)
Theorem extract_exif_date_raises_on_zero_length_app1 :
  extract_exif_date_bytes zero_length_app1_jpeg = Raises ValueError.
Proof. vm_compute. reflexivity. Qed.

(** Apart from that [ValueError], nothing leaves the extractor. *)
Lemma scan_markers_raises_only_OSError (fuel : nat) (data : bytes) (pos : nat)
    (e : exn) :
  scan_markers fuel data pos = Some (ScanRaises e) -> e = OSError.
Proof.
  revert pos. induction fuel as [|fuel IH]; intros pos; [discriminate|].
  cbn [scan_markers].
  repeat match goal with
         | |- context [if ?c then _ else _] => destruct c; try discriminate
         end.
  unfold file_seek_cur. cbv zeta.
  destruct (_ <? 0)%Z; [congruence|]. apply IH.
Qed.

Theorem extract_exif_date_raises_only_ValueError (data : bytes) (e : exn) :
  extract_exif_date_bytes data = Raises e -> e = ValueError.
Proof.
  unfold extract_exif_date_bytes, exif_try_body.
  destruct (decide _); [|discriminate].
  destruct (scan_markers _ data 2) as [[pos| |e']|] eqn:Hscan; try discriminate.
  - destruct (_ <? 2)%nat; [discriminate|].
    unfold file_read.
    destruct (_ <? -1)%Z; [cbn; congruence|].
    destruct (_ =? -1)%Z; cbn [obind].
    + destruct (decide _); [|discriminate].
      destruct (parse_tiff_never_raises (drop 6 (drop (pos + length (take 2 (drop pos data))) data)))
        as [r ->]. discriminate.
    + destruct (decide _); [|discriminate].
      match goal with
      | |- context [_parse_tiff_for_date ?d] =>
          destruct (parse_tiff_never_raises d) as [r ->]
      end. discriminate.
  - apply scan_markers_raises_only_OSError in Hscan as ->. discriminate.
Qed.

(** ** The filesystem primitives *)

Section FsFacts.

Implicit Types (fs : FS) (p q a b : path).

Lemma cons_neq_self (x : string) (d : path) : d // x <> d.
Proof. intros Heq. apply (f_equal length) in Heq. simpl in Heq. lia. Qed.

Lemma grows_by_dirs_refl fs : grows_by_dirs fs fs.
Proof. split; auto. Qed.

Lemma grows_by_dirs_trans fs1 fs2 fs3 :
  grows_by_dirs fs1 fs2 -> grows_by_dirs fs2 fs3 -> grows_by_dirs fs1 fs3.
Proof. intros [H1 H2] [H3 H4]. split; eauto. Qed.

(** Paths without a NUL character. *)
Lemma str_has_nul_app (s t : string) :
  str_has_nul (s +:+ t) = str_has_nul s || str_has_nul t.
Proof.
  induction s as [|c s IH]; [done|].
  change (String c s +:+ t) with (String c (s +:+ t)).
  cbn [str_has_nul]. by rewrite IH, orb_assoc.
Qed.

Lemma str_has_nul_substring (s : string) : forall i n,
  str_has_nul s = false -> str_has_nul (substring i n s) = false.
Proof.
  induction s as [|c s IH]; intros i n Hs; [by destruct i, n|].
  cbn [str_has_nul] in Hs. apply orb_false_elim in Hs as [Hc Hs].
  destruct i as [|i]; cbn [substring].
  - destruct n as [|n]; [done|]. cbn [str_has_nul]. by rewrite Hc, IH.
  - by apply IH.
Qed.

Lemma str_has_nul_pretty_go (x : N) : forall s,
  str_has_nul (pretty_N_go x s) = str_has_nul s.
Proof.
  induction (N.lt_wf_0 x) as [x _ IH]; intros s.
  destruct (decide (x = 0)%N) as [->|Hx]; [by rewrite pretty_N_go_0|].
  rewrite pretty_N_go_step by lia.
  rewrite IH by (apply N.div_lt; lia).
  cbn [str_has_nul]. unfold pretty_N_char. by repeat case_match.
Qed.

Lemma str_has_nul_pretty (k : nat) : str_has_nul (pretty k) = false.
Proof.
  unfold pretty, pretty_nat, pretty, pretty_N.
  case_decide; [done|]. by rewrite str_has_nul_pretty_go.
Qed.

Lemma has_nul_cons (x : string) (d : path) :
  has_nul (d // x) = str_has_nul x || has_nul d.
Proof. reflexivity. Qed.

Lemma has_nul_parent p : has_nul p = false -> has_nul (path_parent p) = false.
Proof.
  destruct p as [|x d]; [done|]. rewrite has_nul_cons.
  intros Hp. by apply orb_false_elim in Hp as [_ Hd].
Qed.

Lemma has_nul_name p : has_nul p = false -> str_has_nul (path_name p) = false.
Proof.
  destruct p as [|x d]; [done|]. rewrite has_nul_cons.
  intros Hp. by apply orb_false_elim in Hp as [Hx _].
Qed.

Lemma has_nul_stem p : has_nul p = false -> str_has_nul (path_stem p) = false.
Proof.
  intros Hp. apply has_nul_name in Hp. unfold path_stem.
  destruct (name_cut _); [|done]. by apply str_has_nul_substring.
Qed.

Lemma has_nul_suffix p :
  has_nul p = false -> str_has_nul (path_suffix p) = false.
Proof.
  intros Hp. apply has_nul_name in Hp. unfold path_suffix.
  destruct (name_cut _); [|done]. by apply str_has_nul_substring.
Qed.

(** A file keeps a path without a NUL character when it is relocated under
    its name, or a numbered variant of it, into such a directory. *)
Lemma keeps_name_has_nul a b :
  keeps_name a b -> has_nul a = false -> has_nul (path_parent b) = false ->
  has_nul b = false.
Proof.
  intros Hname Ha Hb. destruct b as [|y d]; [done|].
  cbn [path_parent path_name] in *. rewrite has_nul_cons, Hb, orb_false_r.
  destruct Hname as [Hy|[k Hy]]; cbn [path_name] in Hy; rewrite Hy;
    [by apply has_nul_name|].
  rewrite !str_has_nul_app, has_nul_stem, has_nul_suffix, str_has_nul_pretty
    by done.
  reflexivity.
Qed.

Lemma fs_mkdir_unfold p fs :
  fs_mkdir p fs =
  if has_nul p then None
  else
    match fs !! p with
    | Some Dir => Some fs
    | Some (File _) => None
    | None =>
        match p with
        | [] => None
        | _ :: parent =>
            match fs_mkdir parent fs with
            | Some fs' => Some (<[p := Dir]> fs')
            | None => None
            end
        end
    end.
Proof. destruct p; reflexivity. Qed.

(** [mkdir] succeeds only on a path without a NUL character. *)
Lemma fs_mkdir_has_nul p fs fs' : fs_mkdir p fs = Some fs' -> has_nul p = false.
Proof. rewrite fs_mkdir_unfold. by destruct (has_nul p). Qed.

Lemma fs_mkdir_existing fs p :
  has_nul p = false -> fs !! p = Some Dir -> fs_mkdir p fs = Some fs.
Proof. intros Hp H. rewrite fs_mkdir_unfold, Hp, H. reflexivity. Qed.

(** A successful [mkdir] leaves a directory at [p] and only adds
    directories. *)
Lemma fs_mkdir_grows p : forall fs fs',
  fs_mkdir p fs = Some fs' ->
  grows_by_dirs fs fs' /\ fs' !! p = Some Dir.
Proof.
  induction p as [|name parent IH]; intros fs fs'; rewrite fs_mkdir_unfold;
    (destruct (has_nul _); [discriminate|]).
  - destruct (fs !! []) as [[c|]|] eqn:E; try discriminate.
    intros [= <-]. split; [apply grows_by_dirs_refl|done].
  - destruct (fs !! (name :: parent)) as [[c|]|] eqn:E; try discriminate.
    + intros [= <-]. split; [apply grows_by_dirs_refl|done].
    + destruct (fs_mkdir parent fs) as [fs1|] eqn:E1; [|discriminate].
      intros [= <-]. destruct (IH _ _ E1) as [[Hk Hf] Hp].
      split; [split|].
      * intros q n Hq.
        rewrite lookup_insert_ne by congruence. auto.
      * intros q c. rewrite lookup_insert.
        case_decide; [discriminate|]. auto.
      * apply lookup_insert_eq.
Qed.

Lemma fs_mkdir_wf p : forall fs fs',
  wf_fs fs -> fs_mkdir p fs = Some fs' -> wf_fs fs'.
Proof.
  induction p as [|name parent IH]; intros fs fs' Hwf;
    rewrite fs_mkdir_unfold;
    (destruct (has_nul _) eqn:Hnul; [discriminate|]).
  - destruct (fs !! []) as [[c|]|]; try discriminate. by intros [= <-].
  - destruct (fs !! (name :: parent)) as [[c|]|] eqn:E; try discriminate.
    + by intros [= <-].
    + destruct (fs_mkdir parent fs) as [fs1|] eqn:E1; [|discriminate].
      intros [= <-].
      destruct (fs_mkdir_grows _ _ _ E1) as [_ Hparent].
      destruct (IH _ _ Hwf E1) as (Hroot & Hin & Hclean).
      split; [|split].
      * by rewrite lookup_insert_ne.
      * intros x d. rewrite !lookup_insert.
        case_decide as Hx.
        -- injection Hx as -> ->. intros _.
           case_decide as Hy; [by apply cons_neq_self in Hy|done].
        -- intros Hsome. case_decide; [done|]. by apply (Hin x).
      * intros q. rewrite lookup_insert.
        case_decide as Hq; [by subst q|]. apply Hclean.
Qed.

(** [mkdir] touches only [p] and the directories above it. *)
Lemma fs_mkdir_frame p : forall fs fs' q,
  fs_mkdir p fs = Some fs' -> ~ q `suffix_of` p -> fs' !! q = fs !! q.
Proof.
  induction p as [|name parent IH]; intros fs fs' q; rewrite fs_mkdir_unfold;
    (destruct (has_nul _); [discriminate|]).
  - destruct (fs !! []) as [[c|]|]; try discriminate. by intros [= <-].
  - destruct (fs !! (name :: parent)) as [[c|]|] eqn:E; try discriminate.
    + by intros [= <-].
    + destruct (fs_mkdir parent fs) as [fs1|] eqn:E1; [|discriminate].
      intros [= <-] Hq.
      rewrite lookup_insert_ne by (intros <-; by apply Hq).
      apply (IH _ _ _ E1). intros Hs. apply Hq. by apply suffix_cons_r.
Qed.


(** Relocating a regular file to a free path in an existing directory. *)
Lemma fs_shutil_move_file_to_free fs a b c :
  fs !! a = Some (File c) -> fs !! b = None ->
  fs !! path_parent b = Some Dir ->
  fs_shutil_move a b fs = Some (<[b := File c]> (delete a fs)).
Proof.
  intros Ha Hb Hp. unfold fs_shutil_move, fs_is_dir, os_rename, fs_is_dir.
  by rewrite Ha, Hb, Hp.
Qed.

(** Relocating a regular file onto a regular file replaces it. *)
Lemma fs_shutil_move_file_onto_file fs a b c c' :
  fs !! a = Some (File c) -> fs !! b = Some (File c') ->
  fs !! path_parent b = Some Dir ->
  fs_shutil_move a b fs = Some (<[b := File c]> (delete a fs)).
Proof.
  intros Ha Hb Hp. unfold fs_shutil_move, fs_is_dir, os_rename, fs_is_dir.
  by rewrite Ha, Hb, Hp.
Qed.

(** The state a relocation leaves is well-formed. *)
Lemma move_file_wf fs a b c :
  wf_fs fs -> fs !! a = Some (File c) -> fs !! b = None ->
  fs !! path_parent b = Some Dir ->
  keeps_name a b ->
  wf_fs (<[b := File c]> (delete a fs)).
Proof.
  intros (Hroot & Hin & Hclean) Ha Hb Hp Hname. split; [|split].
  - rewrite lookup_insert_ne by congruence.
    rewrite lookup_delete_ne by congruence. done.
  - intros x d.
    assert (Hd : fs !! d = Some Dir ->
                 <[b := File c]> (delete a fs) !! d = Some Dir).
    { intros Hdir. rewrite lookup_insert_ne by congruence.
      rewrite lookup_delete_ne by congruence. done. }
    rewrite lookup_insert. case_decide as Hx.
    + subst b. intros _. by apply Hd.
    + rewrite lookup_delete. case_decide; [by intros []|].
      intros Hsome. apply Hd. by apply (Hin x).
  - intros q. rewrite lookup_insert. case_decide as Hq.
    + subst q. intros _. apply (keeps_name_has_nul a); [done| |];
        apply Hclean; eauto.
    + rewrite lookup_delete. case_decide; [by intros []|]. apply Hclean.
Qed.

End FsFacts.

(** ** Traces of a batch *)

Section Traces.

Implicit Types (fs : FS) (es : list (path * path)).

Lemma batch_steps_wf fs0 fs es :
  wf_fs fs0 -> batch_steps fs0 fs es -> wf_fs fs.
Proof.
  intros Hwf Hsteps.
  induction Hsteps as [|fs es p fs' _ IH Hmk|fs es a b c _ IH Ha Hb Hp Hname].
  - done.
  - by apply (fs_mkdir_wf p fs).
  - by apply move_file_wf.
Qed.

Lemma batch_steps_app fs0 fs1 fs2 es1 es2 :
  batch_steps fs0 fs1 es1 -> batch_steps fs1 fs2 es2 ->
  batch_steps fs0 fs2 (es1 ++ es2).
Proof.
  intros H1 H2. induction H2 as [|fs es p fs' _ IH Hmk|fs es a b c _ IH Ha Hb Hp].
  - by rewrite app_nil_r.
  - by apply steps_mkdir with fs p.
  - rewrite app_assoc. by apply steps_move.
Qed.

(** Directories stay directories along a batch. *)
Lemma batch_steps_keeps_dirs fs0 fs es p :
  batch_steps fs0 fs es -> fs0 !! p = Some Dir -> fs !! p = Some Dir.
Proof.
  intros Hsteps Hp. induction Hsteps as [|fs es q fs' _ IH Hmk|fs es a b c _ IH Ha Hb Hpar].
  - done.
  - by apply (fs_mkdir_grows q fs fs' Hmk).
  - rewrite lookup_insert_ne by congruence.
    rewrite lookup_delete_ne by congruence. done.
Qed.

(** A batch that relocated nothing only added directories. *)
Lemma batch_steps_nil_grows fs0 fs :
  batch_steps fs0 fs [] -> grows_by_dirs fs0 fs.
Proof.
  intros Hsteps. remember [] as es eqn:Hes.
  induction Hsteps as [|fs es q fs' _ IH Hmk|fs es a b c _ IH Ha Hb Hpar].
  - apply grows_by_dirs_refl.
  - eapply grows_by_dirs_trans; [by apply IH|].
    by apply (fs_mkdir_grows q).
  - by destruct es.
Qed.

End Traces.

(** ** The duplicate-name probe *)

Section Probe.

Variables (fs : FS) (dest_dir : path) (stem suffix : string).

Lemma string_app_inv_tail (s1 s2 t : string) :
  s1 +:+ t = s2 +:+ t -> s1 = s2.
Proof.
  assert (Hlen : forall s u, String.length (s +:+ u)
                             = (String.length s + String.length u)%nat).
  { intros s u. induction s as [|c s IH]; simpl; [done|]. by rewrite IH. }
  revert s2. induction s1 as [|c s1 IH]; intros [|c2 s2] Heq.
  - done.
  - apply (f_equal String.length) in Heq.
    rewrite (Hlen "" t), (Hlen (String c2 s2) t) in Heq. simpl in Heq. lia.
  - apply (f_equal String.length) in Heq.
    rewrite (Hlen "" t), (Hlen (String c s1) t) in Heq. simpl in Heq. lia.
  - change (String c (s1 +:+ t) = String c2 (s2 +:+ t)) in Heq.
    injection Heq as -> Heq. f_equal. by apply IH.
Qed.

Lemma suffixed_inj (j k : nat) :
  suffixed dest_dir stem suffix j = suffixed dest_dir stem suffix k -> j = k.
Proof.
  unfold suffixed. intros [= Heq].
  apply String.app_inj in Heq. apply (String.app_inj "_") in Heq.
  apply string_app_inv_tail in Heq. by apply (inj pretty) in Heq.
Qed.

(** What the loop returns: the path it was given when that is free (or the
    fuel is out), else a probed name all of whose predecessors exist, and
    which is free unless the fuel ran out on it. *)
Lemma probe_result (fuel : nat) : forall (dest : path) (counter : nat),
  let r := probe fuel fs dest_dir stem suffix dest counter in
  (r = dest /\ (fuel = 0%nat \/ fs_exists fs dest = false)) \/
  (exists k, (counter <= k < counter + fuel)%nat /\
             r = suffixed dest_dir stem suffix k /\
             fs_exists fs dest = true /\
             (forall j, (counter <= j < k)%nat ->
                fs_exists fs (suffixed dest_dir stem suffix j) = true) /\
             (fs_exists fs r = false \/ (k + 1 = counter + fuel)%nat)).
Proof.
  induction fuel as [|fuel IH]; intros dest counter; cbn zeta.
  - left. split; [done|by left].
  - cbn [probe]. destruct (fs_exists fs dest) eqn:Hex.
    + right. fold (suffixed dest_dir stem suffix counter).
      destruct (IH (suffixed dest_dir stem suffix counter) (S counter))
        as [[Hr Hc]|(k & Hk & Hr & Hex' & Hall & Hlast)].
      * exists counter. rewrite Hr.
        split; [lia|]. split; [done|]. split; [done|].
        split; [intros; lia|].
        destruct Hc as [->|Hc]; [right; lia|by left].
      * exists k. split; [lia|]. split; [done|]. split; [done|].
        split.
        -- intros j Hj. destruct (decide (j = counter)) as [->|]; [done|].
           apply Hall. lia.
        -- destruct Hlast; [by left|right; lia].
    + left. split; [done|by right].
Qed.

(** A filesystem cannot hold more probed names than it has entries. *)
Lemma probed_names_run_out (n : nat) :
  (forall j, (1 <= j < n + 1)%nat ->
     fs_exists fs (suffixed dest_dir stem suffix j) = true) ->
  (n <= size fs)%nat.
Proof.
  intros Hall.
  set (l := suffixed dest_dir stem suffix <$> seq 1 n).
  assert (Hnd : NoDup l).
  { apply NoDup_fmap_2_strong; [|apply NoDup_seq].
    intros j k _ _. apply suffixed_inj. }
  assert (Hsub : (list_to_set l : gset path) ⊆ dom fs).
  { intros q Hq. apply elem_of_list_to_set in Hq.
    apply list_elem_of_fmap in Hq as (j & -> & Hj).
    apply elem_of_seq in Hj. apply elem_of_dom.
    specialize (Hall j ltac:(lia)). unfold fs_exists in Hall.
    destruct (fs !! _); [eauto|discriminate]. }
  apply subseteq_size in Hsub.
  rewrite size_list_to_set in Hsub by done.
  rewrite size_dom in Hsub. unfold l in Hsub.
  by rewrite length_fmap, length_seq in Hsub.
Qed.

(** The loop of the package terminates with a free path. *)
Lemma first_free_fresh (dest : path) :
  fs_exists fs (first_free fs dest_dir stem suffix dest) = false.
Proof.
  unfold first_free.
  destruct (probe_result (size fs + 2) dest 1)
    as [[-> [Hz|Hfree]]|(k & Hk & Hr & Hex & Hall & [Hfree|Hout])];
    [lia|done|done|].
  assert (size fs + 1 <= size fs)%nat; [|lia].
  apply probed_names_run_out. intros j Hj. apply Hall. lia.
Qed.

(** It returns the first free path in the order of the probes. *)
Lemma first_free_first (dest : path) :
  let r := first_free fs dest_dir stem suffix dest in
  (fs_exists fs dest = false /\ r = dest) \/
  (fs_exists fs dest = true /\
   exists k, (1 <= k)%nat /\ r = suffixed dest_dir stem suffix k /\
     forall j, (1 <= j < k)%nat ->
       fs_exists fs (suffixed dest_dir stem suffix j) = true).
Proof.
  cbn zeta. unfold first_free.
  destruct (probe_result (size fs + 2) dest 1)
    as [[-> [Hz|Hfree]]|(k & Hk & Hr & Hex & Hall & _)]; [lia|by left|].
  right. split; [done|]. exists k. split; [lia|]. split; [done|].
  intros j Hj. apply Hall. lia.
Qed.

End Probe.

(** ** Reasoning about statements *)

Section MonadFacts.

Lemma bind_returns {A B} (c : M A) (k : A -> M B) (w w' : World) (b : B) :
  bind c k w = (Returns b, w') ->
  exists a w1, c w = (Returns a, w1) /\ k a w1 = (Returns b, w').
Proof.
  unfold bind. destruct (c w) as [[a|e] w1]; [eauto|discriminate].
Qed.

Lemma ret_returns {A} (a b : A) (w w' : World) :
  ret a w = (Returns b, w') -> b = a /\ w' = w.
Proof. by intros [= <- <-]. Qed.

Lemma fs_get_returns {A} (f : FS -> A) (w w' : World) (a : A) :
  fs_get f w = (Returns a, w') -> a = f (files w) /\ w' = w.
Proof. by intros [= <- <-]. Qed.

Lemma fs_update_returns (f : FS -> option FS) (w w' : World) (u : unit) :
  fs_update f w = (Returns u, w') ->
  exists fs', f (files w) = Some fs' /\ w' = set_files fs' w.
Proof.
  unfold fs_update. destruct (f (files w)); [|discriminate].
  intros [= _ <-]. eauto.
Qed.

Lemma path_mkdir_returns (p : path) (w w' : World) (u : unit) :
  path_mkdir p w = (Returns u, w') ->
  exists fs', fs_mkdir p (files w) = Some fs' /\ w' = set_files fs' w.
Proof.
  unfold path_mkdir. destruct (has_nul p); [done|]. apply fs_update_returns.
Qed.

Lemma path_mkdir_made (p : path) (w : World) (fs' : FS) :
  fs_mkdir p (files w) = Some fs' ->
  path_mkdir p w = (Returns tt, set_files fs' w).
Proof.
  intros Hmk. unfold path_mkdir, fs_update.
  by rewrite (fs_mkdir_has_nul _ _ _ Hmk), Hmk.
Qed.

(** A loop that returns has kept its invariant; the invariant may speak of
    the items still to come. *)
Lemma for_each_returns {A S} (body : S -> A -> M S)
    (I : list A -> S -> World -> Prop) :
  (forall x rest s w s' w',
     I (x :: rest) s w -> body s x w = (Returns s', w') -> I rest s' w') ->
  forall l s w s' w',
    I l s w -> for_each body l s w = (Returns s', w') -> I [] s' w'.
Proof.
  intros Hstep l. induction l as [|x l IH]; intros s w s' w' HI Hrun.
  - apply ret_returns in Hrun as [-> ->]. done.
  - cbn [for_each] in Hrun.
    apply bind_returns in Hrun as (s1 & w1 & Hx & Hrest).
    eapply IH; [|exact Hrest]. eapply Hstep; eauto.
Qed.

End MonadFacts.

(** ** One relocation *)

Section Relocation.

Lemma final_dest_free (fs : FS) (dest_dir : path) (name : string) (f : path) :
  fs !! final_dest fs dest_dir name f = None /\
  path_parent (final_dest fs dest_dir name f) = dest_dir.
Proof.
  unfold final_dest. destruct (fs_exists fs (dest_dir // name)) eqn:Hex.
  - split.
    + pose proof (first_free_fresh fs dest_dir (path_stem f) (path_suffix f)
                    (dest_dir // name)) as Hfree.
      unfold fs_exists in Hfree. by destruct (fs !! _).
    + destruct (first_free_first fs dest_dir (path_stem f) (path_suffix f)
                  (dest_dir // name)) as [[_ ->]|[_ (k & _ & -> & _)]]; done.
  - split; [|done]. unfold fs_exists in Hex. by destruct (fs !! _).
Qed.

Lemma final_dest_keeps_name (fs : FS) (dest_dir f : path) :
  keeps_name f (final_dest fs dest_dir (path_name f) f).
Proof.
  unfold final_dest, keeps_name. destruct (fs_exists _ _); [|by left].
  destruct (first_free_first fs dest_dir (path_stem f) (path_suffix f)
              (dest_dir // path_name f)) as [[_ ->]|[_ (k & _ & -> & _)]];
    [by left|right; by exists k].
Qed.

(** On a regular file and an existing destination directory the relocation
    always succeeds, and this is what it does. *)
Lemma resolve_and_move_eq (dest_dir : path) (name : string) (f : path)
    (st : Stats) (w : World) (c : content) :
  files w !! f = Some (File c) ->
  files w !! dest_dir = Some Dir ->
  resolve_and_move dest_dir (dest_dir // name) f st w
  = (Returns {| moved := S (moved st);
                would_move := would_move st;
                duplicates := (if fs_exists (files w) (dest_dir // name)
                               then S (duplicates st) else duplicates st);
                entries := entries st
                           ++ [(f, final_dest (files w) dest_dir name f)] |},
     set_files (<[final_dest (files w) dest_dir name f := File c]>
                  (delete f (files w))) w).
Proof.
  intros Hf Hdir.
  destruct (final_dest_free (files w) dest_dir name f) as [Hfree Hparent].
  unfold resolve_and_move, bind, path_exists, fs_get, shutil_move, fs_update,
    ret, final_dest in *.
  destruct (fs_exists (files w) (dest_dir // name)) eqn:Hex;
    rewrite (fs_shutil_move_file_to_free _ _ _ c) by (rewrite ?Hparent; done);
    reflexivity.
Qed.

End Relocation.

(** ** Statements that do not act *)

Section Quiet.

Lemma quiet_ret {A} (a : A) (Q : A -> Prop) : Q a -> quiet (ret a) Q.
Proof. intros Ha w. split; [done|]. by intros b [= <-]. Qed.

Lemma quiet_bind {A B} (c : M A) (k : A -> M B) (Q : A -> Prop)
    (R : B -> Prop) :
  quiet c Q -> (forall a, Q a -> quiet (k a) R) -> quiet (bind c k) R.
Proof.
  intros Hc Hk w. destruct (Hc w) as [Hw HQ]. unfold bind.
  destruct (c w) as [[a|e] w1]; simpl in *; subst w1.
  - apply Hk. by apply HQ.
  - split; [done|]. discriminate.
Qed.

Lemma quiet_fs_get {A} (f : FS -> A) : quiet (fs_get f) (fun _ => True).
Proof. intros w. by split. Qed.

Lemma quiet_weaken {A} (c : M A) (Q R : A -> Prop) :
  quiet c Q -> (forall a, Q a -> R a) -> quiet c R.
Proof. intros Hc HQR w. destruct (Hc w) as [? HQ]. split; [done|]. eauto. Qed.

Lemma quiet_for_each {A S} (body : S -> A -> M S) (J : S -> Prop)
    (l : list A) :
  (forall s x, J s -> quiet (body s x) J) ->
  forall s, J s -> quiet (for_each body l s) J.
Proof.
  intros Hbody. induction l as [|x l IH]; intros s Hs; cbn [for_each].
  - by apply quiet_ret.
  - apply quiet_bind with J; [by apply Hbody|]. exact IH.
Qed.

(** Reading the date of a photo does not act, even when it raises. *)
Lemma quiet_extract_exif_date (photo : path) :
  quiet (_extract_exif_date photo) (fun _ => True).
Proof.
  intros w. unfold _extract_exif_date, open_rb.
  destruct (files w !! photo) as [[c|]|]; split; done.
Qed.

Lemma quiet_get_subfolder (k : organizer_kind) (f : path) :
  quiet (get_subfolder k f) (fun _ => True).
Proof.
  destruct k; cbn [get_subfolder]; try by apply quiet_ret.
  unfold _get_date_subfolder.
  apply quiet_bind with (fun _ => True); [apply quiet_extract_exif_date|].
  intros [[y m]|] _; by apply quiet_ret.
Qed.

End Quiet.

Section DryRun.

Context `{DirEnum}.

Lemma nothing_moved_count (st : Stats) :
  nothing_moved st -> nothing_moved (count_would_move st).
Proof. by intros [? ?]. Qed.

Lemma quiet_organizer_organize (k : organizer_kind) (cfg : Config)
    (source_dir target : path) :
  quiet (organizer_organize k cfg source_dir target true) nothing_moved.
Proof.
  unfold organizer_organize.
  apply quiet_bind with (fun _ => True); [apply quiet_fs_get|].
  intros found _. apply quiet_for_each; [|by split].
  intros st f Hst. unfold organizer_step.
  apply quiet_bind with (fun _ => True); [apply quiet_get_subfolder|].
  intros sub _. by apply quiet_ret, nothing_moved_count.
Qed.

Lemma quiet_organize_generic (source_dir target : path) (exts : list string) :
  quiet (_organize_generic source_dir target exts true) nothing_moved.
Proof.
  unfold _organize_generic.
  apply quiet_bind with (fun _ => True); [apply quiet_fs_get|].
  intros [] _; cbn [negb]; [|by apply quiet_ret].
  apply quiet_bind with (fun _ => True); [by apply quiet_ret|]. intros _ _.
  apply quiet_bind with (fun _ => True); [apply quiet_fs_get|].
  intros listing _. apply quiet_for_each; [|by split].
  intros st f Hst. unfold generic_step.
  apply quiet_bind with (fun _ => True); [apply quiet_fs_get|].
  intros [] _; cbn [negb]; [|by apply quiet_ret].
  destruct (negb _); [by apply quiet_ret|].
  by apply quiet_ret, nothing_moved_count.
Qed.

Lemma quiet_record_results (cat_name : string) (results : Stats) (b : Batch) :
  nothing_moved results -> empty_batch b ->
  quiet (record_results cat_name results b) empty_batch.
Proof.
  intros [Hm He] (Hb1 & Hb2 & Hb3). unfold record_results.
  rewrite He. cbn [for_each].
  apply quiet_bind with (fun m => m = []); [by apply quiet_ret|].
  intros m ->. apply quiet_ret. split; [|split]; cbn.
  - lia.
  - done.
  - unfold all_entries in *. rewrite flat_map_app, Hb3. cbn. by rewrite He.
Qed.

Lemma quiet_organize (cfg : Config) (base_target source_dir : path)
    (selected : option (list string)) :
  quiet (organize cfg base_target source_dir true selected)
        (fun r => report_total_moved r = 0%nat /\
                  all_entries (report_categories r) = []).
Proof.
  unfold organize.
  apply quiet_bind with empty_batch.
  { apply quiet_for_each; [|by repeat split].
    intros b [cat_name organizer] Hb. unfold dedicated_step.
    destruct (filtered_out _ _); [by apply quiet_ret|].
    apply quiet_bind with nothing_moved; [apply quiet_organizer_organize|].
    intros results Hres. by apply quiet_record_results. }
  intros b1 Hb1.
  apply quiet_bind with empty_batch.
  { apply quiet_for_each; [|done].
    intros b [cat_name cat_data] Hb. unfold generic_category_step.
    destruct (bool_decide _); [by apply quiet_ret|].
    destruct (filtered_out _ _); [by apply quiet_ret|].
    apply quiet_bind with nothing_moved; [apply quiet_organize_generic|].
    intros results Hres. by apply quiet_record_results. }
  intros b2 (Hb2 & _ & Hb3). cbn [negb andb].
  apply quiet_bind with (fun _ => True); [by apply quiet_ret|].
  intros _ _. by apply quiet_ret.
Qed.

End DryRun.

(** C6. Simulate mode performs no filesystem mutation and records no
    relocation: whatever the configuration, the directories and the selected
    categories, a dry run leaves the world exactly as it found it (also when
    it raises), so a second dry run gives the same outcome with the same
    counts; and the report of a dry run shows no file moved and no ledger
    entry. *)
Theorem simulate_leaves_filesystem_unchanged `{DirEnum} (cfg : Config)
    (base_target source_dir : path) (selected : option (list string))
    (w : World) :
  let run := organize cfg base_target source_dir true selected in
  (run w).2 = w /\
  run (run w).2 = run w /\
  forall r, (run w).1 = Returns r ->
    report_total_moved r = 0%nat /\ all_entries (report_categories r) = [].
Proof.
  cbn zeta.
  destruct (quiet_organize cfg base_target source_dir selected w) as [Hw Hr].
  split; [exact Hw|]. split; [by rewrite Hw|exact Hr].
Qed.

(** ** Execute mode as a trace *)

Section Execute.

Context `{DirEnum}.

Lemma list_filter_NoDup {A} (f : A -> bool) (l : list A) :
  NoDup l -> NoDup (List.filter f l).
Proof.
  induction 1 as [|x l Hx Hl IH]; cbn; [constructor|].
  destruct (f x); [|done]. constructor; [|done].
  intros Hin. apply Hx. apply list_elem_of_In in Hin.
  apply List.filter_In in Hin. apply list_elem_of_In. tauto.
Qed.

Lemma list_filter_elem {A} (f : A -> bool) (l : list A) (x : A) :
  x ∈ List.filter f l -> f x = true.
Proof.
  intros Hin. apply list_elem_of_In in Hin.
  apply List.filter_In in Hin. tauto.
Qed.

Lemma statement_kept_world {A} (c : M A) (Q : A -> Prop) (w w' : World)
    (o : outcome A) :
  quiet c Q -> c w = (o, w') -> w' = w.
Proof. intros Hq Hrun. destruct (Hq w) as [Hw _]. by rewrite Hrun in Hw. Qed.

Lemma traced_move (w0 : World) (st : Stats) (w : World) (dest_dir : path)
    (name : string) (f : path) (c : content) (st' : Stats) (w' : World) :
  name = path_name f ->
  traced w0 st w ->
  files w !! f = Some (File c) ->
  files w !! dest_dir = Some Dir ->
  resolve_and_move dest_dir (dest_dir // name) f st w = (Returns st', w') ->
  traced w0 st' w' /\
  files w' = <[final_dest (files w) dest_dir name f := File c]>
               (delete f (files w)) /\
  files w !! final_dest (files w) dest_dir name f = None.
Proof.
  intros -> (Hsteps & Hmoved & Hclock) Hf Hdir Hrun.
  rewrite (resolve_and_move_eq _ _ _ _ _ c) in Hrun by done.
  injection Hrun as <- <-.
  destruct (final_dest_free (files w) dest_dir (path_name f) f)
    as [Hfree Hparent].
  split; [|by split]. split; [|split]; cbn.
  - apply steps_move; [done..|by rewrite Hparent|].
    apply final_dest_keeps_name.
  - rewrite length_app. cbn. lia.
  - done.
Qed.

Lemma organizer_organize_traced (k : organizer_kind) (cfg : Config)
    (source_dir target : path) (w w' : World) (st : Stats) :
  organizer_organize k cfg source_dir target false w = (Returns st, w') ->
  traced w st w'.
Proof.
  unfold organizer_organize, scan. intros Hrun.
  apply bind_returns in Hrun as (found & w1 & Hscan & Hloop).
  apply fs_get_returns in Hscan as [Hfound ->].
  set (I := fun (rest : list path) (s : Stats) (v : World) =>
              traced w s v /\ NoDup rest /\
              forall f, f ∈ rest -> fs_is_file (files v) f = true).
  assert (HI : I [] st w'); [|apply HI].
  eapply (for_each_returns _ I); [| |exact Hloop].
  - clear. intros x rest s v s' v' (Htr & Hnd & Hfiles) Hstep.
    unfold organizer_step in Hstep.
    apply bind_returns in Hstep as (sub & v1 & Hsub & Hstep).
    apply (statement_kept_world _ _ _ _ _ (quiet_get_subfolder k x)) in Hsub
      as ->.
    apply bind_returns in Hstep as ([] & v2 & Hmk & Hstep).
    apply path_mkdir_returns in Hmk as (fs2 & Hmk & ->).
    destruct (fs_mkdir_grows _ _ _ Hmk) as [[Hkeep _] Hdir].
    assert (Hx : exists c, files v !! x = Some (File c)).
    { specialize (Hfiles x ltac:(left)). unfold fs_is_file in Hfiles.
      destruct (files v !! x) as [[c|]|]; try discriminate. eauto. }
    destruct Hx as [c Hx].
    assert (Htr2 : traced w s (set_files fs2 v)).
    { destruct Htr as (Hs & Hm & Hc). split; [|by split].
      by apply steps_mkdir with (files v) (joinpath target sub). }
    destruct (traced_move _ _ _ _ _ _ c _ _ eq_refl Htr2 (Hkeep _ _ Hx) Hdir Hstep)
      as (Htr' & Hfs' & Hfree).
    apply NoDup_cons in Hnd as [Hnotin Hnd].
    split; [done|]. split; [done|].
    intros g Hg. rewrite Hfs'. unfold fs_is_file.
    specialize (Hfiles g ltac:(by right)). unfold fs_is_file in Hfiles.
    destruct (files v !! g) as [[cg|]|] eqn:Eg; try discriminate.
    apply Hkeep in Eg. cbn [files set_files] in *.
    rewrite lookup_insert_ne by congruence.
    rewrite lookup_delete_ne by (intros ->; done).
    by rewrite Eg.
  - split; [|split].
    + split; [apply steps_start|]. by split.
    + rewrite Hfound. destruct (fs_is_dir _ _); [|constructor].
      apply list_filter_NoDup, iterdir_NoDup.
    + intros f Hf. rewrite Hfound in Hf.
      destruct (fs_is_dir _ _); [|by apply elem_of_nil in Hf].
      apply list_filter_elem in Hf. by apply andb_prop in Hf as [? _].
Qed.

Lemma organize_generic_traced (source_dir target : path) (exts : list string)
    (w w' : World) (st : Stats) :
  _organize_generic source_dir target exts false w = (Returns st, w') ->
  traced w st w' /\
  (fs_is_dir (files w) source_dir = true -> files w' !! target = Some Dir).
Proof.
  unfold _organize_generic. intros Hrun.
  apply bind_returns in Hrun as (isd & w1 & Hisd & Hrun).
  apply fs_get_returns in Hisd as [-> ->].
  destruct (fs_is_dir (files w) source_dir) eqn:Hsrc; cbn [negb] in Hrun.
  2:{ apply ret_returns in Hrun as [-> ->].
      split; [|done]. split; [apply steps_start|by split]. }
  apply bind_returns in Hrun as ([] & w1 & Hmk & Hrun).
  apply path_mkdir_returns in Hmk as (fs1 & Hmk & ->).
  destruct (fs_mkdir_grows _ _ _ Hmk) as [_ Hdir].
  apply bind_returns in Hrun as (listing & w2 & Hls & Hloop).
  apply fs_get_returns in Hls as [_ ->].
  set (I := fun (rest : list path) (s : Stats) (v : World) =>
              traced w s v /\ files v !! target = Some Dir).
  assert (HI : I [] st w'); [|destruct HI; by split].
  eapply (for_each_returns _ I); [| |exact Hloop].
  - clear. intros x rest s v s' v' (Htr & Hdir) Hstep.
    unfold generic_step in Hstep.
    apply bind_returns in Hstep as (isf & v1 & Hisf & Hstep).
    apply fs_get_returns in Hisf as [-> ->].
    unfold fs_is_file in Hstep.
    destruct (files v !! x) as [[c|]|] eqn:Hx; cbn [negb] in Hstep;
      try (apply ret_returns in Hstep as [-> ->]; by split).
    destruct (negb _);
      [apply ret_returns in Hstep as [-> ->]; by split|].
    destruct (traced_move _ _ _ _ _ _ c _ _ eq_refl Htr Hx Hdir Hstep)
      as (Htr' & Hfs' & Hfree).
    split; [done|]. rewrite Hfs'.
    rewrite lookup_insert_ne by congruence.
    rewrite lookup_delete_ne by congruence. done.
  - split; [|done]. split; [|by split].
    by apply steps_mkdir with (files w) target; [apply steps_start|].
Qed.

End Execute.

Section Batches.

Context `{DirEnum}.

Lemma entry_paths_app (m1 m2 : BackupManifest) :
  entry_paths (m1 ++ m2) = entry_paths m1 ++ entry_paths m2.
Proof. apply map_app. Qed.

Lemma entry_paths_length (m : BackupManifest) :
  length (entry_paths m) = length m.
Proof. apply length_map. Qed.

Lemma all_entries_snoc (rs : list (string * Stats)) (name : string)
    (st : Stats) :
  all_entries (rs ++ [(name, st)]) = all_entries rs ++ entries st.
Proof. unfold all_entries. rewrite flat_map_app. cbn. by rewrite app_nil_r. Qed.

(** Recording the results of a category adds one ledger entry per
    relocation, in order, and does not touch the filesystem. *)
Lemma record_results_returns (cat_name : string) (results : Stats)
    (b b' : Batch) (w w' : World) :
  record_results cat_name results b w = (Returns b', w') ->
  files w' = files w /\
  entry_paths (manifest b') = entry_paths (manifest b) ++ entries results /\
  total_moved b' = (total_moved b + moved results)%nat /\
  total_would_move b' = (total_would_move b + would_move results)%nat /\
  category_results b' = category_results b ++ [(cat_name, results)].
Proof.
  unfold record_results. intros Hrun.
  apply bind_returns in Hrun as (m & w1 & Hloop & Hret).
  apply ret_returns in Hret as [-> ->]. cbn.
  set (I := fun (rest : list (path * path)) (m' : BackupManifest) (v : World) =>
              files v = files w /\
              entry_paths m' ++ rest
              = entry_paths (manifest b) ++ entries results).
  assert (HI : I [] m w1).
  { eapply (for_each_returns _ I); [| |exact Hloop]; [|by split].
    clear. intros [a d] rest m' v m'' v' [Hfs Hm] Hstep.
    apply bind_returns in Hstep as (e & v1 & He & Hret).
    apply ret_returns in Hret as [-> ->].
    unfold create_backup_entry, bind, datetime_now, ret in He.
    injection He as <- <-. split; [done|].
    rewrite entry_paths_app. cbn. by rewrite <- app_assoc. }
  destruct HI as [Hfs Hm]. rewrite app_nil_r in Hm. by repeat split.
Qed.

Lemma batch_traced_record (w0 w1 w2 w3 : World) (b b' : Batch)
    (cat_name : string) (st : Stats) :
  batch_traced w0 b w1 ->
  traced w1 st w2 ->
  record_results cat_name st b w2 = (Returns b', w3) ->
  batch_traced w0 b' w3.
Proof.
  intros (Hsteps & Htotal & Hall) (Hst & Hmoved & _) Hrec.
  apply record_results_returns in Hrec as (Hfs & Hm & Htm & _ & Hcr).
  split; [|split].
  - rewrite Hfs, Hm. by apply batch_steps_app with (files w1).
  - rewrite Htm, Htotal, Hmoved. rewrite <- (entry_paths_length (manifest b')).
    rewrite Hm, length_app, entry_paths_length. done.
  - by rewrite Hm, Hcr, all_entries_snoc, Hall.
Qed.

(** The two loops of [FileOrganizer.organize] in execute mode. *)
Lemma dedicated_loop_traced (cfg : Config) (base_target source_dir : path)
    (selected : option (list string)) (w0 : World)
    (items : list (string * organizer_kind)) (b b' : Batch) (w w' : World) :
  batch_traced w0 b w ->
  for_each (dedicated_step cfg base_target source_dir false selected)
           items b w = (Returns b', w') ->
  batch_traced w0 b' w'.
Proof.
  intros Hb Hrun.
  eapply (for_each_returns _ (fun _ => batch_traced w0));
    [|exact Hb|exact Hrun].
  clear. intros [cat_name organizer] _ b w b' w' Hb Hstep.
  unfold dedicated_step in Hstep.
  destruct (filtered_out _ _);
    [by apply ret_returns in Hstep as [-> ->]|].
  apply bind_returns in Hstep as (st & w1 & Horg & Hrec).
  apply organizer_organize_traced in Horg.
  by apply (batch_traced_record w0 w w1 w' b b' cat_name st).
Qed.

Lemma generic_loop_traced (cfg : Config) (base_target source_dir : path)
    (selected : option (list string)) (w0 : World)
    (items : list (string * CategoryData)) (b b' : Batch) (w w' : World) :
  batch_traced w0 b w ->
  for_each (generic_category_step cfg base_target source_dir false selected)
           items b w = (Returns b', w') ->
  batch_traced w0 b' w'.
Proof.
  intros Hb Hrun.
  eapply (for_each_returns _ (fun _ => batch_traced w0));
    [|exact Hb|exact Hrun].
  clear. intros [cat_name cat_data] _ b w b' w' Hb Hstep.
  unfold generic_category_step in Hstep.
  destruct (bool_decide _);
    [by apply ret_returns in Hstep as [-> ->]|].
  destruct (filtered_out _ _);
    [by apply ret_returns in Hstep as [-> ->]|].
  apply bind_returns in Hstep as (st & w1 & Horg & Hrec).
  apply organize_generic_traced in Horg as [Horg _].
  by apply (batch_traced_record w0 w w1 w' b b' cat_name st).
Qed.

(** An execute-mode batch that returns: the relocations it reports form a
    trace from the filesystem it started on, and the ledger file is written,
    after them, exactly when something was relocated. *)
Lemma organize_executed (cfg : Config) (base_target source_dir : path)
    (selected : option (list string)) (w w' : World) (r : Report) :
  organize cfg base_target source_dir false selected w = (Returns r, w') ->
  exists (m : BackupManifest) (fs2 : FS),
    batch_steps (files w) fs2 (entry_paths m) /\
    entry_paths m = all_entries (report_categories r) /\
    length m = report_total_moved r /\
    ((report_total_moved r = 0%nat /\ files w' = fs2) \/
     ((0 < report_total_moved r)%nat /\
      fs2 !! manifest_path base_target <> Some Dir /\
      files w' = <[manifest_path base_target := File (ManifestJson m)]> fs2)).
Proof.
  unfold organize. intros Hrun.
  apply bind_returns in Hrun as (b1 & w1 & Hded & Hrun).
  apply bind_returns in Hrun as (b2 & w2 & Hgen & Hrun).
  apply bind_returns in Hrun as ([] & w3 & Hsave & Hret).
  apply ret_returns in Hret as [-> ->]. cbn [report_total_moved report_categories].
  assert (Hb0 : batch_traced w new_batch w).
  { split; [apply steps_start|]. by split. }
  pose proof (dedicated_loop_traced _ _ _ _ _ _ _ _ _ _ Hb0 Hded) as Hb1.
  pose proof (generic_loop_traced _ _ _ _ _ _ _ _ _ _ Hb1 Hgen)
    as (Hsteps & Htotal & Hall).
  exists (manifest b2). cbn [negb andb] in Hsave.
  destruct (Nat.ltb_spec 0 (total_moved b2)) as [Hpos|Hzero].
  - apply bind_returns in Hsave as ([] & wa & Hmk1 & Hsave).
    apply path_mkdir_returns in Hmk1 as (fsa & Hmk1 & ->).
    unfold save_manifest in Hsave.
    apply bind_returns in Hsave as ([] & wb & Hmk2 & Hwrite).
    apply path_mkdir_returns in Hmk2 as (fsb & Hmk2 & ->).
    destruct (has_nul (manifest_path base_target)); [done|].
    apply fs_update_returns in Hwrite as (fsc & Hwrite & ->).
    cbn [files set_files] in *.
    exists fsb. split; [|split; [done|split; [done|right]]].
    + apply steps_mkdir with fsa (path_parent (manifest_path base_target));
        [|done].
      by apply steps_mkdir with (files w2) base_target.
    + split; [done|].
      destruct (fsb !! manifest_path base_target) as [[c|]|] eqn:E;
        try discriminate;
        (destruct (fs_is_dir fsb _); [|discriminate]);
        injection Hwrite as <-; by split.
  - apply ret_returns in Hsave as [_ ->].
    exists (files w2). split; [done|]. split; [done|]. split; [done|].
    left. split; [lia|done].
Qed.

End Batches.

(** ** Undo *)

Section Undo.

Implicit Types (e : BackupEntry) (m : BackupManifest) (acc : UndoCounts).

(** The loop body, case by case. A missing destination is a failure, and
    nothing is touched. *)
Lemma undo_entry_missing acc e w :
  fs_exists (files w) (destination e) = false ->
  undo_entry acc e w = (Returns (one_failed acc), w).
Proof.
  intros Hex. unfold undo_entry, bind, path_exists, fs_get. by rewrite Hex.
Qed.



(** The destination is a regular file and, once the parent directory of the
    source is there, the source path is no directory: the file goes back. *)
Lemma undo_entry_restores acc e w c fs1 :
  files w !! destination e = Some (File c) ->
  has_nul (source e) = false ->
  has_nul (destination e) = false ->
  fs_mkdir (path_parent (source e)) (files w) = Some fs1 ->
  fs1 !! source e <> Some Dir ->
  undo_entry acc e w
  = (Returns (one_restored acc),
     set_files (<[source e := File c]> (delete (destination e) fs1)) w).
Proof.
  intros Hdst Hnsrc Hndst Hmk Hsrc.
  destruct (fs_mkdir_grows _ _ _ Hmk) as [[Hkeep _] Hparent].
  unfold undo_entry, bind, path_exists, fs_get, try_except_OSError, fs_exists.
  rewrite Hdst. cbn [negb]. rewrite (path_mkdir_made _ _ _ Hmk).
  unfold ledger_move, shutil_move, fs_update, ret.
  rewrite Hnsrc, Hndst. cbn [orb files set_files].
  destruct (fs1 !! source e) as [[c'|]|] eqn:Es; [|done|].
  - rewrite (fs_shutil_move_file_onto_file _ _ _ c c') by auto. done.
  - rewrite (fs_shutil_move_file_to_free _ _ _ c) by auto. done.
Qed.










Lemma entry_paths_snoc_inv m (es : list (path * path)) (a b : path) :
  entry_paths m = es ++ [(a, b)] ->
  exists m' e, m = m' ++ [e] /\ entry_paths m' = es /\
               source e = a /\ destination e = b.
Proof.
  destruct m as [|e0 m0] using rev_ind.
  - intros Heq. by destruct es.
  - unfold entry_paths. rewrite map_app. cbn. intros Heq.
    apply app_inj_tail in Heq as [Hes [= Ha Hb]]. eauto 10.
Qed.

(** Undoing a trace. The filesystem [files w] is the one the batch left,
    up to directories added since and to what the path [mp] holds. *)
Lemma undo_trace (mp : path) (fs0 : FS) (Hwf : wf_fs fs0) :
  forall fs es, batch_steps fs0 fs es ->
  forall m acc w,
    entry_paths m = es ->
    grows_by_dirs_off mp fs (files w) ->
    (forall e, e ∈ m -> files w !! source e <> Some Dir /\ destination e <> mp) ->
    exists w',
      for_each undo_entry (rev m) acc w
      = (Returns {| restored := restored acc + length m;
                    failed := failed acc |}, w') /\
      grows_by_dirs_off mp fs0 (files w') /\
      (forall p, files w' !! p = Some Dir <-> files w !! p = Some Dir).
Proof.
  intros fs es Hsteps.
  induction Hsteps
    as [|fs es p fs' Hsteps IH Hmk|fs es a b c Hsteps IH Ha Hb Hp Hname];
    intros m acc w Hm Hoff Hsafe.
  - destruct m; [|discriminate]. exists w. cbn.
    rewrite Nat.add_0_r. by destruct acc.
  - apply (IH m acc w Hm); [|done].
    destruct (fs_mkdir_grows _ _ _ Hmk) as [[Hk Hf] _].
    destruct Hoff as [Ho1 Ho2].
    split; [intros q n Hq Hn; by apply Ho1, Hk|].
    intros q cq Hq Hfile. by apply Hf, Ho2.
  - apply entry_paths_snoc_inv in Hm as (m' & e & -> & Hm' & Hsrc & Hdst).
    destruct (Hsafe e) as [Hnodir Hnomp];
      [apply elem_of_app; right; by left|].
    rewrite Hsrc in Hnodir. rewrite Hdst in Hnomp.
    pose proof (batch_steps_wf _ _ _ Hwf Hsteps) as (Hroot & Hin & Hclean).
    assert (Hna : has_nul a = false) by (apply Hclean; eauto).
    assert (Hnb : has_nul b = false).
    { apply (keeps_name_has_nul a); [done..|]. apply Hclean; eauto. }
    destruct Hoff as [Ho1 Ho2].
    assert (Hab : a <> b) by congruence.
    assert (Hgb : files w !! b = Some (File c)).
    { apply Ho1; [by left|]. apply lookup_insert_eq. }
    assert (Hpa : files w !! path_parent a = Some Dir).
    { apply Ho1; [by right|].
      destruct a as [|x d]; [unfold root in Hroot; congruence|].
      cbn [path_parent].
      assert (Hd : fs !! d = Some Dir) by (apply (Hin x); eauto).
      rewrite lookup_insert_ne by congruence.
      rewrite lookup_delete_ne by apply cons_neq_self. done. }
    assert (Hrun : undo_entry acc e w
                   = (Returns (one_restored acc),
                      set_files (<[a := File c]> (delete b (files w))) w)).
    { rewrite <- Hsrc, <- Hdst.
      apply undo_entry_restores; rewrite ?Hsrc, ?Hdst; [done..| |done].
      apply fs_mkdir_existing; [by apply has_nul_parent|done]. }
    rewrite rev_app_distr. cbn [rev app for_each]. unfold bind at 1.
    rewrite Hrun.
    destruct (IH m' (one_restored acc)
                (set_files (<[a := File c]> (delete b (files w))) w) Hm')
      as (w' & Hrest & Hoff' & Hdirs').
    + cbn [files set_files]. split.
      * intros q n Hq Hfs. destruct (decide (q = a)) as [->|Hqa].
        { rewrite lookup_insert_eq. congruence. }
        rewrite lookup_insert_ne by done.
        assert (Hqb : q <> b) by congruence.
        rewrite lookup_delete_ne by done.
        apply Ho1; [done|].
        rewrite lookup_insert_ne by done. by rewrite lookup_delete_ne.
      * intros q cq Hq. rewrite lookup_insert. case_decide as Hqa.
        { subst q. congruence. }
        rewrite lookup_delete. case_decide as Hqb; [done|].
        intros Hfile. apply Ho2 in Hfile; [|done].
        rewrite lookup_insert_ne in Hfile by done.
        by rewrite lookup_delete_ne in Hfile.
    + intros e' He'. cbn [files set_files].
      destruct (Hsafe e') as [Hnd Hnm];
        [apply elem_of_app; by left|].
      split; [|done]. rewrite lookup_insert. case_decide; [done|].
      rewrite lookup_delete. by case_decide.
    + exists w'. rewrite Hrest. split; [|split; [done|]].
      * rewrite length_app. cbn [length one_restored restored failed].
        replace (restored acc + (length m' + 1))%nat
          with (S (restored acc) + length m')%nat by lia.
        done.
      * intros q. rewrite Hdirs'. cbn [files set_files].
        rewrite lookup_insert. case_decide as Hqa.
        { subst q. split; [done|]. intros Hdir. by destruct Hnodir. }
        rewrite lookup_delete. case_decide as Hqb; [|done].
        subst q. rewrite Hgb. done.
Qed.

End Undo.


(** C9. The ledger [nul_ledger] holds two entries whose destinations are
    there; the source recorded in the second has a NUL character in its last
    component. [undo_moves] starts with that entry, makes the directory of the
    source, and the [ValueError] of [shutil.move] passes [except OSError]:
    [undo_moves] raises instead of returning counts, and the first entry is
    neither restored nor counted as failed. *)
Lemma undo_aborts_on_nul_source :
  fs_exists (files nul_world) (root // "kept" // "y.txt") = true /\
  fs_exists (files nul_world) (root // "kept" // "z.txt") = true /\
  has_nul (root // "old" // nul_name) = true /\
  (undo_moves nul_ledger nul_world).1 = Raises ValueError /\
  files (undo_moves nul_ledger nul_world).2 !! (root // "old") = Some Dir /\
  files (undo_moves nul_ledger nul_world).2 !! (root // "kept" // "z.txt")
  = Some (File (Raw [x05])) /\
  files (undo_moves nul_ledger nul_world).2 !! (root // "old" // "z.txt")
  = None.
Proof. repeat split; vm_compute; reflexivity. Qed.



Lemma wf_fsb_sound (fs : FS) : wf_fsb fs = true -> wf_fs fs.
Proof.
  unfold wf_fsb. intros Hb. apply andb_prop in Hb as [Hb Hclean].
  apply andb_prop in Hb as [Hroot Hall].
  unfold fs_is_dir in Hroot. split; [|split].
  - destruct (fs !! root) as [[c|]|]; done.
  - intros name d [n Hn].
    rewrite forallb_forall in Hall.
    specialize (Hall (d // name)).
    assert (Hin : In (d // name) (fst <$> map_to_list fs)).
    { apply list_elem_of_In, list_elem_of_fmap. exists (d // name, n).
      split; [done|]. by apply elem_of_map_to_list. }
    apply Hall in Hin. unfold fs_is_dir in Hin.
    destruct (fs !! d) as [[c|]|]; done.
  - intros p [n Hn].
    rewrite forallb_forall in Hclean.
    specialize (Hclean p).
    assert (Hin : In p (fst <$> map_to_list fs)).
    { apply list_elem_of_In, list_elem_of_fmap. exists (p, n).
      split; [done|]. by apply elem_of_map_to_list. }
    apply Hclean in Hin. by destruct (has_nul p).
Qed.

Section RoundTrip.

Context `{DirEnum}.

(** The round-trip law. Take an execute-mode batch, run on a well-formed
    filesystem, that returns and persists its ledger. Suppose no source path
    recorded in the ledger is a directory once the batch is over, and the
    ledger file is no recorded destination. Then undo on the persisted ledger
    counts every entry as restored and none as failed; afterwards every
    regular file other than the ledger file is where it was before the batch
    with the content it had, and no other regular file exists; the
    directories there were before the batch are still there (those made
    during the batch may remain). *)
Theorem undo_restores_batch (cfg : Config) (base_target source_dir : path)
    (selected : option (list string)) (w0 w1 : World) (r : Report) :
  wf_fs (files w0) ->
  organize cfg base_target source_dir false selected w0 = (Returns r, w1) ->
  (0 < report_total_moved r)%nat ->
  (forall a b, (a, b) ∈ all_entries (report_categories r) ->
     files w1 !! a <> Some Dir /\ b <> manifest_path base_target) ->
  exists w2,
    undo (manifest_path base_target) w1
    = (Returns {| restored := report_total_moved r; failed := 0 |}, w2) /\
    (forall p c, p <> manifest_path base_target ->
       files w2 !! p = Some (File c) <-> files w0 !! p = Some (File c)) /\
    (forall p, files w0 !! p = Some Dir -> files w2 !! p = Some Dir).
Proof.
  intros Hwf Hrun Hpos Hsafe.
  apply organize_executed in Hrun
    as (m & fs2 & Hsteps & Hall & Hlen & [[Hzero _]|(_ & Hnodir & Hfs1)]);
    [lia|].
  set (mp := manifest_path base_target) in *.
  assert (Hoff : grows_by_dirs_off mp fs2 (files w1)).
  { rewrite Hfs1. split.
    - intros p n Hp Hfs. destruct (decide (p = mp)) as [->|Hne].
      + destruct Hp as [Hp| ->]; [done|]. by destruct Hnodir.
      + by rewrite lookup_insert_ne.
    - intros p c Hp. by rewrite lookup_insert_ne. }
  destruct (undo_trace mp (files w0) Hwf fs2 (entry_paths m) Hsteps
              m no_counts w1 eq_refl Hoff) as (w2 & Hundo & [Ho1 Ho2] & _).
  { intros e He. apply Hsafe. rewrite <- Hall.
    apply list_elem_of_In, in_map_iff. exists e.
    split; [done|]. by apply list_elem_of_In. }
  exists w2. split; [|split].
  - unfold undo, bind, load_manifest. rewrite Hfs1, lookup_insert_eq.
    unfold undo_moves. unfold no_counts in Hundo. rewrite Hundo. cbn.
    by rewrite Hlen.
  - intros p c Hp. split; [by apply Ho2|]. apply Ho1. by left.
  - intros p. apply Ho1. by right.
Qed.

End RoundTrip.

(** The end-to-end scenario: both images are relocated, the dated one to
    [Photos/2023/06] and the other to [Photos/unsorted]; undo brings both
    back. *)
Lemma undo_restores_batch_witness :
  exists w2,
    undo (manifest_path sorted) inbox_run.2
    = (Returns {| restored := report_total_moved inbox_report; failed := 0 |},
       w2) /\
    (forall p c, p <> manifest_path sorted ->
       files w2 !! p = Some (File c)
       <-> files inbox_world !! p = Some (File c)) /\
    (forall p, files inbox_world !! p = Some Dir -> files w2 !! p = Some Dir).
Proof.
  apply (undo_restores_batch (H := listdir_enum) DEFAULT_CONFIG sorted inbox
           None inbox_world inbox_run.2 inbox_report).
  - apply wf_fsb_sound. vm_compute. reflexivity.
  - vm_compute. reflexivity.
  - vm_compute. lia.
  - intros a b Hin. vm_compute in Hin.
    repeat match type of Hin with
           | list_elem_of ?x (?y :: ?l) =>
               apply (elem_of_cons l x y) in Hin as [Hin|Hin]
           | _ ∈ _ :: _ => apply elem_of_cons in Hin as [Hin|Hin]
           end;
      [injection Hin as -> ->; split; vm_compute; discriminate ..
      |by apply elem_of_nil in Hin].
Defined.

Example inbox_scenario :
  all_entries (report_categories inbox_report)
  = [ (inbox // "plain.jpg", sorted // "Photos" // "unsorted" // "plain.jpg");
      (inbox // "dated.jpg", sorted // "Photos" // "2023" // "06" // "dated.jpg") ]
  /\ (undo (manifest_path sorted) inbox_run.2).1
     = Returns {| restored := 2; failed := 0 |}.
Proof. split; vm_compute; reflexivity. Qed.

(** C1. Undo does not bring every relocated file back to its source path.
    The batch [shadow_run] returns and persists its ledger; the photo [a.jpg]
    is relocated first and the custom category then makes its target
    directory where the photo was. Undo counts both entries as restored, yet
    where the photo was there is now a directory, and the photo lies inside
    it: [shutil.move] has moved it into the directory that stands at its
    source path, and [undo_moves] has counted that as a restoration. *)
Lemma undo_misplaces_file_behind_directory :
  files shadow_world !! (desk // "a.jpg") = Some (File (Raw [x01])) /\
  (exists r, shadow_run.1 = Returns r /\
     all_entries (report_categories r)
     = [ (desk // "a.jpg", desk // "Photos" // "unsorted" // "a.jpg");
         (desk // "x.py", desk // "a.jpg" // "x.py") ]) /\
  (undo (manifest_path desk) shadow_run.2).1
  = Returns {| restored := 2; failed := 0 |} /\
  files (undo (manifest_path desk) shadow_run.2).2 !! (desk // "a.jpg")
  = Some Dir /\
  files (undo (manifest_path desk) shadow_run.2).2
    !! (desk // "a.jpg" // "a.jpg")
  = Some (File (Raw [x01])).
Proof.
  split; [vm_compute; reflexivity|].
  split; [eexists; split; vm_compute; reflexivity|].
  repeat split; vm_compute; reflexivity.
Qed.

(** ** The ledger file and the target directories *)

Section Ledger.

Context `{DirEnum}.



End Ledger.


(** The whole batch over that directory: nothing is moved, no ledger file
    is written, and the target directory of the category exists
    afterwards though it did not before. *)
Example zero_move_batch_makes_target_directory :
  (exists r, notes_run.1 = Returns r /\ report_total_moved r = 0%nat) /\
  files notes_world !! (sorted // "Code") = None /\
  files notes_run.2 !! (sorted // "Code") = Some Dir /\
  files notes_run.2 !! manifest_path sorted = None.
Proof.
  split; [eexists; split; vm_compute; reflexivity|].
  repeat split; vm_compute; reflexivity.
Qed.

(** ** Duplicate names *)

Section Duplicates.

Lemma string_length_app (s u : string) :
  String.length (s +:+ u) = (String.length s + String.length u)%nat.
Proof.
  induction s as [|c s IH]; [done|].
  change (S (String.length (s +:+ u)) = S (String.length s + String.length u)).
  by rewrite IH.
Qed.


Lemma substring_whole (s : string) : substring 0 (String.length s) s = s.
Proof. induction s as [|c s IH]; [done|]. cbn. by rewrite IH. Qed.





Variables (target : path) (name : string).



End Duplicates.

Section DuplicateLoop.

Variables (dest_dir : path) (name : string) (body : Stats -> path -> M Stats).



End DuplicateLoop.

Section DuplicateLaw.

Context `{DirEnum}.




Lemma for_each_cons_run {A S} (body : S -> A -> M S) (x : A) (l : list A)
    (s : S) (w : World) :
  for_each body (x :: l) s w
  = match body s x w with
    | (Returns s', w') => for_each body l s' w'
    | (Raises e, w') => (Raises e, w')
    end.
Proof. done. Qed.



(** How the photo organizer chooses the subfolder, from the content of the
    photo. *)
Lemma photo_subfolder_of_content (photo : path) (w : World) (c : content)
    (date : option (string * string)) :
  files w !! photo = Some (File c) ->
  extract_exif_date_bytes (content_bytes c) = Returns date ->
  get_subfolder PhotoOrganizer photo w
  = (Returns match date with
             | Some (year, month) => year +:+ "/" +:+ month
             | None => "unsorted"
             end, w).
Proof.
  intros Hf Hdate. cbn [get_subfolder].
  unfold _get_date_subfolder, bind, _extract_exif_date, open_rb.
  rewrite Hf, Hdate. by destruct date as [[y m]|].
Qed.

End DuplicateLaw.


Example reports_scenario :
  (for_each (generic_step (root // "docs") [".txt"] false) reports no_stats
            reports_world).1
  = Returns
      {| moved := 3; would_move := 0; duplicates := 2;
         entries :=
           [ (root // "a" // "report.txt", root // "docs" // "report.txt");
             (root // "b" // "report.txt", root // "docs" // "report_1.txt");
             (root // "c" // "report.txt", root // "docs" // "report_2.txt") ] |}.
Proof. vm_compute. reflexivity. Qed.

Example photos_scenario :
  (for_each (organizer_step PhotoOrganizer (root // "pics") false) photos
            no_stats photos_world).1
  = Returns
      {| moved := 3; would_move := 0; duplicates := 2;
         entries :=
           [ (root // "a" // "img.jpg", root // "pics" // "unsorted" // "img.jpg");
             (root // "b" // "img.jpg", root // "pics" // "unsorted" // "img_1.jpg");
             (root // "c" // "img.jpg", root // "pics" // "unsorted" // "img_2.jpg") ] |}.
Proof. vm_compute. reflexivity. Qed.

(** The contract of the duplicate resolver, for every organizer: relocating
    a regular file into an existing directory never fails and never lands on an
    existing path; the file goes to the desired path when that is free, and
    else to the first probed name that is free. *)
Theorem relocation_never_overwrites (dest_dir : path) (name : string)
    (f : path) (st : Stats) (w : World) (c : content) :
  files w !! f = Some (File c) ->
  files w !! dest_dir = Some Dir ->
  exists final st',
    resolve_and_move dest_dir (dest_dir // name) f st w
    = (Returns st', set_files (<[final := File c]> (delete f (files w))) w) /\
    entries st' = entries st ++ [(f, final)] /\
    files w !! final = None /\
    ((fs_exists (files w) (dest_dir // name) = false /\ final = dest_dir // name)
     \/ (fs_exists (files w) (dest_dir // name) = true /\
         exists k, (1 <= k)%nat /\
           final = suffixed dest_dir (path_stem f) (path_suffix f) k /\
           forall j, (1 <= j < k)%nat ->
             fs_exists (files w)
               (suffixed dest_dir (path_stem f) (path_suffix f) j) = true)).
Proof.
  intros Hf Hdir.
  exists (final_dest (files w) dest_dir name f). eexists.
  split; [by apply resolve_and_move_eq|]. split; [done|].
  split; [apply final_dest_free|].
  unfold final_dest.
  destruct (first_free_first (files w) dest_dir (path_stem f) (path_suffix f)
              (dest_dir // name)) as [[Hno Hr]|[Hex Hk]].
  - left. by rewrite Hno.
  - right. by rewrite Hex.
Qed.

Lemma relocation_never_overwrites_witness :
  exists final st',
    resolve_and_move (root // "a") (root // "a" // "report.txt")
      (root // "b" // "report.txt") no_stats reports_world
    = (Returns st',
       set_files (<[final := File (Raw [x62])]>
                    (delete (root // "b" // "report.txt") (files reports_world)))
                 reports_world) /\
    entries st' = entries no_stats ++ [(root // "b" // "report.txt", final)] /\
    files reports_world !! final = None /\
    ((fs_exists (files reports_world) (root // "a" // "report.txt") = false /\
      final = root // "a" // "report.txt")
     \/ (fs_exists (files reports_world) (root // "a" // "report.txt") = true /\
         exists k, (1 <= k)%nat /\
           final = suffixed (root // "a")
                     (path_stem (root // "b" // "report.txt"))
                     (path_suffix (root // "b" // "report.txt")) k /\
           forall j, (1 <= j < k)%nat ->
             fs_exists (files reports_world)
               (suffixed (root // "a")
                  (path_stem (root // "b" // "report.txt"))
                  (path_suffix (root // "b" // "report.txt")) j) = true)).
Proof.
  apply (relocation_never_overwrites (root // "a") "report.txt"
           (root // "b" // "report.txt") no_stats reports_world (Raw [x62]));
    vm_compute; reflexivity.
Defined.

(** ** Further properties *)

(** Why the round-trip law needs the ledger file not to be a destination:
    the ledger of an earlier batch, collected by a category whose target is the
    target root, lands on the path of the new ledger and is overwritten by it;
    undo then puts the new ledger where the old one was. *)
Example ledger_overwrites_relocated_file :
  files archive_world !! (inbox // ".file_organizer_manifest.json")
  = Some (File old_ledger) /\
  (exists r, archive_run.1 = Returns r /\
     all_entries (report_categories r)
     = [ (inbox // ".file_organizer_manifest.json", manifest_path sorted) ]) /\
  (undo (manifest_path sorted) archive_run.2).1
  = Returns {| restored := 1; failed := 0 |} /\
  files (undo (manifest_path sorted) archive_run.2).2
    !! (inbox // ".file_organizer_manifest.json")
  = Some (File (ManifestJson
       [ {| source := inbox // ".file_organizer_manifest.json";
            destination := manifest_path sorted;
            timestamp := 0 |} ])).
Proof.
  split; [vm_compute; reflexivity|].
  split; [eexists; split; vm_compute; reflexivity|].
  split; vm_compute; reflexivity.
Qed.

(** The nested parser never raises. *)
Theorem tiff_parser_never_raises (tiff_data : bytes) :
  exists r, _parse_tiff_for_date tiff_data = Returns r.
Proof. apply parse_tiff_never_raises. Qed.

(** The probing loop of the duplicate resolver ends on a free path, whatever
    the filesystem holds. *)
Theorem duplicate_probe_ends_on_free_path (fs : FS) (dest_dir : path)
    (stem suffix : string) (dest : path) :
  fs !! first_free fs dest_dir stem suffix dest = None.
Proof.
  pose proof (first_free_fresh fs dest_dir stem suffix dest) as Hfree.
  unfold fs_exists in Hfree. by destruct (fs !! _).
Qed.

(** The extractor returns on every byte sequence whose APP1 segment, if the
    scan finds one with its two length bytes, does not declare the length
    0. *)
Theorem extractor_returns_unless_zero_length (data : bytes) :
  (forall pos,
     scan_markers (S (length data)) data 2 = Some (FoundApp1 pos) ->
     length (take 2 (drop pos data)) = 2%nat ->
     unpack_int BigEndian (take 2 (drop pos data)) <> 0%Z) ->
  exists r, extract_exif_date_bytes data = Returns r.
Proof.
  intros Hlen. unfold extract_exif_date_bytes, exif_try_body.
  destruct (decide _); [|cbn; eauto].
  destruct (scan_markers _ data 2) as [[pos| |e']|] eqn:Hscan;
    [|cbn; eauto| |cbn; eauto].
  - destruct (Nat.ltb_spec (length (take 2 (drop pos data))) 2); [cbn; eauto|].
    assert (Hl2 : length (take 2 (drop pos data)) = 2%nat).
    { rewrite length_take in *. lia. }
    specialize (Hlen pos eq_refl Hl2).
    pose proof (unpack_int_nonneg BigEndian (take 2 (drop pos data))).
    unfold file_read.
    destruct (Z.ltb_spec (unpack_int BigEndian (take 2 (drop pos data)) - 2) (-1));
      [lia|].
    destruct (_ =? -1)%Z; cbn [obind];
      (destruct (decide _); [|cbn; eauto]);
      match goal with
      | |- context [_parse_tiff_for_date ?d] =>
          destruct (parse_tiff_never_raises d) as [r ->]
      end; cbn; eauto.
  - apply scan_markers_raises_only_OSError in Hscan as ->. cbn; eauto.
Qed.

Lemma extractor_returns_unless_zero_length_witness :
  exists r, extract_exif_date_bytes exif_test_jpeg = Returns r.
Proof.
  apply (extractor_returns_unless_zero_length exif_test_jpeg).
  intros pos Hscan _. vm_compute in Hscan. injection Hscan as <-.
  vm_compute. discriminate.
Defined.

(** The entry whose destination is gone is counted as failed, and the entry
    before it is still restored. *)
Example undo_continues_past_missing_destination :
  (undo_moves half_gone_ledger half_gone_world).1
  = Returns {| restored := 1; failed := 1 |} /\
  files (undo_moves half_gone_ledger half_gone_world).2 !! (inbox // "one.txt")
  = Some (File (Raw [x31])) /\
  files (undo_moves half_gone_ledger half_gone_world).2 !! (sorted // "one.txt")
  = None.
Proof. repeat split; vm_compute; reflexivity. Qed.

(** ** File names, suffixes and classification *)

Section Names.

Lemma ascii_lower_dot (c : ascii) : ascii_lower c = "."%char -> c = "."%char.
Proof.
  destruct c as [[] [] [] [] [] [] [] []]; vm_compute; congruence.
Qed.

Lemma ascii_lower_slash (c : ascii) : ascii_lower c = "/"%char -> c = "/"%char.
Proof.
  destruct c as [[] [] [] [] [] [] [] []]; vm_compute; congruence.
Qed.

Lemma ascii_lower_idemp (c : ascii) : ascii_lower (ascii_lower c) = ascii_lower c.
Proof.
  destruct c as [[] [] [] [] [] [] [] []]; vm_compute; congruence.
Qed.

Lemma str_lower_idemp (s : string) : str_lower (str_lower s) = str_lower s.
Proof.
  induction s as [|c s IH]; [done|]. cbn. by rewrite ascii_lower_idemp, IH.
Qed.

Lemma str_lower_length (s : string) :
  String.length (str_lower s) = String.length s.
Proof. induction s as [|c s IH]; [done|]. cbn. by rewrite IH. Qed.

Lemma str_lower_substring (s : string) : forall i n,
  substring i n (str_lower s) = str_lower (substring i n s).
Proof.
  induction s as [|c s IH]; intros [|i] [|n]; cbn; try done;
    by rewrite IH.
Qed.

Lemma str_rfind_lower_dot (s : string) : forall i,
  str_rfind "." (str_lower s) i = str_rfind "." s i.
Proof.
  induction s as [|c s IH]; intros i; [done|].
  cbn [str_lower str_rfind]. rewrite IH.
  destruct (str_rfind "." s (S i)); [done|].
  destruct (decide (c = "."%char)) as [->|Hc].
  - done.
  - destruct (decide (ascii_lower c = "."%char)) as [Hl|]; [|done].
    by apply ascii_lower_dot in Hl.
Qed.

(** Lowering a name lowers its suffix and its stem. *)
Lemma path_suffix_lower (d d' : path) (name : string) :
  path_suffix (d // str_lower name) = str_lower (path_suffix (d' // name)).
Proof.
  unfold path_suffix, name_cut. cbn [path_name].
  rewrite str_rfind_lower_dot, str_lower_length.
  destruct (str_rfind "." name 0) as [i|]; [|done].
  destruct (_ && _); [|done].
  apply str_lower_substring.
Qed.

End Names.

Section Cuts.

Lemma occurs_nil (c : ascii) : ~ occurs c "".
Proof. unfold occurs. cbn. apply not_elem_of_nil. Qed.

Lemma occurs_cons (c a : ascii) (s : string) :
  occurs c (String a s) <-> c = a \/ occurs c s.
Proof. unfold occurs. cbn. apply elem_of_cons. Qed.

Lemma occurs_app (c : ascii) (s t : string) :
  occurs c (s +:+ t) <-> occurs c s \/ occurs c t.
Proof.
  induction s as [|a s IH].
  - change ("" +:+ t) with t. split; [by right|].
    intros [Hs|Ht]; [by apply occurs_nil in Hs|done].
  - change (String a s +:+ t) with (String a (s +:+ t)).
    rewrite !occurs_cons, IH. tauto.
Qed.

Lemma str_rfind_none (c : ascii) (s : string) : forall i,
  str_rfind c s i = None <-> ~ occurs c s.
Proof.
  induction s as [|a s IH]; intros i; cbn [str_rfind].
  - split; [intros _; apply occurs_nil|done].
  - rewrite occurs_cons. specialize (IH (S i)).
    destruct (str_rfind c s (S i)) as [j|].
    + split; [done|]. intros Hno. exfalso.
      assert (Hs : ~ occurs c s) by tauto. by apply IH in Hs.
    + destruct (decide (a = c)) as [->|Hac].
      * split; [done|]. intros Hno. exfalso. apply Hno. by left.
      * split; [|done]. intros _ [->|Hs]; [done|]. by apply IH in Hs.
Qed.

(** [s.rfind(c)] cuts [s] at the last occurrence of [c]. *)
Lemma str_rfind_some (c : ascii) (s : string) : forall i j,
  str_rfind c s i = Some j ->
  exists s1 s2, s = s1 +:+ String c s2 /\ j = (i + String.length s1)%nat /\
                ~ occurs c s2.
Proof.
  induction s as [|a s IH]; intros i j; cbn [str_rfind]; [done|].
  destruct (str_rfind c s (S i)) as [j'|] eqn:E.
  - intros [= <-]. apply IH in E as (s1 & s2 & -> & -> & Hno).
    exists (String a s1), s2. split; [done|]. split; [cbn; lia|done].
  - destruct (decide (a = c)) as [->|]; [|done]. intros [= <-].
    exists "", s. split; [done|]. split; [cbn; lia|].
    by apply (str_rfind_none c s (S i)).
Qed.

Lemma str_rfind_app (c : ascii) (s1 s2 : string) : forall i,
  ~ occurs c s2 ->
  str_rfind c (s1 +:+ String c s2) i = Some (i + String.length s1)%nat.
Proof.
  induction s1 as [|a s1 IH]; intros i Hno.
  - change ("" +:+ String c s2) with (String c s2). cbn [str_rfind].
    apply (str_rfind_none c s2 (S i)) in Hno. rewrite Hno.
    destruct (decide (c = c)); [|done]. f_equal. cbn. lia.
  - change (String a s1 +:+ String c s2) with (String a (s1 +:+ String c s2)).
    cbn [str_rfind]. rewrite IH by done. f_equal. cbn. lia.
Qed.

Lemma substring_app_head (s1 t : string) :
  substring 0 (String.length s1) (s1 +:+ t) = s1.
Proof.
  induction s1 as [|a s1 IH]; [by destruct t|].
  change (String a s1 +:+ t) with (String a (s1 +:+ t)). cbn. by rewrite IH.
Qed.

Lemma substring_app_tail (s1 t : string) :
  substring (String.length s1) (String.length t) (s1 +:+ t) = t.
Proof.
  induction s1 as [|a s1 IH]; [apply substring_whole|].
  change (String a s1 +:+ t) with (String a (s1 +:+ t)). cbn. apply IH.
Qed.

(** The name [s1.ext], with [s1] and [ext] not empty and no dot in [ext],
    is cut before its last dot. *)
Lemma name_cut_app (s1 ext : string) :
  s1 <> "" -> ext <> "" -> ~ occurs "." ext ->
  name_cut (s1 +:+ String "." ext) = Some (String.length s1).
Proof.
  intros H1 He Hno. unfold name_cut.
  rewrite str_rfind_app by done. rewrite string_length_app. cbn [String.length].
  destruct s1 as [|a s1]; [done|]. destruct ext as [|b ext]; [done|].
  cbn [String.length plus].
  destruct (Nat.ltb_spec 0 (S (String.length s1))); [|lia].
  destruct (Nat.ltb_spec (S (String.length s1))
              (S (String.length s1 + S (S (String.length ext))) - 1)); [done|lia].
Qed.

Lemma name_cut_some (name : string) (i : nat) :
  name_cut name = Some i ->
  exists s1 ext, name = s1 +:+ String "." ext /\ i = String.length s1 /\
                 s1 <> "" /\ ext <> "" /\ ~ occurs "." ext.
Proof.
  unfold name_cut. destruct (str_rfind "." name 0) as [j|] eqn:E; [|done].
  apply str_rfind_some in E as (s1 & ext & -> & -> & Hno).
  rewrite string_length_app. cbn [String.length plus].
  destruct (Nat.ltb_spec 0 (String.length s1)) as [H0|]; [|done].
  destruct (Nat.ltb_spec (String.length s1)
              (String.length s1 + S (String.length ext) - 1)) as [H1|]; [|done].
  intros [= <-]. exists s1, ext. repeat split; try done.
  - intros ->. cbn in H0. lia.
  - intros ->. cbn in H1. lia.
Qed.

(** A path has no suffix, or its name is [stem.ext] with a stem and an
    extension that are not empty and no dot in the extension. *)
Lemma path_suffix_shape (p : path) :
  (path_suffix p = "" /\ path_stem p = path_name p) \/
  (exists ext, path_suffix p = String "." ext /\ ext <> "" /\
               ~ occurs "." ext /\ path_stem p <> "" /\
               path_name p = path_stem p +:+ String "." ext).
Proof.
  unfold path_suffix, path_stem.
  destruct (name_cut (path_name p)) as [i|] eqn:E; [right|by left].
  apply name_cut_some in E as (s1 & ext & Hn & -> & H1 & He & Hno).
  rewrite Hn. exists ext. rewrite substring_app_head.
  rewrite string_length_app.
  replace (String.length s1 + String.length (String "." ext)
           - String.length s1)%nat
    with (String.length (String "." ext)) by lia.
  by rewrite substring_app_tail.
Qed.

Lemma path_suffix_app (d : path) (s1 ext : string) :
  s1 <> "" -> ext <> "" -> ~ occurs "." ext ->
  path_suffix (d // (s1 +:+ String "." ext)) = String "." ext /\
  path_stem (d // (s1 +:+ String "." ext)) = s1.
Proof.
  intros H1 He Hno. unfold path_suffix, path_stem. cbn [path_name].
  rewrite name_cut_app by done. rewrite substring_app_head.
  rewrite string_length_app.
  replace (String.length s1 + String.length (String "." ext)
           - String.length s1)%nat
    with (String.length (String "." ext)) by lia.
  by rewrite substring_app_tail.
Qed.

End Cuts.

Section Joins.

Lemma str_split_no_sep (c : ascii) (s : string) :
  ~ occurs c s -> str_split c s = [s].
Proof.
  induction s as [|a s IH]; intros Hno; [done|].
  cbn [str_split]. rewrite occurs_cons in Hno.
  destruct (decide (a = c)) as [->|_]; [tauto|].
  rewrite IH by tauto. done.
Qed.

(** Joining a single component that is no [.] gives the child of that
    name. *)
Lemma joinpath_component (d : path) (s : string) :
  ~ occurs "/" s -> s <> "" -> s <> "." -> joinpath d s = d // s.
Proof.
  intros Hno He Hd. unfold joinpath, path_parts, str_startswith.
  rewrite str_split_no_sep by done.
  apply String.eqb_neq in He, Hd. cbn [List.filter]. rewrite He, Hd.
  cbn [orb negb rev app].
  destruct s as [|a s]; [done|]. cbn [String.prefix].
  destruct (ascii_dec "/" a) as [<-|]; [|done].
  exfalso. apply Hno, occurs_cons. by left.
Qed.

Lemma occurs_lower_dot (s : string) : occurs "." (str_lower s) -> occurs "." s.
Proof.
  induction s as [|a s IH]; [done|]. cbn [str_lower]. rewrite !occurs_cons.
  intros [Ha|Hs]; [left|right; tauto].
  symmetry. by apply ascii_lower_dot.
Qed.

Lemma occurs_lower_slash (s : string) : occurs "/" (str_lower s) -> occurs "/" s.
Proof.
  induction s as [|a s IH]; [done|]. cbn [str_lower]. rewrite !occurs_cons.
  intros [Ha|Hs]; [left|right; tauto].
  symmetry. by apply ascii_lower_slash.
Qed.

Lemma str_lstrip_no_head (c : ascii) (s : string) :
  ~ occurs c s -> str_lstrip c s = s.
Proof.
  destruct s as [|a s]; [done|]. rewrite occurs_cons. cbn [str_lstrip].
  destruct (decide (a = c)) as [->|]; [tauto|done].
Qed.

End Joins.

(** Classification ignores case. A file is recognized by an organizer
    exactly when its suffix equals, case apart, one of the extensions the
    configuration lists for the organizer's category; and two names that
    differ only in case are recognized alike. *)
Theorem classification_ignores_case (k : organizer_kind) (cfg : Config) :
  (forall p,
     is_kind k cfg p = true <->
     exists cat_data ext,
       dict_get (categories cfg) (category_of k) = Some cat_data /\
       ext ∈ extensions cat_data /\
       str_lower ext = str_lower (path_suffix p)) /\
  (forall d d' name name',
     str_lower name = str_lower name' ->
     is_kind k cfg (d // name) = is_kind k cfg (d' // name')).
Proof.
  split.
  - intros p. unfold is_kind, organizer_extensions, str_in.
    rewrite existsb_exists. split.
    + intros (x & Hin & Heq). apply String.eqb_eq in Heq. subst x.
      destruct (dict_get _ _) as [cat_data|]; [|done].
      apply in_map_iff in Hin as (ext & Hext & Hin).
      exists cat_data, ext. by rewrite list_elem_of_In.
    + intros (cat_data & ext & -> & Hin & Heq).
      exists (str_lower (path_suffix p)). split; [|apply String.eqb_refl].
      rewrite <- Heq. apply in_map. by apply list_elem_of_In.
  - intros d d' name name' Heq. unfold is_kind.
    rewrite <- (path_suffix_lower d d name), <- (path_suffix_lower d d' name').
    by rewrite Heq.
Qed.

(** A document goes to the subfolder named by its extension, in lower case
    and without the dot. *)
Theorem document_lands_in_extension_folder (target doc : path) :
  path_suffix doc <> "" ->
  ~ occurs "/" (path_name doc) ->
  exists ext,
    path_name doc = path_stem doc +:+ String "." ext /\
    _get_extension_subfolder doc = str_lower ext /\
    joinpath target (_get_extension_subfolder doc) = target // str_lower ext.
Proof.
  intros Hsuf Hslash.
  destruct (path_suffix_shape doc)
    as [[Hno _]|(ext & Hext & Hne & Hdot & _ & Hname)]; [done|].
  exists ext. split; [done|].
  assert (Hsub : _get_extension_subfolder doc = str_lower ext).
  { unfold _get_extension_subfolder. rewrite Hext. cbn [str_lstrip].
    destruct (decide ("."%char = "."%char)); [|done].
    by rewrite str_lstrip_no_head. }
  split; [done|]. rewrite Hsub. apply joinpath_component.
  - intros Hin. apply occurs_lower_slash in Hin. apply Hslash.
    rewrite Hname, occurs_app, occurs_cons. tauto.
  - destruct ext; [done|discriminate].
  - intros Heq. apply Hdot, occurs_lower_dot. rewrite Heq.
    apply occurs_cons. by left.
Qed.

Lemma document_lands_in_extension_folder_witness :
  exists ext,
    path_name (inbox // "Report.PDF")
    = path_stem (inbox // "Report.PDF") +:+ String "." ext /\
    _get_extension_subfolder (inbox // "Report.PDF") = str_lower ext /\
    joinpath (sorted // "Documents")
      (_get_extension_subfolder (inbox // "Report.PDF"))
    = sorted // "Documents" // str_lower ext.
Proof.
  apply (document_lands_in_extension_folder (sorted // "Documents")
           (inbox // "Report.PDF")).
  - vm_compute. discriminate.
  - unfold occurs. vm_compute. intros Hin.
    repeat (apply elem_of_cons in Hin as [Hin|Hin]; [discriminate|]).
    by apply elem_of_nil in Hin.
Defined.

Lemma string_app_assoc (s t u : string) : (s +:+ t) +:+ u = s +:+ (t +:+ u).
Proof.
  induction s as [|a s IH]; [done|].
  change (String a ((s +:+ t) +:+ u) = String a (s +:+ (t +:+ u))).
  by rewrite IH.
Qed.

(** A renamed duplicate keeps its extension. Whatever name the relocation
    of a file with a suffix settles on, the new path lies in the destination
    directory and has the suffix of the file; when the name was taken, its
    stem is the stem of the file followed by an underscore and a count. *)
Theorem renamed_duplicate_keeps_extension (dest_dir f : path) (st : Stats)
    (w : World) (c : content) :
  files w !! f = Some (File c) ->
  files w !! dest_dir = Some Dir ->
  path_suffix f <> "" ->
  exists final st',
    resolve_and_move dest_dir (dest_dir // path_name f) f st w
    = (Returns st', set_files (<[final := File c]> (delete f (files w))) w) /\
    entries st' = entries st ++ [(f, final)] /\
    path_parent final = dest_dir /\
    path_suffix final = path_suffix f /\
    (path_stem final = path_stem f \/
     exists k, (1 <= k)%nat /\
       path_stem final = path_stem f +:+ "_" +:+ pretty k).
Proof.
  intros Hf Hdir Hsuf.
  exists (final_dest (files w) dest_dir (path_name f) f). eexists.
  split; [by apply resolve_and_move_eq|]. split; [done|].
  split; [apply final_dest_free|].
  unfold final_dest.
  destruct (first_free_first (files w) dest_dir (path_stem f) (path_suffix f)
              (dest_dir // path_name f)) as [[-> _]|[-> (k & Hk & -> & _)]].
  { split; [done|by left]. }
  destruct (path_suffix_shape f)
    as [[Hno _]|(ext & Hext & Hne & Hdot & Hstem & _)]; [done|].
  unfold suffixed. rewrite Hext.
  rewrite <- (string_app_assoc "_"), <- string_app_assoc.
  destruct (path_suffix_app dest_dir (path_stem f +:+ "_" +:+ pretty k) ext)
    as [Hs Ht]; [|done|done|].
  { destruct (path_stem f); done. }
  split; [done|]. right. eauto.
Qed.

Lemma renamed_duplicate_keeps_extension_witness :
  exists final st',
    resolve_and_move (root // "a") (root // "a" // "report.txt")
      (root // "b" // "report.txt") no_stats reports_world
    = (Returns st',
       set_files (<[final := File (Raw [x62])]>
                    (delete (root // "b" // "report.txt") (files reports_world)))
                 reports_world) /\
    entries st' = entries no_stats ++ [(root // "b" // "report.txt", final)] /\
    path_parent final = root // "a" /\
    path_suffix final = path_suffix (root // "b" // "report.txt") /\
    (path_stem final = path_stem (root // "b" // "report.txt") \/
     exists k, (1 <= k)%nat /\
       path_stem final
       = path_stem (root // "b" // "report.txt") +:+ "_" +:+ pretty k).
Proof.
  apply (renamed_duplicate_keeps_extension (root // "a")
           (root // "b" // "report.txt") no_stats reports_world (Raw [x62]));
    vm_compute; (reflexivity || discriminate).
Defined.

(** ** The shape and the use of an extracted date *)

Section DateShape.

Lemma str_split_pieces (sep : ascii) (s : string) :
  Forall (fun piece => ~ occurs sep piece) (str_split sep s).
Proof.
  induction s as [|a s IH]; cbn [str_split].
  - constructor; [apply occurs_nil|constructor].
  - destruct (decide (a = sep)) as [->|Ha].
    + constructor; [apply occurs_nil|done].
    + destruct (str_split sep s) as [|h t].
      * constructor; [|constructor]. rewrite occurs_cons.
        intros [->|Hn]; [done|]. by apply occurs_nil in Hn.
      * apply Forall_cons in IH as [Hh Ht]. constructor; [|done].
        rewrite occurs_cons. intros [->|Hn]; done.
Qed.

Lemma date_of_value_shape (raw : bytes) (y m : string) :
  date_of_value raw = Some (y, m) ->
  String.length y = 4%nat /\ ~ occurs ":" y /\ ~ occurs ":" m.
Proof.
  unfold date_of_value.
  pose proof (str_split_pieces ":" (decode_ascii_ignore (rstrip_byte x00 raw)))
    as Hall.
  destruct (str_split _ _) as [|year [|month rest]]; [done..|].
  apply Forall_cons in Hall as [Hy Hall].
  apply Forall_cons in Hall as [Hm _].
  destruct (decide _) as [Hlen|]; [|done]. by intros [= <- <-].
Qed.

Lemma search_entries_shape (tiff_data : bytes) (ifd_offset : Z) (e : endian)
    (remaining : nat) : forall i ym,
  search_entries tiff_data ifd_offset e i remaining = Returns (Some ym) ->
  exists raw, date_of_value raw = Some ym.
Proof.
  induction remaining as [|n IH]; intros i ym; cbn [search_entries]; [done|].
  destruct (_ <? _)%Z; [done|].
  destruct (unpack_from_H _ _ _) as [tag|]; cbn [obind]; [|done].
  destruct (is_target_tag tag); [|apply IH].
  destruct (unpack_from_I _ _ _) as [value_count|]; cbn [obind]; [|done].
  destruct (unpack_from_I _ _ _) as [value_offset|]; cbn [obind]; [|done].
  destruct (_ <=? _)%Z; [|apply IH].
  destruct (date_of_value _) as [ym'|] eqn:E; [|apply IH].
  intros [= <-]. eauto.
Qed.

Lemma parse_tiff_shape (tiff_data : bytes) (ym : string * string) :
  _parse_tiff_for_date tiff_data = Returns (Some ym) ->
  exists raw, date_of_value raw = Some ym.
Proof.
  assert (Hifd : forall off e,
            _search_ifd_for_date tiff_data off e = Returns (Some ym) ->
            exists raw, date_of_value raw = Some ym).
  { intros off e. unfold _search_ifd_for_date.
    destruct (_ <? _)%Z; [done|].
    destruct (unpack_from_H _ _ _) as [n|]; cbn [obind]; [|done].
    apply search_entries_shape. }
  unfold _parse_tiff_for_date.
  destruct (_ <? _)%Z; [done|]. cbv zeta.
  destruct (decide _).
  - destruct (unpack_from_I _ _ _) as [off|]; cbn [obind]; [|done].
    apply Hifd.
  - destruct (decide _); [|done].
    destruct (unpack_from_I _ _ _) as [off|]; cbn [obind]; [|done].
    apply Hifd.
Qed.

(** A date the extractor returns is the reading of some value. *)
Lemma extracted_date_is_value (data : bytes) (ym : string * string) :
  extract_exif_date_bytes data = Returns (Some ym) ->
  take 2 data = [xff; xd8] /\ exists raw, date_of_value raw = Some ym.
Proof.
  unfold extract_exif_date_bytes, exif_try_body. intros Hrun.
  destruct (decide (take 2 data = [xff; xd8])) as [Hsoi|]; [|done].
  split; [done|].
  destruct (scan_markers _ _ _) as [[pos| |e]|]; try done.
  - cbv zeta in Hrun. destruct (_ <? _)%nat; [done|].
    destruct (file_read _ _ _) as [app1_data|]; cbn [obind] in Hrun.
    + destruct (decide _) as [_|]; [|done].
      destruct (_parse_tiff_for_date _) as [[ym'|]|ex] eqn:E; try done.
      * cbn in Hrun. injection Hrun as ->. by apply parse_tiff_shape in E.
      * by destruct ex; cbn in Hrun.
    + by destruct e; cbn in Hrun.
  - by destruct e; cbn in Hrun.
Qed.

End DateShape.

(** The shape of an extracted date. A date is found only in a file that
    starts with the start-of-image marker; the year has exactly four
    characters and neither the year nor the month holds a colon. *)
Theorem extracted_date_shape (data : bytes) (year month : string) :
  extract_exif_date_bytes data = Returns (Some (year, month)) ->
  take 2 data = [xff; xd8] /\
  String.length year = 4%nat /\
  ~ occurs ":" year /\ ~ occurs ":" month.
Proof.
  intros Hrun. apply extracted_date_is_value in Hrun as [Hsoi [raw Hraw]].
  split; [done|]. by apply date_of_value_shape in Hraw.
Qed.

Lemma extracted_date_shape_witness :
  take 2 exif_test_jpeg = [xff; xd8] /\
  String.length "2023" = 4%nat /\
  ~ occurs ":" "2023" /\ ~ occurs ":" "06".
Proof.
  apply (extracted_date_shape exif_test_jpeg "2023" "06").
  vm_compute. reflexivity.
Defined.

Lemma str_split_app (c : ascii) (s1 s2 : string) :
  ~ occurs c s1 ->
  str_split c (s1 +:+ String c s2) = s1 :: str_split c s2.
Proof.
  induction s1 as [|a s1 IH]; intros Hno.
  - change ("" +:+ String c s2) with (String c s2). cbn [str_split].
    by destruct (decide (c = c)).
  - change (String a s1 +:+ String c s2) with (String a (s1 +:+ String c s2)).
    cbn [str_split]. rewrite occurs_cons in Hno.
    destruct (decide (a = c)) as [->|_]; [tauto|].
    rewrite IH by tauto. done.
Qed.

(** A photo with a date goes to the folder of its year and, inside it, of
    its month. The year and the month are taken as they are read: they are
    path components when they hold no slash. *)
Theorem photo_lands_in_year_month_folder (target photo : path) (w : World)
    (c : content) (year month : string) :
  files w !! photo = Some (File c) ->
  extract_exif_date_bytes (content_bytes c) = Returns (Some (year, month)) ->
  ~ occurs "/" year -> ~ occurs "/" month -> month <> "" -> month <> "." ->
  get_subfolder PhotoOrganizer photo w
  = (Returns (year +:+ "/" +:+ month), w) /\
  joinpath target (year +:+ "/" +:+ month) = target // year // month.
Proof.
  intros Hf Hdate Hy Hm Hne Hnd.
  split; [apply (photo_subfolder_of_content photo w c _ Hf Hdate)|].
  apply extracted_date_is_value in Hdate as [_ [raw Hraw]].
  apply date_of_value_shape in Hraw as (Hlen & _).
  unfold joinpath, path_parts, str_startswith.
  change ("/" +:+ month) with (String "/" month).
  rewrite str_split_app by done. rewrite (str_split_no_sep _ month) by done.
  apply String.eqb_neq in Hne, Hnd. cbn [List.filter].
  assert (Hy1 : (year =? "") = false).
  { apply String.eqb_neq. intros ->. done. }
  assert (Hy2 : (year =? ".") = false).
  { apply String.eqb_neq. intros ->. done. }
  rewrite Hy1, Hy2, Hne, Hnd. cbn [orb negb rev app].
  destruct year as [|a year]; [done|].
  change (String a year +:+ String "/" month)
    with (String a (year +:+ String "/" month)).
  cbn [String.prefix].
  destruct (ascii_dec "/" a) as [<-|]; [|done].
  exfalso. apply Hy, occurs_cons. by left.
Qed.

Lemma photo_lands_in_year_month_folder_witness :
  get_subfolder PhotoOrganizer (inbox // "dated.jpg") inbox_world
  = (Returns ("2023" +:+ "/" +:+ "06"), inbox_world) /\
  joinpath (sorted // "Photos") ("2023" +:+ "/" +:+ "06")
  = sorted // "Photos" // "2023" // "06".
Proof.
  apply (photo_lands_in_year_month_folder (sorted // "Photos")
           (inbox // "dated.jpg") inbox_world (Raw exif_test_jpeg)
           "2023" "06");
    try (vm_compute; reflexivity); try discriminate;
    unfold occurs; vm_compute; intros Hin;
    repeat (apply elem_of_cons in Hin as [Hin|Hin]; [discriminate|]);
    by apply elem_of_nil in Hin.
Defined.

(** A download goes to one of four subfolders of the target, and never to
    [other] when its extension is one the default configuration lists for
    downloads: the table of types covers them all. *)
Theorem download_lands_in_type_folder (target download : path) :
  _get_type_subfolder download
    ∈ ["installers"; "archives"; "disk_images"; "other"] /\
  joinpath target (_get_type_subfolder download)
  = target // _get_type_subfolder download /\
  (is_download DEFAULT_CONFIG download = true ->
   _get_type_subfolder download <> "other").
Proof.
  unfold is_download, is_kind, _get_type_subfolder, DOWNLOAD_TYPE_MAP.
  generalize (str_lower (path_suffix download)). intros x.
  cbn [dict_get].
  repeat (destruct (decide (_ = x)) as [<-|?];
          [split; [set_solver|split; [done|done]]|]).
  split; [set_solver|]. split; [done|].
  intros Hin. exfalso. vm_compute organizer_extensions in Hin.
  unfold str_in in Hin. apply existsb_exists in Hin as (y & Hy & Heq).
  apply String.eqb_eq in Heq. subst y.
  repeat (destruct Hy as [Hy|Hy]; [congruence|]). done.
Qed.

(** The enumeration [listdir] yields the children of the directory. *)
Lemma listdir_children (fs : FS) (d p : path) :
  p ∈ listdir fs d <-> exists name, p = d // name /\ is_Some (fs !! p).
Proof.
  unfold listdir. rewrite list_elem_of_In, List.filter_In, <- list_elem_of_In.
  rewrite bool_decide_eq_true, list_elem_of_fmap. split.
  - intros [([q n] & -> & Hin) [Hne Hpar]]. cbn in *.
    apply elem_of_map_to_list in Hin.
    destruct q as [|name q']; [done|]. cbn in Hpar. subst q'.
    exists name. split; [done|]. by exists n.
  - intros (name & -> & [n Hn]). split; [|done].
    exists (d // name, n). split; [done|]. by apply elem_of_map_to_list.
Qed.

(** [scan] is not recursive and lists each file once. When the enumeration
    yields the children of a directory, [scan] returns, without touching
    anything, exactly the regular files directly inside the source directory
    that the organizer recognizes, each once; and nothing when the source is
    no directory. *)
Theorem scan_lists_recognized_files `{DirEnum} (k : organizer_kind)
    (cfg : Config) (source_dir : path) (w : World) :
  (forall fs d p,
     p ∈ iterdir fs d <-> exists name, p = d // name /\ is_Some (fs !! p)) ->
  exists found,
    scan (organizer_extensions cfg k) source_dir w = (Returns found, w) /\
    NoDup found /\
    forall f,
      f ∈ found <->
      files w !! source_dir = Some Dir /\
      exists name c,
        f = source_dir // name /\ files w !! f = Some (File c) /\
        is_kind k cfg f = true.
Proof.
  intros Hiter. eexists. split; [reflexivity|].
  unfold fs_is_dir.
  destruct (files w !! source_dir) as [[c|]|] eqn:Hsrc.
  1,3: split; [constructor|]; intros f; split;
    [by intros ?%elem_of_nil|by intros [? _]].
  split; [apply list_filter_NoDup, iterdir_NoDup|].
  intros f. rewrite list_elem_of_In, List.filter_In, <- list_elem_of_In.
  rewrite Hiter, andb_true_iff. unfold fs_is_file. fold (is_kind k cfg f).
  split.
  - intros [(name & -> & _) [Hfile Hk]]. split; [done|].
    destruct (files w !! (source_dir // name)) as [[c|]|] eqn:Hf; try done.
    by exists name, c.
  - intros [_ (name & c & -> & Hf & Hk)]. rewrite Hf.
    split; [|done]. exists name. split; [done|]. eauto.
Qed.

Lemma scan_lists_recognized_files_witness :
  exists found,
    scan (H := listdir_enum) (organizer_extensions DEFAULT_CONFIG PhotoOrganizer)
      inbox inbox_world
    = (Returns found, inbox_world) /\
    NoDup found /\
    forall f,
      f ∈ found <->
      files inbox_world !! inbox = Some Dir /\
      exists name c,
        f = inbox // name /\ files inbox_world !! f = Some (File c) /\
        is_kind PhotoOrganizer DEFAULT_CONFIG f = true.
Proof.
  apply (scan_lists_recognized_files (H := listdir_enum) PhotoOrganizer
           DEFAULT_CONFIG inbox inbox_world).
  apply listdir_children.
Defined.

(** ** The configuration *)

Section ExtensionMap.

Implicit Types (m : gmap string string) (x : string).

Lemma enter_extensions_lookup (name : string) (exts : list string) : forall m x,
  enter_extensions name exts m !! x
  = if bool_decide (x ∈ map str_lower exts) then Some name else m !! x.
Proof.
  unfold enter_extensions.
  induction exts as [|ext exts IH]; intros m x; cbn [fold_left map].
  - by rewrite bool_decide_eq_false_2 by apply not_elem_of_nil.
  - rewrite IH.
    destruct (decide (x ∈ map str_lower exts)) as [Hin|Hnot].
    + rewrite !bool_decide_eq_true_2; [done| |done]. by right.
    + rewrite (bool_decide_eq_false_2 _ Hnot).
      destruct (decide (x = str_lower ext)) as [->|Hne].
      * rewrite lookup_insert_eq. rewrite bool_decide_eq_true_2; [done|].
        by left.
      * rewrite lookup_insert_ne by done.
        rewrite bool_decide_eq_false_2; [done|].
        intros [?|?]%elem_of_cons; done.
Qed.

Lemma enter_categories_untouched (items : list (string * CategoryData)) :
  forall m x,
  (forall item, item ∈ items -> x ∉ map str_lower (extensions item.2)) ->
  fold_left (fun m' (item : string * CategoryData) =>
               enter_extensions item.1 (extensions item.2) m') items m !! x
  = m !! x.
Proof.
  induction items as [|item items IH]; intros m x Hno; [done|].
  cbn [fold_left]. rewrite IH.
  - rewrite enter_extensions_lookup.
    rewrite bool_decide_eq_false_2; [done|]. apply Hno. by left.
  - intros item' Hin. apply Hno. by right.
Qed.

(** The last item of a list that satisfies a decidable property. *)
Lemma list_last_such {A} (P : A -> Prop) `{!forall a, Decision (P a)}
    (l : list A) :
  (exists a, a ∈ l /\ P a) ->
  exists l1 a l2, l = l1 ++ a :: l2 /\ P a /\ forall b, b ∈ l2 -> ~ P b.
Proof.
  induction l as [|a0 l IH]; intros (a & Hin & Ha).
  - by apply elem_of_nil in Hin.
  - destruct (decide (Exists P l)) as [Hex|Hno].
    + apply Exists_exists in Hex.
      destruct (IH Hex) as (l1 & b & l2 & -> & Hb & Hl2).
      by exists (a0 :: l1), b, l2.
    + rewrite Exists_exists in Hno.
      apply elem_of_cons in Hin as [->|Hin]; [|exfalso; eauto].
      exists [], a0, l. split; [done|]. split; [done|]. eauto.
Qed.

Lemma build_extension_map_lookup (cfg : Config) (x : string) :
  (_build_extension_map cfg !! x = None <->
   forall item, item ∈ categories cfg ->
     x ∉ map str_lower (extensions item.2)) /\
  (forall l1 item l2,
     categories cfg = l1 ++ item :: l2 ->
     x ∈ map str_lower (extensions item.2) ->
     (forall item', item' ∈ l2 ->
        x ∉ map str_lower (extensions item'.2)) ->
     _build_extension_map cfg !! x = Some item.1).
Proof.
  assert (Hlast : forall l1 item l2,
            categories cfg = l1 ++ item :: l2 ->
            x ∈ map str_lower (extensions item.2) ->
            (forall item', item' ∈ l2 ->
               x ∉ map str_lower (extensions item'.2)) ->
            _build_extension_map cfg !! x = Some item.1).
  { intros l1 item l2 Hcats Hin Hno. unfold _build_extension_map.
    rewrite Hcats, fold_left_app. cbn [fold_left].
    rewrite enter_categories_untouched by done.
    rewrite enter_extensions_lookup.
    by rewrite bool_decide_eq_true_2. }
  split; [|exact Hlast]. split.
  - intros Hnone item Hitem Hin.
    destruct (list_last_such
                (fun it : string * CategoryData =>
                   x ∈ map str_lower (extensions it.2)) (categories cfg))
      as (l1 & it & l2 & Hcats & Hit & Hl2); [eauto|].
    rewrite (Hlast l1 it l2) in Hnone; done.
  - intros Hno. unfold _build_extension_map.
    by rewrite enter_categories_untouched.
Qed.

End ExtensionMap.

(** The extension map of a configuration built by [from_dict]. An
    extension is looked up in lower case; it maps to no category exactly
    when no category lists it, case apart; and when several categories list
    it, to the one that comes last in the configuration. *)
Theorem extension_map_last_category_wins
    (cats : list (string * CategoryData)) (ext : string) :
  let c := from_dict (Some cats) in
  (get_category_for_extension c ext = None <->
   forall name cat_data, (name, cat_data) ∈ cats ->
     str_lower ext ∉ map str_lower (extensions cat_data)) /\
  (forall l1 name cat_data l2,
     cats = l1 ++ (name, cat_data) :: l2 ->
     str_lower ext ∈ map str_lower (extensions cat_data) ->
     (forall name' cat_data', (name', cat_data') ∈ l2 ->
        str_lower ext ∉ map str_lower (extensions cat_data')) ->
     get_category_for_extension c ext = Some name) /\
  get_category_for_extension c (str_lower ext)
  = get_category_for_extension c ext.
Proof.
  cbn zeta. unfold get_category_for_extension, from_dict.
  cbn [_extension_map config_of].
  destruct (build_extension_map_lookup {| categories := cats |} (str_lower ext))
    as [Hnone Hlast].
  cbn [categories] in *. split; [|split].
  - rewrite Hnone. split.
    + intros Hall name cat_data. apply (Hall (name, cat_data)).
    + intros Hall [name cat_data]. apply Hall.
  - intros l1 name cat_data l2 Hcats Hin Hno.
    apply (Hlast l1 (name, cat_data) l2 Hcats Hin).
    intros [name' cat_data']. apply Hno.
  - by rewrite str_lower_idemp.
Qed.

Section Dicts.

Context {V : Type}.
Implicit Types (d u : list (string * V)) (k : string) (v : V).

Lemma dict_get_set d k v k' :
  dict_get (dict_set d k v) k'
  = if decide (k = k') then Some v else dict_get d k'.
Proof.
  induction d as [|[k0 v0] d IH]; cbn [dict_set dict_get].
  - by destruct (decide (k = k')).
  - destruct (decide (k0 = k)) as [->|Hne]; cbn [dict_get].
    + by destruct (decide (k = k')).
    + rewrite IH. destruct (decide (k0 = k')) as [->|]; [|done].
      by destruct (decide (k = k')).
Qed.

Lemma dict_get_snoc d k v k' :
  dict_get (d ++ [(k, v)]) k'
  = match dict_get d k' with
    | Some v' => Some v'
    | None => if decide (k = k') then Some v else None
    end.
Proof.
  induction d as [|[k0 v0] d IH]; cbn [app dict_get]; [done|].
  by destruct (decide (k0 = k')).
Qed.

(** After [d.update(u)] a key holds what the last item of [u] for it says,
    and else what it held. *)
Lemma dict_get_update u : forall d k,
  dict_get (dict_update d u) k
  = match dict_get (rev u) k with
    | Some v => Some v
    | None => dict_get d k
    end.
Proof.
  unfold dict_update.
  induction u as [|[k0 v0] u IH]; intros d k; cbn [fold_left rev]; [done|].
  rewrite IH, dict_get_snoc, dict_get_set. cbn [fst snd].
  destruct (dict_get (rev u) k); [done|]. by destruct (decide (k0 = k)).
Qed.

Lemma dict_get_Some_elem d k v : dict_get d k = Some v -> (k, v) ∈ d.
Proof.
  induction d as [|[k0 v0] d IH]; cbn [dict_get]; [done|].
  destruct (decide (k0 = k)) as [->|].
  - intros [= ->]. by left.
  - intros Hd. right. auto.
Qed.

Lemma dict_get_None d k : dict_get d k = None <-> k ∉ d.*1.
Proof.
  induction d as [|[k0 v0] d IH]; cbn [dict_get fmap list_fmap fst].
  - split; [intros _; apply not_elem_of_nil|done].
  - rewrite not_elem_of_cons. destruct (decide (k0 = k)) as [->|Hne].
    + split; [done|]. by intros [? _].
    + rewrite IH. split; [by split|by intros [_ ?]].
Qed.

Lemma dict_get_elem d k v : NoDup d.*1 -> (k, v) ∈ d -> dict_get d k = Some v.
Proof.
  induction d as [|[k0 v0] d IH]; intros Hnd Hin;
    [by apply elem_of_nil in Hin|].
  cbn [fmap list_fmap fst] in Hnd. apply NoDup_cons in Hnd as [Hk0 Hnd].
  cbn [dict_get]. apply elem_of_cons in Hin as [[= <- <-]|Hin].
  - by destruct (decide (k = k)).
  - destruct (decide (k0 = k)) as [->|]; [|auto].
    exfalso. apply Hk0. apply list_elem_of_fmap. by exists (k, v).
Qed.

(** For a dictionary proper, whose keys are distinct, the order of the
    items does not matter to a lookup. *)
Lemma dict_get_rev u k : NoDup u.*1 -> dict_get (rev u) k = dict_get u k.
Proof.
  intros Hnd.
  assert (Hp : rev u ≡ₚ u) by (symmetry; apply Permutation_rev).
  destruct (dict_get u k) as [v|] eqn:E.
  - apply dict_get_elem; [by rewrite Hp|]. rewrite Hp.
    by apply dict_get_Some_elem.
  - apply dict_get_None. rewrite Hp. by apply dict_get_None.
Qed.

Lemma dict_set_keys d k v :
  (dict_set d k v).*1 = if decide (k ∈ d.*1) then d.*1 else d.*1 ++ [k].
Proof.
  induction d as [|[k0 v0] d IH]; cbn [dict_set fmap list_fmap fst app].
  - rewrite decide_False by apply not_elem_of_nil. done.
  - destruct (decide (k0 = k)) as [->|Hne]; cbn [fmap list_fmap fst].
    + rewrite decide_True by left. done.
    + fold (fmap (M := list) (@fst string V)). rewrite IH.
      destruct (decide (k ∈ d.*1)) as [Hin|Hnot].
      * rewrite decide_True by (by right). done.
      * rewrite decide_False; [done|].
        intros [?|?]%elem_of_cons; done.
Qed.

(** [update] keeps the keys there were, in their order, at the front. *)
Lemma dict_update_keys u : forall d,
  exists rest, (dict_update d u).*1 = d.*1 ++ rest.
Proof.
  unfold dict_update.
  induction u as [|[k0 v0] u IH]; intros d; cbn [fold_left fst snd].
  - exists []. by rewrite app_nil_r.
  - destruct (IH (dict_set d k0 v0)) as [rest Hrest]. rewrite Hrest.
    rewrite dict_set_keys.
    destruct (decide _); [eauto|]. rewrite <- app_assoc. eauto.
Qed.

End Dicts.

(** [load_config] lays the user's categories over the defaults. When the
    configuration file is a regular file that the parser reads, a category
    the file defines is taken from the file as a whole, with nothing of the
    default category of that name left; every other default category stays
    as it is. The three default categories come first, in their order, so a
    loaded configuration always has the three dedicated organizers. *)
Theorem load_config_overlays_defaults
    (yaml_safe_load : content -> option yaml_doc) (config_path : path)
    (fs : FS) (c : content) (doc : yaml_doc) :
  let user := match doc with
              | YamlMapping (Some cats) => cats
              | _ => []
              end in
  fs !! config_path = Some (File c) ->
  yaml_safe_load c = Some doc ->
  NoDup user.*1 ->
  exists obj,
    load_config yaml_safe_load config_path fs = Some obj /\
    _extension_map obj = _build_extension_map (config_of obj) /\
    (forall name,
       dict_get (categories (config_of obj)) name
       = match dict_get user name with
         | Some cat_data => Some cat_data
         | None => dict_get (categories DEFAULT_CONFIG) name
         end) /\
    (exists rest,
       (categories (config_of obj)).*1
       = ["photos"; "documents"; "downloads"] ++ rest) /\
    _build_organizers (config_of obj)
    = [ ("photos", PhotoOrganizer); ("documents", DocumentOrganizer);
        ("downloads", DownloadsOrganizer) ].
Proof.
  cbn zeta. intros Hfile Hparse Hnd.
  set (user := match doc with
               | YamlMapping (Some cats) => cats
               | _ => []
               end) in *.
  exists (from_dict (Some (dict_update (categories DEFAULT_CONFIG) user))).
  assert (Hget : forall name,
            dict_get (dict_update (categories DEFAULT_CONFIG) user) name
            = match dict_get user name with
              | Some cat_data => Some cat_data
              | None => dict_get (categories DEFAULT_CONFIG) name
              end).
  { intros name. by rewrite dict_get_update, dict_get_rev. }
  split; [|split; [done|split; [exact Hget|split]]].
  - unfold load_config, fs_exists. rewrite Hfile, Hparse. done.
  - apply dict_update_keys.
  - unfold _build_organizers. cbn [from_dict config_of categories List.filter fst].
    rewrite !Hget.
    repeat (rewrite bool_decide_eq_true_2;
            [|destruct (dict_get user _); [eauto|vm_compute; eauto]]).
    done.
Qed.

Lemma load_config_overlays_defaults_witness :
  exists obj,
    load_config settings_parser settings_file (files settings_world) = Some obj /\
    _extension_map obj = _build_extension_map (config_of obj) /\
    (forall name,
       dict_get (categories (config_of obj)) name
       = match dict_get settings name with
         | Some cat_data => Some cat_data
         | None => dict_get (categories DEFAULT_CONFIG) name
         end) /\
    (exists rest,
       (categories (config_of obj)).*1
       = ["photos"; "documents"; "downloads"] ++ rest) /\
    _build_organizers (config_of obj)
    = [ ("photos", PhotoOrganizer); ("documents", DocumentOrganizer);
        ("downloads", DownloadsOrganizer) ].
Proof.
  apply (load_config_overlays_defaults settings_parser settings_file
           (files settings_world) (Raw [x63]) (YamlMapping (Some settings))).
  - vm_compute. reflexivity.
  - reflexivity.
  - apply (bool_decide_unpack _). vm_compute. exact I.
Defined.

Section Filters.

Context {A : Type} (P Q : A -> Prop) `{!forall x, Decision (P x)}
  `{!forall x, Decision (Q x)}.

Lemma filter_ext_elem (l : list A) :
  (forall x, x ∈ l -> P x <-> Q x) -> filter P l = filter Q l.
Proof.
  induction l as [|a l IH]; intros Hpq; [done|].
  rewrite !filter_cons. rewrite IH by (intros x Hx; apply Hpq; by right).
  destruct (decide (P a)) as [Hp|Hp], (decide (Q a)) as [Hq|Hq]; try done;
    exfalso; apply (Hpq a ltac:(left)) in Hp || apply (Hpq a ltac:(left)) in Hq;
    done.
Qed.

Lemma filter_all (l : list A) : (forall x, x ∈ l -> P x) -> filter P l = l.
Proof.
  induction l as [|a l IH]; intros Hp; [done|].
  rewrite filter_cons, decide_True by (apply Hp; left).
  f_equal. apply IH. intros x Hx. apply Hp. by right.
Qed.

Lemma filter_none (l : list A) : (forall x, x ∈ l -> ~ P x) -> filter P l = [].
Proof.
  induction l as [|a l IH]; intros Hp; [done|].
  rewrite filter_cons, decide_False by (apply Hp; left).
  apply IH. intros x Hx. apply Hp. by right.
Qed.

End Filters.

Section DictOrder.

Context {V : Type}.
Implicit Types (d u : list (string * V)) (k : string) (v : V).

(** The keys after [d.update(u)], for a dictionary [u]: those of [d], then
    the new ones in the order of [u]. *)
Lemma dict_update_keys_exact u : forall d,
  NoDup u.*1 ->
  (dict_update d u).*1 = d.*1 ++ filter (fun k => k ∉ d.*1) u.*1.
Proof.
  unfold dict_update.
  induction u as [|[k0 v0] u IH]; intros d Hnd; cbn [fold_left fst snd].
  - cbn. by rewrite app_nil_r.
  - cbn [fmap list_fmap fst] in Hnd. apply NoDup_cons in Hnd as [Hk0 Hnd].
    rewrite IH by done. rewrite dict_set_keys.
    cbn [fmap list_fmap fst]. rewrite filter_cons.
    destruct (decide (k0 ∈ d.*1)) as [Hin|Hnot].
    + rewrite decide_False by tauto. done.
    + rewrite decide_True by done. rewrite <- app_assoc. cbn [app].
      do 2 f_equal. apply filter_ext_elem.
      intros k Hk. rewrite elem_of_app, list_elem_of_singleton.
      split; [tauto|]. intros Hkd [?| ->]; done.
Qed.

(** Two dictionaries with the same keys in the same order and the same
    value under every key are the same. *)
Lemma dict_ext d u :
  d.*1 = u.*1 -> NoDup d.*1 ->
  (forall k, dict_get d k = dict_get u k) -> d = u.
Proof.
  revert u. induction d as [|[k0 v0] d IH]; intros [|[k1 v1] u] Hkeys Hnd Hget;
    try done.
  cbn [fmap list_fmap fst] in Hkeys, Hnd. injection Hkeys as -> Hkeys.
  apply NoDup_cons in Hnd as [Hk1 Hnd].
  pose proof (Hget k1) as H1. cbn [dict_get] in H1.
  destruct (decide (k1 = k1)); [|done]. injection H1 as ->.
  f_equal. apply IH; [done..|].
  intros k. specialize (Hget k). cbn [dict_get] in Hget.
  destruct (decide (k1 = k)) as [<-|]; [|done].
  transitivity (@None V); [|symmetry].
  - by apply dict_get_None.
  - apply dict_get_None. by rewrite <- Hkeys.
Qed.

(** Laying a dictionary over another whose keys it has, in their order, at
    its front gives the dictionary itself. *)
Lemma dict_update_same_front d u (rest : list string) :
  NoDup u.*1 -> NoDup d.*1 -> u.*1 = d.*1 ++ rest -> dict_update d u = u.
Proof.
  intros Hu Hd Hkeys.
  assert (Hk : (dict_update d u).*1 = u.*1).
  { rewrite dict_update_keys_exact by done. rewrite Hkeys.
    rewrite filter_app. rewrite Hkeys in Hu. apply NoDup_app in Hu as (_ & Hsep & _).
    rewrite filter_none, filter_all; [done| |].
    - intros k Hk Hin. by apply (Hsep k).
    - intros k Hk. tauto. }
  apply dict_ext; [done|by rewrite Hk|].
  intros k. rewrite dict_get_update, dict_get_rev by done.
  destruct (dict_get u k) eqn:E; [done|].
  apply dict_get_None. apply dict_get_None in E. rewrite Hkeys in E.
  intros Hin. apply E, elem_of_app. by left.
Qed.

End DictOrder.
(** ** What a batch reports *)

Section Reports.

Context `{DirEnum}.

(** What a relocation that returns has done to the counters. *)
Lemma resolve_and_move_stats (dest_dir dest f : path) (st st' : Stats)
    (w w' : World) :
  resolve_and_move dest_dir dest f st w = (Returns st', w') ->
  exists final dups,
    st' = {| moved := S (moved st); would_move := would_move st;
             duplicates := dups; entries := entries st ++ [(f, final)] |} /\
    (duplicates st <= dups <= S (duplicates st))%nat.
Proof.
  unfold resolve_and_move. intros Hrun.
  apply bind_returns in Hrun as (ex & w1 & _ & Hrun).
  apply bind_returns in Hrun as (final & w2 & _ & Hrun).
  apply bind_returns in Hrun as ([] & w3 & _ & Hret).
  apply ret_returns in Hret as [-> _].
  eexists _, _. split; [reflexivity|]. destruct ex; lia.
Qed.

Lemma stats_consistent_moved (st : Stats) (f final : path) (dups : nat) :
  stats_consistent false st ->
  (duplicates st <= dups <= S (duplicates st))%nat ->
  stats_consistent false
    {| moved := S (moved st); would_move := would_move st;
       duplicates := dups; entries := entries st ++ [(f, final)] |}.
Proof.
  intros (Hm & Hd & Hw) Hdups. split; [|split]; cbn.
  - rewrite length_app. cbn. lia.
  - lia.
  - done.
Qed.

Lemma stats_consistent_counted (st : Stats) :
  stats_consistent true st -> stats_consistent true (count_would_move st).
Proof. by intros (? & ? & ?). Qed.

Lemma stats_consistent_none (dry_run : bool) : stats_consistent dry_run no_stats.
Proof. split; [done|]. split; [done|]. by destruct dry_run. Qed.

Lemma organizer_organize_consistent (k : organizer_kind) (cfg : Config)
    (source_dir target : path) (dry_run : bool) (w w' : World) (st : Stats) :
  organizer_organize k cfg source_dir target dry_run w = (Returns st, w') ->
  stats_consistent dry_run st.
Proof.
  unfold organizer_organize. intros Hrun.
  apply bind_returns in Hrun as (found & w1 & _ & Hloop).
  eapply (for_each_returns _ (fun _ s _ => stats_consistent dry_run s));
    [|apply stats_consistent_none|exact Hloop].
  clear. intros x _ s w s' w' Hs Hstep. unfold organizer_step in Hstep.
  apply bind_returns in Hstep as (sub & w1 & _ & Hstep).
  destruct dry_run.
  - apply ret_returns in Hstep as [-> _]. by apply stats_consistent_counted.
  - apply bind_returns in Hstep as ([] & w2 & _ & Hstep).
    apply resolve_and_move_stats in Hstep as (final & dups & -> & Hdups).
    by apply stats_consistent_moved.
Qed.

Lemma organize_generic_consistent (source_dir target : path)
    (exts : list string) (dry_run : bool) (w w' : World) (st : Stats) :
  _organize_generic source_dir target exts dry_run w = (Returns st, w') ->
  stats_consistent dry_run st.
Proof.
  unfold _organize_generic. intros Hrun.
  apply bind_returns in Hrun as (isd & w1 & _ & Hrun).
  destruct (negb isd).
  { apply ret_returns in Hrun as [-> _]. apply stats_consistent_none. }
  apply bind_returns in Hrun as ([] & w2 & _ & Hrun).
  apply bind_returns in Hrun as (listing & w3 & _ & Hloop).
  eapply (for_each_returns _ (fun _ s _ => stats_consistent dry_run s));
    [|apply stats_consistent_none|exact Hloop].
  clear. intros x _ s w s' w' Hs Hstep. unfold generic_step in Hstep.
  apply bind_returns in Hstep as (isf & w1 & _ & Hstep).
  destruct (negb isf); [by apply ret_returns in Hstep as [-> _]|].
  destruct (negb _); [by apply ret_returns in Hstep as [-> _]|].
  destruct dry_run.
  - apply ret_returns in Hstep as [-> _]. by apply stats_consistent_counted.
  - apply resolve_and_move_stats in Hstep as (final & dups & -> & Hdups).
    by apply stats_consistent_moved.
Qed.

(** The names of the dedicated organizers are their categories. *)
Lemma build_organizers_names (cfg : Config) (name : string)
    (k : organizer_kind) :
  (name, k) ∈ _build_organizers cfg ->
  name = category_of k /\ is_Some (dict_get (categories cfg) name).
Proof.
  unfold _build_organizers. intros Hin.
  apply list_elem_of_In, List.filter_In in Hin as [Hin Hsome].
  apply bool_decide_eq_true in Hsome. cbn in Hsome. split; [|done].
  cbn in Hin. destruct Hin as [[= <- <-]|[[= <- <-]|[[= <- <-]|[]]]]; done.
Qed.

Lemma batch_reported_record (dry_run : bool) (names : list string)
    (cat_name : string) (st : Stats) (b b' : Batch) (w w' : World) :
  batch_reported dry_run names b ->
  stats_consistent dry_run st ->
  record_results cat_name st b w = (Returns b', w') ->
  batch_reported dry_run (names ++ [cat_name]) b'.
Proof.
  intros (Hn & Hm & Hw & Hall) Hst Hrec.
  apply record_results_returns in Hrec as (_ & _ & Htm & Htw & Hcr).
  unfold batch_reported. rewrite Hcr. split; [|split; [|split]].
  - by rewrite fmap_app, Hn.
  - rewrite sum_list_with_app, Htm, Hm. cbn. lia.
  - rewrite sum_list_with_app, Htw, Hw. cbn. lia.
  - apply Forall_app. split; [done|]. by constructor.
Qed.

End Reports.

Section ReportLoops.

Context `{DirEnum}.

Variables (cfg : Config) (base_target source_dir : path) (dry_run : bool)
  (selected : option (list string)).

Lemma dedicated_loop_reported (items : list (string * organizer_kind))
    (b b' : Batch) (w w' : World) (names : list string) :
  batch_reported dry_run names b ->
  for_each (dedicated_step cfg base_target source_dir dry_run selected)
           items b w = (Returns b', w') ->
  batch_reported dry_run (names ++ filter (selects selected) items.*1) b'.
Proof.
  intros Hb Hrun.
  set (I := fun (rest : list (string * organizer_kind)) (s : Batch)
                (_ : World) =>
              exists done,
                batch_reported dry_run done s /\
                done ++ filter (selects selected) rest.*1
                = names ++ filter (selects selected) items.*1).
  assert (HI : I [] b' w').
  { eapply (for_each_returns _ I); [|by exists names|exact Hrun].
    clear. intros [cat_name organizer] rest s w s' w' (done & Hs & Hnames) Hstep.
    unfold dedicated_step in Hstep. cbn [fmap list_fmap fst] in Hnames.
    rewrite filter_cons in Hnames.
    destruct (filtered_out selected cat_name) eqn:Hsel.
    - apply ret_returns in Hstep as [-> _]. exists done.
      rewrite decide_False in Hnames; [done|]. unfold selects. congruence.
    - rewrite decide_True in Hnames by done.
      apply bind_returns in Hstep as (st & w1 & Horg & Hrec).
      apply organizer_organize_consistent in Horg.
      exists (done ++ [cat_name]). split.
      + by apply (batch_reported_record _ _ _ st s s' w1 w').
      + by rewrite <- app_assoc. }
  destruct HI as (done & Hb' & Hnames). cbn in Hnames.
  by rewrite app_nil_r in Hnames; subst done.
Qed.

Lemma generic_loop_reported (items : list (string * CategoryData))
    (b b' : Batch) (w w' : World) (names : list string) :
  batch_reported dry_run names b ->
  for_each (generic_category_step cfg base_target source_dir dry_run selected)
           items b w = (Returns b', w') ->
  batch_reported dry_run
    (names ++ filter (fun name => selects selected name /\
                                  dict_get (_build_organizers cfg) name = None)
                     items.*1) b'.
Proof.
  intros Hb Hrun.
  set (P := fun name => selects selected name /\
                        dict_get (_build_organizers cfg) name = None).
  set (I := fun (rest : list (string * CategoryData)) (s : Batch)
                (_ : World) =>
              exists done,
                batch_reported dry_run done s /\
                done ++ filter P rest.*1 = names ++ filter P items.*1).
  assert (HI : I [] b' w').
  { eapply (for_each_returns _ I); [|by exists names|exact Hrun].
    clear. intros [cat_name cat_data] rest s w s' w' (done & Hs & Hnames) Hstep.
    unfold generic_category_step in Hstep. cbn [fmap list_fmap fst] in Hnames.
    rewrite filter_cons in Hnames. unfold P at 1 in Hnames.
    destruct (bool_decide _) eqn:Hded.
    { apply ret_returns in Hstep as [-> _]. exists done.
      apply bool_decide_eq_true in Hded as [k Hk].
      rewrite decide_False in Hnames; [done|]. intros [_ Hnone]. congruence. }
    apply bool_decide_eq_false in Hded.
    assert (Hnone : dict_get (_build_organizers cfg) cat_name = None).
    { clear -Hded. destruct (dict_get _ _); [by destruct Hded|done]. }
    destruct (filtered_out selected cat_name) eqn:Hsel.
    - apply ret_returns in Hstep as [-> _]. exists done.
      rewrite decide_False in Hnames; [done|]. unfold selects.
      intros [? _]. congruence.
    - rewrite decide_True in Hnames by done.
      apply bind_returns in Hstep as (st & w1 & Horg & Hrec).
      apply organize_generic_consistent in Horg.
      exists (done ++ [cat_name]). split.
      + by apply (batch_reported_record _ _ _ st s s' w1 w').
      + by rewrite <- app_assoc. }
  destruct HI as (done & Hb' & Hnames). cbn in Hnames.
  by rewrite app_nil_r in Hnames; subst done.
Qed.

(** A batch that returns reports its categories in processing order, with
    totals that add up and counters that are consistent. *)
Lemma organize_reported (w w' : World) (r : Report) :
  organize cfg base_target source_dir dry_run selected w = (Returns r, w') ->
  (report_categories r).*1 = processing_order cfg selected /\
  report_total_moved r
  = sum_list_with (fun x => moved x.2) (report_categories r) /\
  report_total_would_move r
  = sum_list_with (fun x => would_move x.2) (report_categories r) /\
  Forall (fun x => stats_consistent dry_run x.2) (report_categories r).
Proof.
  unfold organize. intros Hrun.
  apply bind_returns in Hrun as (b1 & w1 & Hded & Hrun).
  apply bind_returns in Hrun as (b2 & w2 & Hgen & Hrun).
  apply bind_returns in Hrun as ([] & w3 & _ & Hret).
  apply ret_returns in Hret as [-> _].
  cbn [report_total_moved report_total_would_move report_categories].
  assert (Hb0 : batch_reported dry_run [] new_batch).
  { by repeat split. }
  pose proof (dedicated_loop_reported _ _ _ _ _ _ Hb0 Hded) as Hb1.
  exact (generic_loop_reported _ _ _ _ _ _ Hb1 Hgen).
Qed.

End ReportLoops.

(** The report of a batch lists the categories in the order in which they
    were processed: the categories that have a dedicated organizer first
    (photos, documents, downloads, those the configuration has), then the
    other categories in the order of the configuration; a category left out
    by the selection is not reported. *)
Theorem report_follows_processing_order `{DirEnum} (cfg : Config)
    (base_target source_dir : path) (dry_run : bool)
    (selected : option (list string)) (w w' : World) (r : Report) :
  organize cfg base_target source_dir dry_run selected w = (Returns r, w') ->
  (report_categories r).*1 = processing_order cfg selected.
Proof. intros Hrun. by apply organize_reported in Hrun as [Horder _]. Qed.

Lemma report_follows_processing_order_witness :
  (report_categories inbox_report).*1 = processing_order DEFAULT_CONFIG None.
Proof.
  apply (report_follows_processing_order (H := listdir_enum) DEFAULT_CONFIG
           sorted inbox false None inbox_world inbox_run.2 inbox_report).
  vm_compute. reflexivity.
Defined.

(** The totals of a report are the sums of the counters of its categories,
    and the counters of each category are consistent: as many files moved as
    entries recorded, no more duplicates than files moved, nothing moved in a
    dry run and nothing counted as would-move in an execute run. *)
Theorem report_totals_add_up `{DirEnum} (cfg : Config)
    (base_target source_dir : path) (dry_run : bool)
    (selected : option (list string)) (w w' : World) (r : Report) :
  organize cfg base_target source_dir dry_run selected w = (Returns r, w') ->
  report_total_moved r
  = sum_list_with (fun x => moved x.2) (report_categories r) /\
  report_total_would_move r
  = sum_list_with (fun x => would_move x.2) (report_categories r) /\
  Forall (fun x => stats_consistent dry_run x.2) (report_categories r).
Proof. intros Hrun. by apply organize_reported in Hrun as [_ Hsums]. Qed.

Lemma report_totals_add_up_witness :
  report_total_moved inbox_report
  = sum_list_with (fun x => moved x.2) (report_categories inbox_report) /\
  report_total_would_move inbox_report
  = sum_list_with (fun x => would_move x.2) (report_categories inbox_report) /\
  Forall (fun x => stats_consistent false x.2) (report_categories inbox_report).
Proof.
  apply (report_totals_add_up (H := listdir_enum) DEFAULT_CONFIG
           sorted inbox false None inbox_world inbox_run.2 inbox_report).
  vm_compute. reflexivity.
Defined.

Section MissingSource.

Context `{DirEnum}.

Variables (cfg : Config) (base_target source_dir : path) (dry_run : bool)
  (selected : option (list string)) (w : World).

Hypothesis Hsource : fs_is_dir (files w) source_dir = false.

Lemma organizer_organize_missing (k : organizer_kind) (target : path) :
  organizer_organize k cfg source_dir target dry_run w = (Returns no_stats, w).
Proof.
  unfold organizer_organize, scan, bind, fs_get. by rewrite Hsource.
Qed.

Lemma organize_generic_missing (target : path) (exts : list string) :
  _organize_generic source_dir target exts dry_run w = (Returns no_stats, w).
Proof.
  unfold _organize_generic, bind, path_is_dir, fs_get. by rewrite Hsource.
Qed.

Lemma record_results_idle (cat_name : string) (b : Batch) :
  idle b ->
  exists b', record_results cat_name no_stats b w = (Returns b', w) /\ idle b'.
Proof.
  intros (Hm & Hw & Hall). eexists. split; [reflexivity|].
  split; [|split]; cbn; [lia..|].
  apply Forall_app. split; [done|]. by constructor.
Qed.

Lemma for_each_steady {A S} (body : S -> A -> M S) (J : S -> Prop)
    (l : list A) :
  (forall s x, J s -> exists s', body s x w = (Returns s', w) /\ J s') ->
  forall s, J s -> exists s', for_each body l s w = (Returns s', w) /\ J s'.
Proof.
  intros Hbody. induction l as [|x l IH]; intros s Hs; cbn [for_each].
  - by exists s.
  - destruct (Hbody s x Hs) as (s1 & Hrun & Hs1).
    destruct (IH s1 Hs1) as (s2 & Hrest & Hs2).
    exists s2. unfold bind. by rewrite Hrun.
Qed.

(** A source that is no directory. In either mode the batch returns a
    report of zeros, with empty counters for every category it went through,
    and leaves the world as it found it: no directory is made and no ledger
    written. *)
Theorem missing_source_directory_is_no_op :
  exists r,
    organize cfg base_target source_dir dry_run selected w = (Returns r, w) /\
    report_total_moved r = 0%nat /\
    report_total_would_move r = 0%nat /\
    Forall (fun x => x.2 = no_stats) (report_categories r).
Proof.
  destruct (for_each_steady
              (dedicated_step cfg base_target source_dir dry_run selected)
              idle (_build_organizers cfg)) with (s := new_batch)
    as (b1 & Hded & Hb1).
  { intros b [cat_name organizer] Hb. unfold dedicated_step.
    destruct (filtered_out _ _); [by exists b|].
    unfold bind. rewrite organizer_organize_missing.
    by apply record_results_idle. }
  { by repeat split. }
  destruct (for_each_steady
              (generic_category_step cfg base_target source_dir dry_run
                 selected)
              idle (categories cfg)) with (s := b1)
    as (b2 & Hgen & (Hm & Hw & Hall)); [|done|].
  { intros b [cat_name cat_data] Hb. unfold generic_category_step.
    destruct (bool_decide _); [by exists b|].
    destruct (filtered_out _ _); [by exists b|].
    unfold bind. rewrite organize_generic_missing.
    by apply record_results_idle. }
  eexists. split; [|split; [|split]].
  - unfold organize, bind at 1. rewrite Hded. unfold bind at 1. rewrite Hgen.
    rewrite Hm. rewrite andb_false_r. reflexivity.
  - done.
  - done.
  - done.
Qed.

End MissingSource.

Lemma missing_source_directory_is_no_op_witness :
  exists r,
    organize (H := listdir_enum) DEFAULT_CONFIG sorted (root // "nowhere") false
      None inbox_world
    = (Returns r, inbox_world) /\
    report_total_moved r = 0%nat /\
    report_total_would_move r = 0%nat /\
    Forall (fun x => x.2 = no_stats) (report_categories r).
Proof.
  apply (missing_source_directory_is_no_op (H := listdir_enum) DEFAULT_CONFIG
           sorted (root // "nowhere") false None inbox_world).
  vm_compute. reflexivity.
Defined.

(** ** What a batch does to the files *)

Section Conservation.

(** The steps of a batch relocate the regular files one to one: each
    regular file there was lies, with its content, at one path afterwards,
    two files at two paths, and every regular file there is afterwards is one
    of them. A file that is the source of no recorded relocation has not
    moved. *)
Lemma batch_steps_relocation (fs0 fs : FS) (es : list (path * path)) :
  batch_steps fs0 fs es ->
  exists loc : path -> path,
    (forall p c, fs0 !! p = Some (File c) -> fs !! loc p = Some (File c)) /\
    (forall p q c c',
       fs0 !! p = Some (File c) -> fs0 !! q = Some (File c') ->
       loc p = loc q -> p = q) /\
    (forall q c, fs !! q = Some (File c) ->
       exists p, fs0 !! p = Some (File c) /\ loc p = q) /\
    (forall p, p ∉ es.*1 -> loc p = p).
Proof.
  induction 1 as [|fs es d fs' Hsteps IH Hmk|fs es a b c Hsteps IH Ha Hb Hp].
  - exists (fun p => p). by eauto 10.
  - destruct IH as (loc & Hkeep & Hinj & Hsur & Hid).
    destruct (fs_mkdir_grows _ _ _ Hmk) as [[Hk Hf] _].
    exists loc. split; [|split; [done|split; [|done]]].
    + intros p cp Hp0. by apply Hk, Hkeep.
    + intros q cq Hq. by apply Hsur, Hf.
  - destruct IH as (loc & Hkeep & Hinj & Hsur & Hid).
    exists (fun p => if decide (loc p = a) then b else loc p).
    split; [|split; [|split]].
    + intros p cp Hp0. specialize (Hkeep p cp Hp0).
      destruct (decide (loc p = a)) as [Hpa|Hpa].
      * rewrite lookup_insert_eq. congruence.
      * rewrite lookup_insert_ne by congruence.
        by rewrite lookup_delete_ne.
    + intros p q cp cq Hp0 Hq0.
      pose proof (Hkeep p cp Hp0) as Hlp. pose proof (Hkeep q cq Hq0) as Hlq.
      destruct (decide (loc p = a)) as [Hpa|Hpa],
               (decide (loc q = a)) as [Hqa|Hqa]; intros Heq.
      * apply (Hinj p q cp cq); congruence.
      * congruence.
      * congruence.
      * by apply (Hinj p q cp cq).
    + intros q cq. rewrite lookup_insert. case_decide as Hqb.
      * subst q. intros [= <-]. destruct (Hsur a c Ha) as (p & Hp0 & Hlp).
        exists p. split; [done|]. by rewrite decide_True.
      * rewrite lookup_delete. case_decide as Hqa; [done|]. intros Hq.
        destruct (Hsur q cq Hq) as (p & Hp0 & Hlp).
        exists p. split; [done|]. rewrite decide_False; congruence.
    + intros p Hnot. rewrite fmap_app, not_elem_of_app in Hnot.
      destruct Hnot as [Hes Hpa]. cbn in Hpa.
      rewrite list_elem_of_singleton in Hpa.
      rewrite (Hid p Hes). by rewrite decide_False.
Qed.

End Conservation.

(** A batch loses no file. When an execute-mode batch returns, every
    regular file there was lies, with its content, at one path afterwards,
    and two files at two paths; a file that is the source of no reported
    relocation lies where it was; and every regular file there is afterwards
    is one of them. Only what lies at the path of the ledger file is left out
    of the account: the ledger is written there. *)
Theorem batch_loses_no_file `{DirEnum} (cfg : Config)
    (base_target source_dir : path) (selected : option (list string))
    (w w' : World) (r : Report) :
  organize cfg base_target source_dir false selected w = (Returns r, w') ->
  exists loc : path -> path,
    (forall p c, files w !! p = Some (File c) ->
       loc p <> manifest_path base_target ->
       files w' !! loc p = Some (File c)) /\
    (forall p q c c',
       files w !! p = Some (File c) -> files w !! q = Some (File c') ->
       loc p = loc q -> p = q) /\
    (forall q c, files w' !! q = Some (File c) ->
       q <> manifest_path base_target ->
       exists p, files w !! p = Some (File c) /\ loc p = q) /\
    (forall p, p ∉ (all_entries (report_categories r)).*1 -> loc p = p).
Proof.
  intros Hrun.
  apply organize_executed in Hrun
    as (m & fs2 & Hsteps & Hall & _ & Hfs).
  apply batch_steps_relocation in Hsteps as (loc & Hkeep & Hinj & Hsur & Hid).
  rewrite Hall in Hid. exists loc.
  assert (Hsame : forall q, q <> manifest_path base_target ->
                    files w' !! q = fs2 !! q).
  { intros q Hq. destruct Hfs as [[_ ->]|(_ & _ & ->)]; [done|].
    by rewrite lookup_insert_ne. }
  split; [|split; [done|split; [|done]]].
  - intros p c Hp Hne. rewrite Hsame by done. by apply Hkeep.
  - intros q c Hq Hne. rewrite Hsame in Hq by done. by apply Hsur.
Qed.

Lemma batch_loses_no_file_witness :
  exists loc : path -> path,
    (forall p c, files inbox_world !! p = Some (File c) ->
       loc p <> manifest_path sorted ->
       files inbox_run.2 !! loc p = Some (File c)) /\
    (forall p q c c',
       files inbox_world !! p = Some (File c) ->
       files inbox_world !! q = Some (File c') ->
       loc p = loc q -> p = q) /\
    (forall q c, files inbox_run.2 !! q = Some (File c) ->
       q <> manifest_path sorted ->
       exists p, files inbox_world !! p = Some (File c) /\ loc p = q) /\
    (forall p, p ∉ (all_entries (report_categories inbox_report)).*1 ->
       loc p = p).
Proof.
  apply (batch_loses_no_file (H := listdir_enum) DEFAULT_CONFIG sorted inbox
           None inbox_world inbox_run.2 inbox_report).
  vm_compute. reflexivity.
Defined.

Section Eligible.

Context `{DirEnum}.

(** Every relocation an organizer records has a source it recognizes. *)
Lemma organizer_organize_sources (k : organizer_kind) (cfg : Config)
    (source_dir target : path) (dry_run : bool) (w w' : World) (st : Stats) :
  organizer_organize k cfg source_dir target dry_run w = (Returns st, w') ->
  forall a b, (a, b) ∈ entries st -> is_kind k cfg a = true.
Proof.
  unfold organizer_organize, scan. intros Hrun.
  apply bind_returns in Hrun as (found & w1 & Hscan & Hloop).
  apply fs_get_returns in Hscan as [Hfound _].
  set (I := fun (rest : list path) (s : Stats) (_ : World) =>
              (forall a b, (a, b) ∈ entries s -> is_kind k cfg a = true) /\
              (forall f, f ∈ rest -> is_kind k cfg f = true)).
  assert (HI : I [] st w'); [|apply HI].
  eapply (for_each_returns _ I); [| |exact Hloop].
  - clear. intros x rest s w s' w' [Hs Hrest] Hstep.
    split; [|intros f Hf; apply Hrest; by right].
    unfold organizer_step in Hstep.
    apply bind_returns in Hstep as (sub & w1 & _ & Hstep).
    destruct dry_run.
    + by apply ret_returns in Hstep as [-> _].
    + apply bind_returns in Hstep as ([] & w2 & _ & Hstep).
      apply resolve_and_move_stats in Hstep as (final & dups & -> & _).
      cbn [entries]. intros a b [Hin|Hin]%elem_of_app; [eauto|].
      apply list_elem_of_singleton in Hin as [= -> ->].
      apply Hrest. by left.
  - split; [by intros a b Hin%elem_of_nil|].
    intros f Hf. rewrite Hfound in Hf.
    destruct (fs_is_dir _ _); [|by apply elem_of_nil in Hf].
    apply list_filter_elem in Hf. by apply andb_prop in Hf as [_ ?].
Qed.

Lemma organize_generic_sources (source_dir target : path)
    (exts : list string) (dry_run : bool) (w w' : World) (st : Stats) :
  _organize_generic source_dir target exts dry_run w = (Returns st, w') ->
  forall a b, (a, b) ∈ entries st ->
    str_in (str_lower (path_suffix a)) exts = true.
Proof.
  unfold _organize_generic. intros Hrun.
  apply bind_returns in Hrun as (isd & w1 & _ & Hrun).
  destruct (negb isd).
  { apply ret_returns in Hrun as [-> _]. by intros a b Hin%elem_of_nil. }
  apply bind_returns in Hrun as ([] & w2 & _ & Hrun).
  apply bind_returns in Hrun as (listing & w3 & _ & Hloop).
  eapply (for_each_returns _
            (fun _ s _ => forall a b, (a, b) ∈ entries s ->
                            str_in (str_lower (path_suffix a)) exts = true));
    [| |exact Hloop]; [|by intros a b Hin%elem_of_nil].
  clear. intros x _ s w s' w' Hs Hstep. unfold generic_step in Hstep.
  apply bind_returns in Hstep as (isf & w1 & _ & Hstep).
  destruct (negb isf); [by apply ret_returns in Hstep as [-> _]|].
  destruct (str_in _ _) eqn:Hext; cbn [negb] in Hstep;
    [|by apply ret_returns in Hstep as [-> _]].
  destruct dry_run; [by apply ret_returns in Hstep as [-> _]|].
  apply resolve_and_move_stats in Hstep as (final & dups & -> & _).
  cbn [entries]. intros a b [Hin|Hin]%elem_of_app; [eauto|].
  by apply list_elem_of_singleton in Hin as [= -> ->].
Qed.

Lemma elem_of_all_entries_snoc (rs : list (string * Stats)) (name : string)
    (st : Stats) (e : path * path) :
  e ∈ all_entries (rs ++ [(name, st)]) <-> e ∈ all_entries rs \/ e ∈ entries st.
Proof. by rewrite all_entries_snoc, elem_of_app. Qed.

(** Every relocation a batch reports has a source that some category taking
    part in the run lists. *)
Lemma organize_sources_eligible (cfg : Config) (base_target source_dir : path)
    (dry_run : bool) (selected : option (list string)) (w w' : World)
    (r : Report) :
  organize cfg base_target source_dir dry_run selected w = (Returns r, w') ->
  forall a b, (a, b) ∈ all_entries (report_categories r) ->
    eligible cfg selected a.
Proof.
  unfold organize. intros Hrun.
  apply bind_returns in Hrun as (b1 & w1 & Hded & Hrun).
  apply bind_returns in Hrun as (b2 & w2 & Hgen & Hrun).
  apply bind_returns in Hrun as ([] & w3 & _ & Hret).
  apply ret_returns in Hret as [-> _]. cbn [report_categories].
  set (J := fun (b : Batch) =>
              forall a d, (a, d) ∈ all_entries (category_results b) ->
                eligible cfg selected a).
  assert (Hb1 : J b1).
  { eapply (for_each_returns _
              (fun rest s _ =>
                 J s /\ forall item, item ∈ rest ->
                          item ∈ _build_organizers cfg));
      [| |exact Hded].
    - clear. intros [cat_name organizer] rest s w s' w' [Hs Hrest] Hstep.
      split; [|intros item Hitem; apply Hrest; by right].
      unfold dedicated_step in Hstep.
      destruct (filtered_out _ _) eqn:Hsel;
        [by apply ret_returns in Hstep as [-> _]|].
      apply bind_returns in Hstep as (st & w1 & Horg & Hrec).
      apply record_results_returns in Hrec as (_ & _ & _ & _ & Hcr).
      pose proof (organizer_organize_sources _ _ _ _ _ _ _ _ Horg) as Hsrc.
      destruct (build_organizers_names cfg cat_name organizer)
        as [-> [cat_data Hdata]]; [apply Hrest; by left|].
      intros a d. unfold J in Hs. rewrite Hcr, elem_of_all_entries_snoc.
      intros [Hin|Hin]; [eauto|].
      apply Hsrc in Hin. unfold is_kind, organizer_extensions in Hin.
      rewrite Hdata in Hin.
      apply Exists_exists. exists (category_of organizer, cat_data).
      split; [by apply dict_get_Some_elem|by split].
    - split; [by intros a d Hin%elem_of_nil|done]. }
  eapply (for_each_returns _
            (fun rest s _ =>
               J s /\ forall item, item ∈ rest -> item ∈ categories cfg));
    [| |exact Hgen].
  - clear. intros [cat_name cat_data] rest s w s' w' [Hs Hrest] Hstep.
    split; [|intros item Hitem; apply Hrest; by right].
    unfold generic_category_step in Hstep.
    destruct (bool_decide _); [by apply ret_returns in Hstep as [-> _]|].
    destruct (filtered_out _ _) eqn:Hsel;
      [by apply ret_returns in Hstep as [-> _]|].
    apply bind_returns in Hstep as (st & w1 & Horg & Hrec).
    apply record_results_returns in Hrec as (_ & _ & _ & _ & Hcr).
    pose proof (organize_generic_sources _ _ _ _ _ _ _ Horg) as Hsrc.
    intros a d. unfold J in Hs. rewrite Hcr, elem_of_all_entries_snoc.
    intros [Hin|Hin]; [eauto|].
    apply Exists_exists. exists (cat_name, cat_data).
    split; [apply Hrest; by left|]. split; [done|].
    by apply Hsrc in Hin.
  - by split.
Qed.

End Eligible.

(** Files that no category of the run lists are left alone. When a batch
    returns, every relocation it reports has a source whose suffix some
    category taking part in the run lists, case apart; and a regular file
    whose suffix none of them lists lies afterwards where it was, with its
    content, unless it lay at the path of the ledger file. *)
Theorem unlisted_files_stay `{DirEnum} (cfg : Config)
    (base_target source_dir : path) (dry_run : bool)
    (selected : option (list string)) (w w' : World) (r : Report) :
  organize cfg base_target source_dir dry_run selected w = (Returns r, w') ->
  (forall a b, (a, b) ∈ all_entries (report_categories r) ->
     eligible cfg selected a) /\
  (forall p c,
     files w !! p = Some (File c) ->
     ~ eligible cfg selected p ->
     p <> manifest_path base_target ->
     files w' !! p = Some (File c)).
Proof.
  intros Hrun.
  pose proof (organize_sources_eligible _ _ _ _ _ _ _ _ Hrun) as Hsrc.
  split; [exact Hsrc|]. intros p c Hp Hno Hne.
  destruct dry_run.
  - destruct (quiet_organize cfg base_target source_dir selected w) as [Hw _].
    rewrite Hrun in Hw. cbn in Hw. by subst w'.
  - apply organize_executed in Hrun as (m & fs2 & Hsteps & Hall & _ & Hfs).
    apply batch_steps_relocation in Hsteps as (loc & Hkeep & _ & _ & Hid).
    assert (Hloc : loc p = p).
    { apply Hid. rewrite Hall. intros Hin.
      apply list_elem_of_fmap in Hin as ([a b] & -> & Hin). eauto. }
    specialize (Hkeep p c Hp). rewrite Hloc in Hkeep.
    destruct Hfs as [[_ ->]|(_ & _ & ->)]; [done|].
    by rewrite lookup_insert_ne.
Qed.

Lemma unlisted_files_stay_witness :
  (forall a b, (a, b) ∈ all_entries (report_categories inbox_report) ->
     eligible DEFAULT_CONFIG None a) /\
  (forall p c,
     files inbox_world !! p = Some (File c) ->
     ~ eligible DEFAULT_CONFIG None p ->
     p <> manifest_path sorted ->
     files inbox_run.2 !! p = Some (File c)).
Proof.
  apply (unlisted_files_stay (H := listdir_enum) DEFAULT_CONFIG sorted inbox
           false None inbox_world inbox_run.2 inbox_report).
  vm_compute. reflexivity.
Defined.

Section Raising.

Lemma bind_raises {A B} (c : M A) (k : A -> M B) (w w' : World) (e : exn) :
  bind c k w = (Raises e, w') ->
  c w = (Raises e, w') \/
  exists a w1, c w = (Returns a, w1) /\ k a w1 = (Raises e, w').
Proof.
  unfold bind. destruct (c w) as [[a|e'] w1]; [eauto|].
  intros [= <- <-]. by left.
Qed.

Lemma fs_update_raises (f : FS -> option FS) (w w' : World) (e : exn) :
  fs_update f w = (Raises e, w') -> w' = w.
Proof.
  unfold fs_update. destruct (f (files w)); [done|]. by intros [= _ <-].
Qed.

Lemma path_mkdir_raises (p : path) (w w' : World) (e : exn) :
  path_mkdir p w = (Raises e, w') -> w' = w.
Proof.
  unfold path_mkdir. destruct (has_nul p); [by intros [= _ <-]|].
  apply fs_update_raises.
Qed.

(** A loop that raises has run some of its items to their end and raised
    in the next. *)
Lemma for_each_raises {A S} (body : S -> A -> M S) (l : list A) :
  forall s w w' e,
    for_each body l s w = (Raises e, w') ->
    exists l1 x l2 s1 w1,
      l = l1 ++ x :: l2 /\
      for_each body l1 s w = (Returns s1, w1) /\
      body s1 x w1 = (Raises e, w').
Proof.
  induction l as [|x l IH]; intros s w w' e Hrun; [done|].
  cbn [for_each] in Hrun. apply bind_raises in Hrun as [Hx|(s1 & w1 & Hx & Hrest)].
  - exists [], x, l, s, w. by repeat split.
  - apply IH in Hrest as (l1 & y & l2 & s2 & w2 & -> & Hpre & Hy).
    exists (x :: l1), y, l2, s2, w2. split; [done|]. split; [|done].
    cbn [for_each]. unfold bind. by rewrite Hx.
Qed.

(** The invariant of a loop after the items run so far. *)
Lemma for_each_returns_prefix {A S} (body : S -> A -> M S)
    (I : list A -> S -> World -> Prop) :
  (forall x rest s w s' w',
     I (x :: rest) s w -> body s x w = (Returns s', w') -> I rest s' w') ->
  forall l1 rest s w s' w',
    I (l1 ++ rest) s w -> for_each body l1 s w = (Returns s', w') ->
    I rest s' w'.
Proof.
  intros Hstep l1. induction l1 as [|x l1 IH]; intros rest s w s' w' HI Hrun.
  - apply ret_returns in Hrun as [-> ->]. done.
  - cbn [for_each] in Hrun.
    apply bind_returns in Hrun as (s1 & w1 & Hx & Hrest).
    eapply IH; [|exact Hrest]. eapply Hstep; eauto.
Qed.

Lemma reaches_refl (fs : FS) : reaches fs fs.
Proof. exists []. apply steps_start. Qed.

Lemma reaches_trans (fs1 fs2 fs3 : FS) :
  reaches fs1 fs2 -> reaches fs2 fs3 -> reaches fs1 fs3.
Proof.
  intros [es1 H1] [es2 H2]. exists (es1 ++ es2).
  by apply batch_steps_app with fs2.
Qed.

Lemma reaches_mkdir (fs fs' : FS) (p : path) :
  fs_mkdir p fs = Some fs' -> reaches fs fs'.
Proof.
  intros Hmk. exists []. by apply steps_mkdir with fs p; [apply steps_start|].
Qed.

Lemma record_results_never_raises (cat_name : string) (results : Stats)
    (b : Batch) (w w' : World) (e : exn) :
  record_results cat_name results b w = (Raises e, w') -> False.
Proof.
  unfold record_results. intros Hrun.
  apply bind_raises in Hrun as [Hloop|(m & w1 & _ & Hret)]; [|done].
  apply for_each_raises in Hloop as (l1 & x & l2 & s1 & w1 & _ & _ & Hx).
  done.
Qed.

End Raising.

Section Failing.

Context `{DirEnum}.

(** One pass through the loop of a dedicated organizer in execute mode. *)
Lemma organizer_step_traced (k : organizer_kind) (target : path) (w0 : World)
    (x : path) (rest : list path) (s s' : Stats) (v v' : World) :
  organizer_loop_inv w0 (x :: rest) s v ->
  organizer_step k target false s x v = (Returns s', v') ->
  organizer_loop_inv w0 rest s' v'.
Proof.
  intros (Htr & Hnd & Hfiles) Hstep.
  unfold organizer_step in Hstep.
  apply bind_returns in Hstep as (sub & v1 & Hsub & Hstep).
  apply (statement_kept_world _ _ _ _ _ (quiet_get_subfolder k x)) in Hsub
    as ->.
  apply bind_returns in Hstep as ([] & v2 & Hmk & Hstep).
  apply path_mkdir_returns in Hmk as (fs2 & Hmk & ->).
  destruct (fs_mkdir_grows _ _ _ Hmk) as [[Hkeep _] Hdir].
  assert (Hx : exists c, files v !! x = Some (File c)).
  { specialize (Hfiles x ltac:(left)). unfold fs_is_file in Hfiles.
    destruct (files v !! x) as [[c|]|]; try discriminate. eauto. }
  destruct Hx as [c Hx].
  assert (Htr2 : traced w0 s (set_files fs2 v)).
  { destruct Htr as (Hs & Hm & Hc). split; [|by split].
    by apply steps_mkdir with (files v) (joinpath target sub). }
  destruct (traced_move _ _ _ _ _ _ c _ _ eq_refl Htr2 (Hkeep _ _ Hx) Hdir Hstep)
    as (Htr' & Hfs' & Hfree).
  apply NoDup_cons in Hnd as [Hnotin Hnd].
  split; [done|]. split; [done|].
  intros g Hg. rewrite Hfs'. unfold fs_is_file.
  specialize (Hfiles g ltac:(by right)). unfold fs_is_file in Hfiles.
  destruct (files v !! g) as [[cg|]|] eqn:Eg; try discriminate.
  apply Hkeep in Eg. cbn [files set_files] in *.
  rewrite lookup_insert_ne by congruence.
  rewrite lookup_delete_ne by (intros ->; done).
  by rewrite Eg.
Qed.

Lemma resolve_and_move_raises (dest_dir dest f : path) (st : Stats)
    (w w' : World) (e : exn) :
  resolve_and_move dest_dir dest f st w = (Raises e, w') -> w' = w.
Proof.
  unfold resolve_and_move. intros Hrun.
  apply bind_raises in Hrun as [Hex|(ex & w1 & Hex & Hrun)]; [done|].
  apply fs_get_returns in Hex as [_ ->].
  apply bind_raises in Hrun as [Hfin|(final & w2 & Hfin & Hrun)].
  { by destruct ex. }
  assert (w2 = w) as ->.
  { destruct ex; [by apply fs_get_returns in Hfin as [_ ->]|].
    by apply ret_returns in Hfin as [_ ->]. }
  apply bind_raises in Hrun as [Hmv|(u & w3 & _ & Hret)]; [|done].
  by apply fs_update_raises in Hmv.
Qed.

Lemma organizer_step_raises (k : organizer_kind) (target : path) (s : Stats)
    (x : path) (w w' : World) (e : exn) :
  organizer_step k target false s x w = (Raises e, w') ->
  reaches (files w) (files w').
Proof.
  unfold organizer_step. intros Hrun.
  apply bind_raises in Hrun as [Hsub|(sub & w1 & Hsub & Hrun)].
  { apply (statement_kept_world _ _ _ _ _ (quiet_get_subfolder k x)) in Hsub
      as ->. apply reaches_refl. }
  apply (statement_kept_world _ _ _ _ _ (quiet_get_subfolder k x)) in Hsub
    as ->.
  apply bind_raises in Hrun as [Hmk|([] & w2 & Hmk & Hrun)].
  { apply path_mkdir_raises in Hmk as ->. apply reaches_refl. }
  apply path_mkdir_returns in Hmk as (fs2 & Hmk & ->).
  apply resolve_and_move_raises in Hrun as ->.
  by apply reaches_mkdir in Hmk.
Qed.

Lemma organizer_organize_raises (k : organizer_kind) (cfg : Config)
    (source_dir target : path) (w w' : World) (e : exn) :
  organizer_organize k cfg source_dir target false w = (Raises e, w') ->
  reaches (files w) (files w').
Proof.
  unfold organizer_organize, scan. intros Hrun.
  apply bind_raises in Hrun as [Hscan|(found & w1 & Hscan & Hloop)]; [done|].
  apply fs_get_returns in Hscan as [Hfound ->].
  apply for_each_raises in Hloop
    as (l1 & x & l2 & s1 & w1 & Hl & Hpre & Hx).
  assert (HI : organizer_loop_inv w (x :: l2) s1 w1).
  { eapply (for_each_returns_prefix _ (organizer_loop_inv w));
      [|rewrite <- Hl|exact Hpre].
    - intros. by eapply organizer_step_traced.
    - split; [|split].
      + split; [apply steps_start|]. by split.
      + rewrite Hfound. destruct (fs_is_dir _ _); [|constructor].
        apply list_filter_NoDup, iterdir_NoDup.
      + intros f Hf. rewrite Hfound in Hf.
        destruct (fs_is_dir _ _); [|by apply elem_of_nil in Hf].
        apply list_filter_elem in Hf. by apply andb_prop in Hf as [? _]. }
  destruct HI as ((Hsteps & _) & _).
  apply reaches_trans with (files w1); [by eexists|].
  by apply organizer_step_raises in Hx.
Qed.

Lemma organize_generic_raises (source_dir target : path) (exts : list string)
    (w w' : World) (e : exn) :
  _organize_generic source_dir target exts false w = (Raises e, w') ->
  reaches (files w) (files w').
Proof.
  unfold _organize_generic. intros Hrun.
  apply bind_raises in Hrun as [Hisd|(isd & w1 & Hisd & Hrun)]; [done|].
  apply fs_get_returns in Hisd as [_ ->].
  destruct (negb isd); [done|].
  apply bind_raises in Hrun as [Hmk|([] & w1 & Hmk & Hrun)].
  { apply path_mkdir_raises in Hmk as ->. apply reaches_refl. }
  apply path_mkdir_returns in Hmk as (fs1 & Hmk & ->).
  destruct (fs_mkdir_grows _ _ _ Hmk) as [_ Hdir].
  apply bind_raises in Hrun as [Hls|(listing & w2 & Hls & Hloop)]; [done|].
  apply fs_get_returns in Hls as [_ ->].
  apply for_each_raises in Hloop
    as (l1 & x & l2 & s1 & w1 & Hl & Hpre & Hx).
  set (I := fun (rest : list path) (s : Stats) (v : World) =>
              traced w s v /\ files v !! target = Some Dir).
  assert (HI : I (x :: l2) s1 w1).
  { eapply (for_each_returns_prefix _ I); [| |exact Hpre].
    - clear. intros x rest s v s' v' (Htr & Hdir) Hstep.
      unfold generic_step in Hstep.
      apply bind_returns in Hstep as (isf & v1 & Hisf & Hstep).
      apply fs_get_returns in Hisf as [-> ->].
      unfold fs_is_file in Hstep.
      destruct (files v !! x) as [[c|]|] eqn:Hx; cbn [negb] in Hstep;
        try (apply ret_returns in Hstep as [-> ->]; by split).
      destruct (negb _);
        [apply ret_returns in Hstep as [-> ->]; by split|].
      destruct (traced_move _ _ _ _ _ _ c _ _ eq_refl Htr Hx Hdir Hstep)
        as (Htr' & Hfs' & Hfree).
      split; [done|]. rewrite Hfs'.
      rewrite lookup_insert_ne by congruence.
      rewrite lookup_delete_ne by congruence. done.
    - split; [|done]. split; [|by split].
      by apply steps_mkdir with (files w) target; [apply steps_start|]. }
  destruct HI as ((Hsteps & _) & _).
  apply reaches_trans with (files w1); [by eexists|].
  unfold generic_step in Hx.
  apply bind_raises in Hx as [Hisf|(isf & w2 & Hisf & Hx)]; [done|].
  apply fs_get_returns in Hisf as [_ ->].
  destruct (negb isf); [done|]. destruct (negb _); [done|].
  apply resolve_and_move_raises in Hx as ->. apply reaches_refl.
Qed.

Lemma batch_traced_reaches (w0 : World) (b : Batch) (w : World) :
  batch_traced w0 b w -> reaches (files w0) (files w).
Proof. intros (Hsteps & _). by eexists. Qed.

(** An execute-mode batch that raises has made directories and relocated
    files, and nothing else. *)
Lemma organize_raises_reaches (cfg : Config) (base_target source_dir : path)
    (selected : option (list string)) (w w' : World) (e : exn) :
  organize cfg base_target source_dir false selected w = (Raises e, w') ->
  reaches (files w) (files w').
Proof.
  unfold organize. intros Hrun.
  assert (Hb0 : batch_traced w new_batch w).
  { split; [apply steps_start|]. by split. }
  apply bind_raises in Hrun as [Hded|(b1 & w1 & Hded & Hrun)].
  { apply for_each_raises in Hded
      as (l1 & [cat_name organizer] & l2 & s1 & wa & _ & Hpre & Hx).
    apply (dedicated_loop_traced _ _ _ _ _ _ _ _ _ _ Hb0) in Hpre.
    apply reaches_trans with (files wa); [by eapply batch_traced_reaches|].
    unfold dedicated_step in Hx. destruct (filtered_out _ _); [done|].
    apply bind_raises in Hx as [Horg|(st & wb & _ & Hrec)].
    - by apply organizer_organize_raises in Horg.
    - by apply record_results_never_raises in Hrec. }
  pose proof (dedicated_loop_traced _ _ _ _ _ _ _ _ _ _ Hb0 Hded) as Hb1.
  apply bind_raises in Hrun as [Hgen|(b2 & w2 & Hgen & Hrun)].
  { apply for_each_raises in Hgen
      as (l1 & [cat_name cat_data] & l2 & s1 & wa & _ & Hpre & Hx).
    apply (generic_loop_traced _ _ _ _ _ _ _ _ _ _ Hb1) in Hpre.
    apply reaches_trans with (files wa); [by eapply batch_traced_reaches|].
    unfold generic_category_step in Hx.
    destruct (bool_decide _); [done|]. destruct (filtered_out _ _); [done|].
    apply bind_raises in Hx as [Horg|(st & wb & _ & Hrec)].
    - by apply organize_generic_raises in Horg.
    - by apply record_results_never_raises in Hrec. }
  pose proof (generic_loop_traced _ _ _ _ _ _ _ _ _ _ Hb1 Hgen) as Hb2.
  apply reaches_trans with (files w2); [by eapply batch_traced_reaches|].
  apply bind_raises in Hrun as [Hsave|(u & w3 & _ & Hret)]; [|done].
  cbn [negb andb] in Hsave. destruct (_ <? _)%nat; [|done].
  apply bind_raises in Hsave as [Hmk|([] & wa & Hmk & Hsave)].
  { apply path_mkdir_raises in Hmk as ->. apply reaches_refl. }
  apply path_mkdir_returns in Hmk as (fsa & Hmk & ->).
  apply reaches_trans with fsa; [by eapply reaches_mkdir|].
  unfold save_manifest in Hsave.
  apply bind_raises in Hsave as [Hmk2|([] & wb & Hmk2 & Hwrite)].
  { apply path_mkdir_raises in Hmk2 as ->. apply reaches_refl. }
  apply path_mkdir_returns in Hmk2 as (fsb & Hmk2 & ->).
  assert (w' = set_files fsb (set_files fsa w2)) as ->.
  { destruct (has_nul _); [by injection Hwrite as _ <-|].
    by apply fs_update_raises in Hwrite. }
  by eapply reaches_mkdir.
Qed.

End Failing.

(** A batch that raises leaves no ledger. When an execute-mode batch
    raises, what it has done until then stays done: directories made and
    regular files relocated, one to one and each with its content. Nothing
    has been written: every regular file there is afterwards is one of the
    files there were, so no ledger records the relocations made. *)
Theorem aborted_batch_writes_no_ledger `{DirEnum} (cfg : Config)
    (base_target source_dir : path) (selected : option (list string))
    (w w' : World) (e : exn) :
  organize cfg base_target source_dir false selected w = (Raises e, w') ->
  exists (es : list (path * path)) (loc : path -> path),
    batch_steps (files w) (files w') es /\
    (forall p c, files w !! p = Some (File c) ->
       files w' !! loc p = Some (File c)) /\
    (forall p q c c',
       files w !! p = Some (File c) -> files w !! q = Some (File c') ->
       loc p = loc q -> p = q) /\
    (forall q c, files w' !! q = Some (File c) ->
       exists p, files w !! p = Some (File c) /\ loc p = q).
Proof.
  intros Hrun. apply organize_raises_reaches in Hrun as [es Hsteps].
  destruct (batch_steps_relocation _ _ _ Hsteps)
    as (loc & Hkeep & Hinj & Hsur & _).
  by exists es, loc.
Qed.

Lemma aborted_batch_writes_no_ledger_witness :
  exists (es : list (path * path)) (loc : path -> path),
    batch_steps (files stuck_world) (files stuck_run.2) es /\
    (forall p c, files stuck_world !! p = Some (File c) ->
       files stuck_run.2 !! loc p = Some (File c)) /\
    (forall p q c c',
       files stuck_world !! p = Some (File c) ->
       files stuck_world !! q = Some (File c') ->
       loc p = loc q -> p = q) /\
    (forall q c, files stuck_run.2 !! q = Some (File c) ->
       exists p, files stuck_world !! p = Some (File c) /\ loc p = q).
Proof.
  apply (aborted_batch_writes_no_ledger (H := listdir_enum) DEFAULT_CONFIG
           sorted inbox None stuck_world stuck_run.2 OSError).
  vm_compute. reflexivity.
Defined.

(** C7 (counterexample). The batch [stuck_run] executes a relocation and
    writes no ledger file: the photo has been relocated when the documents
    organizer fails to make its directory; the batch raises, the photo stays
    where it was put and there is no ledger file. *)
Example aborted_batch_keeps_relocations :
  stuck_run.1 = Raises OSError /\
  files stuck_run.2 !! (inbox // "plain.jpg") = None /\
  files stuck_run.2 !! (sorted // "Photos" // "unsorted" // "plain.jpg")
  = Some (File (Raw [xff; xd8; xff; xd9])) /\
  files stuck_run.2 !! manifest_path sorted = None.
Proof. repeat split; vm_compute; reflexivity. Qed.

(** C7 (as amended). The ledger file is written exactly when the batch runs
    to its end having relocated something. A dry run, and an execute run that
    moved no file, return with the regular files of the filesystem exactly as
    they were: no file is written, the ledger file included. An execute run
    that moved at least one file returns with the ledger file, under its
    fixed name in the target root, holding one record per relocation: the
    relocations of all categories in processing order. A run that raises,
    whatever it has relocated until then, has written no file: every regular
    file there is afterwards holds what a regular file held before. *)
Theorem ledger_written_iff_relocated `{DirEnum} (cfg : Config)
    (base_target source_dir : path) (dry_run : bool)
    (selected : option (list string)) (w w' : World) (o : outcome Report) :
  organize cfg base_target source_dir dry_run selected w = (o, w') ->
  (forall r, o = Returns r ->
     (dry_run = true \/ report_total_moved r = 0%nat ->
      forall p c,
        files w' !! p = Some (File c) <-> files w !! p = Some (File c)) /\
     (dry_run = false -> (0 < report_total_moved r)%nat ->
      exists m,
        files w' !! manifest_path base_target = Some (File (ManifestJson m)) /\
        entry_paths m = all_entries (report_categories r) /\
        length m = report_total_moved r)) /\
  (forall e, o = Raises e ->
     forall q c, files w' !! q = Some (File c) ->
       exists p, files w !! p = Some (File c)).
Proof.
  intros Hrun. split.
  - intros r ->. destruct dry_run.
    + split; [|discriminate]. intros _ p c.
      apply (statement_kept_world _ _ _ _ _
               (quiet_organize cfg base_target source_dir selected)) in Hrun.
      by subst w'.
    + apply organize_executed in Hrun
        as (m & fs2 & Hsteps & Hall & Hlen & [[Hzero Hfs]|(Hpos & _ & Hfs)]).
      * split; [|lia]. intros _ p c.
        destruct m; [|cbn in Hlen; lia]. cbn in Hsteps.
        apply batch_steps_nil_grows in Hsteps as [Hkeep Hfiles].
        rewrite Hfs. split; [apply Hfiles|apply Hkeep].
      * split; [intros [|]; [discriminate|lia]|].
        intros _ _. exists m. rewrite Hfs, lookup_insert_eq. done.
  - intros e -> q c Hq. destruct dry_run.
    + apply (statement_kept_world _ _ _ _ _
               (quiet_organize cfg base_target source_dir selected)) in Hrun.
      subst w'. eauto.
    + apply organize_raises_reaches in Hrun as [es Hsteps].
      destruct (batch_steps_relocation _ _ _ Hsteps)
        as (loc & _ & _ & Hsur & _).
      destruct (Hsur q c Hq) as (p & Hp & _). eauto.
Qed.

(** In the end-to-end scenario two files are relocated and the ledger file
    holds their two records; in the batch [stuck_run], which raises after it
    has relocated a photo, every regular file is one there was before. *)
Lemma ledger_written_iff_relocated_witness :
  (exists m,
     files inbox_run.2 !! manifest_path sorted = Some (File (ManifestJson m)) /\
     entry_paths m = all_entries (report_categories inbox_report) /\
     length m = report_total_moved inbox_report) /\
  (forall q c, files stuck_run.2 !! q = Some (File c) ->
     exists p, files stuck_world !! p = Some (File c)).
Proof.
  split.
  - destruct (ledger_written_iff_relocated (H := listdir_enum) DEFAULT_CONFIG
                sorted inbox false None inbox_world inbox_run.2 inbox_run.1)
      as [Hret _]; [vm_compute; reflexivity|].
    destruct (Hret inbox_report) as [_ Hledger]; [vm_compute; reflexivity|].
    apply Hledger; [reflexivity|vm_compute; lia].
  - destruct (ledger_written_iff_relocated (H := listdir_enum) DEFAULT_CONFIG
                sorted inbox false None stuck_world stuck_run.2 stuck_run.1)
      as [_ Hraise]; [vm_compute; reflexivity|].
    apply (Hraise OSError). vm_compute. reflexivity.
Defined.
(** ** Undo, again *)

Section SecondUndo.

(** An entry whose destination is gone is counted as failed, one after the
    other, and nothing is touched. *)
Lemma undo_all_missing (l : list BackupEntry) (w : World) : forall acc,
  (forall e, e ∈ l -> fs_exists (files w) (destination e) = false) ->
  for_each undo_entry l acc w
  = (Returns {| restored := restored acc; failed := failed acc + length l |},
     w).
Proof.
  induction l as [|e l IH]; intros acc Hall; cbn [for_each length].
  - rewrite Nat.add_0_r. by destruct acc.
  - unfold bind. rewrite undo_entry_missing by (apply Hall; left).
    rewrite IH by (intros e' He'; apply Hall; by right).
    cbn. do 3 f_equal. lia.
Qed.

(** Where the destinations of a trace are: each still holds a regular
    file, or has been relocated from in its turn. *)
Lemma batch_steps_destinations (fs0 fs : FS) (es : list (path * path)) :
  batch_steps fs0 fs es ->
  forall a b, (a, b) ∈ es ->
    (exists c, fs !! b = Some (File c)) \/ b ∈ es.*1.
Proof.
  induction 1 as [|fs es d fs' Hsteps IH Hmk|fs es a' b' c Hsteps IH Ha Hb Hp];
    intros a b Hin.
  - by apply elem_of_nil in Hin.
  - destruct (fs_mkdir_grows _ _ _ Hmk) as [[Hk _] _].
    destruct (IH a b Hin) as [[cb Hcb]|Hsrc]; [left|by right].
    exists cb. by apply Hk.
  - rewrite fmap_app, elem_of_app. cbn [fmap list_fmap fst].
    rewrite list_elem_of_singleton.
    apply elem_of_app in Hin as [Hin|Hin].
    + destruct (IH a b Hin) as [[cb Hcb]|Hsrc]; [|right; by left].
      destruct (decide (b = a')) as [->|Hba]; [right; by right|].
      left. exists cb. rewrite lookup_insert_ne by congruence.
      by rewrite lookup_delete_ne.
    + apply list_elem_of_singleton in Hin as [= -> ->].
      left. exists c. apply lookup_insert_eq.
Qed.

End SecondUndo.

(** Undoing twice. Take a batch as in the round-trip law, none of whose
    destinations existed before the batch. Undo on its ledger restores every
    entry; replaying the same ledger once more counts every entry as failed,
    since the destinations are gone, and touches nothing. *)
Theorem second_undo_fails_every_entry `{DirEnum} (cfg : Config)
    (base_target source_dir : path) (selected : option (list string))
    (w0 w1 : World) (r : Report) :
  wf_fs (files w0) ->
  organize cfg base_target source_dir false selected w0 = (Returns r, w1) ->
  (0 < report_total_moved r)%nat ->
  (forall a b, (a, b) ∈ all_entries (report_categories r) ->
     files w1 !! a <> Some Dir /\ b <> manifest_path base_target /\
     files w0 !! b = None) ->
  exists m w2,
    files w1 !! manifest_path base_target = Some (File (ManifestJson m)) /\
    length m = report_total_moved r /\
    undo (manifest_path base_target) w1
    = (Returns {| restored := length m; failed := 0 |}, w2) /\
    undo_moves m w2 = (Returns {| restored := 0; failed := length m |}, w2).
Proof.
  intros Hwf Hrun Hpos Hsafe.
  apply organize_executed in Hrun
    as (m & fs2 & Hsteps & Hall & Hlen & [[Hzero _]|(_ & Hnodir & Hfs1)]);
    [lia|].
  set (mp := manifest_path base_target) in *.
  assert (Hoff : grows_by_dirs_off mp fs2 (files w1)).
  { rewrite Hfs1. split.
    - intros p n Hp Hfs. destruct (decide (p = mp)) as [->|Hne].
      + destruct Hp as [Hp| ->]; [done|]. by destruct Hnodir.
      + by rewrite lookup_insert_ne.
    - intros p c Hp. by rewrite lookup_insert_ne. }
  assert (Hentry : forall e, e ∈ m ->
            (source e, destination e) ∈ all_entries (report_categories r)).
  { intros e He. rewrite <- Hall. apply list_elem_of_fmap. by exists e. }
  destruct (undo_trace mp (files w0) Hwf fs2 (entry_paths m) Hsteps
              m no_counts w1 eq_refl Hoff) as (w2 & Hundo & [_ Ho2] & Hdirs).
  { intros e He. destruct (Hsafe _ _ (Hentry e He)) as (? & ? & _). by split. }
  exists m, w2. split; [by rewrite Hfs1, lookup_insert_eq|]. split; [done|].
  split.
  - unfold undo, bind, load_manifest. rewrite Hfs1, lookup_insert_eq.
    unfold undo_moves. unfold no_counts in Hundo. by rewrite Hundo.
  - unfold undo_moves. rewrite undo_all_missing.
    { cbn. by rewrite length_rev. }
    intros e He. apply list_elem_of_In, in_rev, list_elem_of_In in He.
    destruct (Hsafe _ _ (Hentry e He)) as (_ & Hnm & Hnew).
    unfold fs_exists.
    destruct (files w2 !! destination e) as [[c|]|] eqn:Hd; [| |done].
    + apply Ho2 in Hd; [congruence|done].
    + exfalso. apply Hdirs in Hd. rewrite Hfs1 in Hd.
      rewrite lookup_insert_ne in Hd by done.
      destruct (batch_steps_destinations _ _ _ Hsteps (source e) (destination e))
        as [[c Hc]|Hsrc].
      * apply list_elem_of_fmap. by exists e.
      * congruence.
      * apply list_elem_of_fmap in Hsrc as ([a' b'] & Ha' & Hin').
        cbn in Ha'. subst a'. rewrite Hall in Hin'.
        destruct (Hsafe _ _ Hin') as (Hnd & _).
        apply Hnd. rewrite Hfs1. by rewrite lookup_insert_ne.
Qed.

Lemma second_undo_fails_every_entry_witness :
  exists m w2,
    files inbox_run.2 !! manifest_path sorted = Some (File (ManifestJson m)) /\
    length m = report_total_moved inbox_report /\
    undo (manifest_path sorted) inbox_run.2
    = (Returns {| restored := length m; failed := 0 |}, w2) /\
    undo_moves m w2 = (Returns {| restored := 0; failed := length m |}, w2).
Proof.
  apply (second_undo_fails_every_entry (H := listdir_enum) DEFAULT_CONFIG
           sorted inbox None inbox_world inbox_run.2 inbox_report).
  - apply wf_fsb_sound. vm_compute. reflexivity.
  - vm_compute. reflexivity.
  - vm_compute. lia.
  - intros a b Hin. vm_compute in Hin.
    repeat match type of Hin with
           | list_elem_of ?x (?y :: ?l) =>
               apply (elem_of_cons l x y) in Hin as [Hin|Hin]
           | _ ∈ _ :: _ => apply elem_of_cons in Hin as [Hin|Hin]
           end;
      [injection Hin as -> ->;
       split; [|split]; vm_compute; (discriminate || reflexivity) ..
      |by apply elem_of_nil in Hin].
Defined.

(** The ledger file is read back as it was written. When [save_manifest]
    returns, it has made the directories above the ledger file that were
    missing and written the file, and nothing else has changed; the manifest
    loaded from the file is the manifest saved, so [undo] on the file replays
    exactly the saved entries. With no file at the path, [undo] restores
    nothing, fails nothing and touches nothing. *)
Theorem undo_reads_what_was_saved (m : BackupManifest) (manifest_file : path)
    (w w' : World) :
  (save_manifest m manifest_file w = (Returns tt, w') ->
   grows_by_dirs_off manifest_file (files w) (files w') /\
   files w' !! path_parent manifest_file = Some Dir /\
   load_manifest manifest_file w' = (Returns m, w') /\
   undo manifest_file w' = undo_moves m w') /\
  (files w !! manifest_file = None ->
   undo manifest_file w = (Returns {| restored := 0; failed := 0 |}, w)).
Proof.
  split.
  - unfold save_manifest. intros Hsave.
    apply bind_returns in Hsave as ([] & w1 & Hmk & Hwrite).
    apply path_mkdir_returns in Hmk as (fs1 & Hmk & ->).
    destruct (has_nul manifest_file); [done|].
    apply fs_update_returns in Hwrite as (fs2 & Hwrite & ->).
    cbn [files set_files] in *.
    destruct (fs_mkdir_grows _ _ _ Hmk) as [[Hkeep Hfiles] Hdir].
    assert (Hfs2 : fs1 !! manifest_file <> Some Dir /\
                   fs2 = <[manifest_file := File (ManifestJson m)]> fs1).
    { destruct (fs1 !! manifest_file) as [[c|]|];
        try discriminate; (destruct (fs_is_dir _ _); [|discriminate]);
        by injection Hwrite. }
    destruct Hfs2 as [Hnodir ->].
    assert (Hload : forall v,
              load_manifest manifest_file
                (set_files (<[manifest_file := File (ManifestJson m)]> fs1) v)
              = (Returns m,
                 set_files (<[manifest_file := File (ManifestJson m)]> fs1) v)).
    { intros v. unfold load_manifest. cbn [files set_files].
      by rewrite lookup_insert_eq. }
    split; [|split; [|split; [apply Hload|]]].
    + split.
      * intros p n Hp Hfs. apply Hkeep in Hfs.
        destruct (decide (p = manifest_file)) as [->|Hne].
        -- destruct Hp as [Hp| ->]; [done|]. by destruct Hnodir.
        -- by rewrite lookup_insert_ne.
      * intros p c Hp. rewrite lookup_insert_ne by done. apply Hfiles.
    + destruct manifest_file as [|name d].
      * cbn [path_parent] in *. congruence.
      * cbn [path_parent] in *. rewrite lookup_insert_ne; [done|].
        apply cons_neq_self.
    + unfold undo, bind. by rewrite Hload.
  - intros Hnone. unfold undo, bind, load_manifest. by rewrite Hnone.
Qed.

(** ** Counting the eligible files *)

Section CountEligible.

Context `{DirEnum}.

Lemma str_in_flat_map (x : string) (selected : option (list string))
    (cats : list (string * CategoryData)) (p : path) :
  x = str_lower (path_suffix p) ->
  str_in x
    (flat_map (fun item : string * CategoryData =>
                 if filtered_out selected item.1 then []
                 else map str_lower (extensions item.2)) cats) = true
  <-> Exists (lists_suffix selected p) cats.
Proof.
  intros ->. unfold str_in. rewrite existsb_exists, Exists_exists. split.
  - intros (y & Hin & Heq). apply String.eqb_eq in Heq. subst y.
    apply in_flat_map in Hin as (item & Hitem & Hin).
    exists item. split; [by apply list_elem_of_In|].
    unfold lists_suffix, selects.
    destruct (filtered_out selected item.1); [done|]. split; [done|].
    unfold str_in. apply existsb_exists. eexists. split; [exact Hin|].
    apply String.eqb_refl.
  - intros (item & Hitem & Hsel & Hin).
    unfold str_in in Hin. apply existsb_exists in Hin as (y & Hin & Heq).
    apply String.eqb_eq in Heq. subst y.
    eexists. split; [|apply String.eqb_refl].
    apply in_flat_map. exists item. split; [by apply list_elem_of_In|].
    unfold selects in Hsel. by rewrite Hsel.
Qed.

Lemma count_body (test : path -> bool) (n : nat) (f : path) (w : World) :
  (is_file <- path_is_file f ;;
   if is_file && test f then ret (S n) else ret n) w
  = (Returns (if fs_is_file (files w) f && test f then S n else n), w).
Proof.
  unfold bind, path_is_file, fs_get.
  by destruct (fs_is_file (files w) f && test f).
Qed.

Lemma count_loop (P : path -> Prop) `{!forall f, Decision (P f)}
    (test : path -> bool) (w : World) (l : list path) :
  (forall f, test f = true <-> P f) ->
  forall n,
    for_each (fun (count : nat) (f : path) =>
                is_file <- path_is_file f ;;
                if is_file && test f then ret (S count) else ret count)
             l n w
    = (Returns (n + length (filter (fun f => fs_is_file (files w) f = true
                                             /\ P f) l))%nat, w).
Proof.
  intros Htest. induction l as [|f l IH]; intros n.
  - cbn. by rewrite Nat.add_0_r.
  - rewrite for_each_cons_run. cbv beta. rewrite count_body, IH.
    rewrite filter_cons.
    destruct (fs_is_file (files w) f) eqn:Hf; cbn [andb].
    + destruct (test f) eqn:Ht.
      * rewrite decide_True by (split; [done|by apply Htest]).
        cbn [length]. do 2 f_equal. lia.
      * rewrite decide_False; [done|].
        intros [_ HP]. apply Htest in HP. congruence.
    + by rewrite decide_False by (by intros [? _]).
Qed.

Lemma count_eligible_files_eq (cfg : Config) (source_dir : path)
    (selected : option (list string)) (w : World) :
  _count_eligible_files cfg source_dir selected w
  = (Returns (if fs_is_dir (files w) source_dir
              then listed (eligible cfg selected) source_dir w
              else 0%nat), w).
Proof.
  unfold _count_eligible_files, bind at 1, path_is_dir, fs_get.
  destruct (fs_is_dir (files w) source_dir); cbn [negb]; [|done].
  unfold bind at 1.
  rewrite (count_loop (eligible cfg selected)); [done|].
  intros f. by apply str_in_flat_map.
Qed.

End CountEligible.

(** [_count_eligible_files] counts each file once. It always returns and
    touches nothing; its count is zero when the source is no directory, and
    else the number of regular files among the entries of the source
    directory whose suffix some category taking part in the run lists, a file
    that several categories list being counted once. *)
Theorem count_eligible_files_counts_once `{DirEnum} (cfg : Config)
    (source_dir : path) (selected : option (list string)) (w : World) :
  _count_eligible_files cfg source_dir selected w
  = (Returns (if fs_is_dir (files w) source_dir
              then length (filter (fun f => fs_is_file (files w) f = true /\
                                            eligible cfg selected f)
                                  (iterdir (files w) source_dir))
              else 0%nat), w).
Proof. apply count_eligible_files_eq. Qed.

Section DryCounts.

Context `{DirEnum}.

Lemma length_filter_bool {A} (test : A -> bool) (P : A -> Prop)
    `{!forall a, Decision (P a)} (l : list A) :
  (forall a, test a = true <-> P a) ->
  length (List.filter test l) = length (filter P l).
Proof.
  intros Htest. induction l as [|a l IH]; [done|].
  cbn [List.filter]. rewrite filter_cons.
  destruct (test a) eqn:Ht.
  - rewrite decide_True by (by apply Htest). cbn. by rewrite IH.
  - rewrite decide_False; [done|]. intros HP. apply Htest in HP. congruence.
Qed.

Lemma length_filter_or {A} (P Q : A -> Prop) `{!forall a, Decision (P a)}
    `{!forall a, Decision (Q a)} (l : list A) :
  (length (filter (fun a => P a \/ Q a) l)
   <= length (filter P l) + length (filter Q l))%nat.
Proof.
  induction l as [|a l IH]; [done|]. rewrite !filter_cons.
  destruct (decide (P a)), (decide (Q a)), (decide (P a \/ Q a));
    cbn [length]; tauto || lia.
Qed.

Lemma length_filter_mono {A} (P Q : A -> Prop) `{!forall a, Decision (P a)}
    `{!forall a, Decision (Q a)} (l : list A) :
  (forall a, P a -> Q a) ->
  (length (filter P l) <= length (filter Q l))%nat.
Proof.
  intros HPQ. induction l as [|a l IH]; [done|]. rewrite !filter_cons.
  destruct (decide (P a)) as [HP|], (decide (Q a)) as [|HQ];
    cbn [length]; try lia.
  by destruct HQ; apply HPQ.
Qed.

Lemma listed_or (P Q : path -> Prop) `{!forall f, Decision (P f)}
    `{!forall f, Decision (Q f)} (source_dir : path) (w : World) :
  (listed (fun f => P f \/ Q f) source_dir w
   <= listed P source_dir w + listed Q source_dir w)%nat.
Proof.
  unfold listed.
  etransitivity; [|apply length_filter_or]. apply length_filter_mono. tauto.
Qed.

Lemma listed_mono (P Q : path -> Prop) `{!forall f, Decision (P f)}
    `{!forall f, Decision (Q f)} (source_dir : path) (w : World) :
  (forall f, P f -> Q f) ->
  (listed P source_dir w <= listed Q source_dir w)%nat.
Proof. intros HPQ. apply length_filter_mono. intros f [? ?]. auto. Qed.

(** A dry run of a dedicated organizer counts the files it recognizes. *)
Lemma organizer_organize_would_move (k : organizer_kind) (cfg : Config)
    (source_dir target : path) (w w' : World) (st : Stats) :
  organizer_organize k cfg source_dir target true w = (Returns st, w') ->
  fs_is_dir (files w) source_dir = true ->
  would_move st = listed (fun f => is_kind k cfg f = true) source_dir w.
Proof.
  unfold organizer_organize, scan. intros Hrun Hdir.
  apply bind_returns in Hrun as (found & w1 & Hscan & Hloop).
  apply fs_get_returns in Hscan as [Hfound _]. rewrite Hdir in Hfound.
  assert (Hlen : would_move st = length found).
  { apply (for_each_returns _
             (fun rest s _ => (would_move s + length rest)%nat = length found))
      in Hloop; [cbn in Hloop; lia| |done].
    clear. intros x rest s w s' w' Hs Hstep. unfold organizer_step in Hstep.
    apply bind_returns in Hstep as (sub & w1 & _ & Hstep).
    apply ret_returns in Hstep as [-> _]. cbn in *. lia. }
  rewrite Hlen, Hfound. apply length_filter_bool.
  intros f. rewrite andb_true_iff. by fold (is_kind k cfg f).
Qed.

(** A dry run of the generic organizer counts the files whose suffix is
    listed. *)
Lemma organize_generic_would_move (source_dir target : path)
    (exts : list string) (w w' : World) (st : Stats) :
  _organize_generic source_dir target exts true w = (Returns st, w') ->
  fs_is_dir (files w) source_dir = true ->
  would_move st
  = listed (fun f => str_in (str_lower (path_suffix f)) exts = true)
           source_dir w.
Proof.
  unfold _organize_generic. intros Hrun Hdir.
  apply bind_returns in Hrun as (isd & w1 & Hisd & Hrun).
  apply fs_get_returns in Hisd as [-> ->]. rewrite Hdir in Hrun.
  cbn [negb] in Hrun.
  apply bind_returns in Hrun as ([] & w1 & Hret & Hrun).
  apply ret_returns in Hret as [_ ->].
  apply bind_returns in Hrun as (listing & w1 & Hls & Hloop).
  apply fs_get_returns in Hls as [-> ->]. unfold listed.
  set (P := fun f => fs_is_file (files w) f = true /\
                     str_in (str_lower (path_suffix f)) exts = true).
  apply (for_each_returns _
           (fun rest s v =>
              v = w /\
              (would_move s + length (filter P rest))%nat
              = length (filter P (iterdir (files w) source_dir))))
    in Hloop; [cbn in Hloop; lia| |done].
  clear. intros x rest s v s' v' [-> Hs] Hstep. unfold generic_step in Hstep.
  apply bind_returns in Hstep as (isf & v1 & Hisf & Hstep).
  apply fs_get_returns in Hisf as [-> ->].
  rewrite filter_cons in Hs.
  destruct (decide (P x)) as [[Hfile Hext]|Hno].
  - rewrite Hfile, Hext in Hstep. cbn [negb] in Hstep.
    apply ret_returns in Hstep as [-> ->]. cbn in *. split; [done|lia].
  - assert (s' = s /\ v' = w) as [-> ->]; [|done].
    destruct (fs_is_file (files w) x) eqn:Hfile; cbn [negb] in Hstep;
      [|by apply ret_returns in Hstep].
    destruct (str_in (str_lower (path_suffix x)) exts) eqn:Hext;
      cbn [negb] in Hstep; [|by apply ret_returns in Hstep].
    by destruct Hno.
Qed.

End DryCounts.

Section DryTotals.

Context `{DirEnum}.

Variables (cfg : Config) (base_target source_dir : path)
  (selected : option (list string)) (w : World).

Hypothesis Hdir : fs_is_dir (files w) source_dir = true.

Lemma dedicated_loop_would_move (items : list (string * organizer_kind)) :
  forall (done : list (string * organizer_kind)) (b b' : Batch) (w' : World),
    empty_batch b ->
    (listed (fun f => Exists (organizer_lists cfg selected f) done)
            source_dir w <= total_would_move b)%nat ->
    for_each (dedicated_step cfg base_target source_dir true selected)
             items b w = (Returns b', w') ->
    w' = w /\ empty_batch b' /\
    (listed (fun f => Exists (organizer_lists cfg selected f) (done ++ items))
            source_dir w <= total_would_move b')%nat.
Proof.
  induction items as [|[cat_name organizer] items IH];
    intros done b b' w' Hb Hle Hrun.
  - apply ret_returns in Hrun as [-> ->]. by rewrite app_nil_r.
  - cbn [for_each] in Hrun.
    apply bind_returns in Hrun as (b1 & w1 & Hstep & Hrest).
    replace (done ++ (cat_name, organizer) :: items)
      with ((done ++ [(cat_name, organizer)]) ++ items)
      by (by rewrite <- app_assoc).
    assert (Hone : w1 = w /\ empty_batch b1 /\
              (listed (fun f => Exists (organizer_lists cfg selected f)
                                  (done ++ [(cat_name, organizer)]))
                      source_dir w <= total_would_move b1)%nat).
    { unfold dedicated_step in Hstep.
      destruct (filtered_out selected cat_name) eqn:Hsel.
      - apply ret_returns in Hstep as [-> ->]. split; [done|]. split; [done|].
        etransitivity; [|exact Hle]. apply listed_mono.
        intros f [Hex|Hex]%Exists_app; [done|].
        apply Exists_cons in Hex as [[Hs _]|Hex]; [|by apply Exists_nil in Hex].
        unfold selects in Hs. cbn [fst] in Hs. congruence.
      - apply bind_returns in Hstep as (st & w2 & Horg & Hrec).
        pose proof Horg as Hkept.
        apply (statement_kept_world _ _ _ _ _
                 (quiet_organizer_organize organizer cfg source_dir _))
          in Hkept as ->.
        destruct (quiet_organizer_organize organizer cfg source_dir
                    (joinpath base_target
                       match get_target_dir cfg cat_name with
                       | Some name => if String.eqb name "" then cat_name
                                      else name
                       | None => cat_name
                       end) w) as [_ Hnm].
        rewrite Horg in Hnm. specialize (Hnm st eq_refl).
        apply organizer_organize_would_move in Horg; [|done].
        destruct (quiet_record_results cat_name st b Hnm Hb w) as [Hw Hq].
        rewrite Hrec in Hw, Hq. cbn in Hw. subst w1.
        specialize (Hq b1 eq_refl).
        apply record_results_returns in Hrec as (_ & _ & _ & Htw & _).
        split; [done|]. split; [done|]. rewrite Htw, Horg.
        etransitivity; [|apply Nat.add_le_mono_r; exact Hle].
        etransitivity; [|apply listed_or]. apply listed_mono.
        intros f [Hex|Hex]%Exists_app; [by left|right].
        apply Exists_cons in Hex as [[_ Hk]|Hex]; [done|].
        by apply Exists_nil in Hex. }
    destruct Hone as (-> & Hb1 & Hle1).
    by apply (IH _ b1 b' w').
Qed.

Lemma generic_loop_would_move (Q : path -> Prop) `{!forall f, Decision (Q f)}
    (items : list (string * CategoryData)) :
  forall (done : list (string * CategoryData)) (b b' : Batch) (w' : World),
    empty_batch b ->
    (listed (fun f => Q f \/ Exists (generic_lists cfg selected f) done)
            source_dir w <= total_would_move b)%nat ->
    for_each (generic_category_step cfg base_target source_dir true selected)
             items b w = (Returns b', w') ->
    w' = w /\ empty_batch b' /\
    (listed (fun f => Q f \/
                      Exists (generic_lists cfg selected f) (done ++ items))
            source_dir w <= total_would_move b')%nat.
Proof.
  induction items as [|[cat_name cat_data] items IH];
    intros done b b' w' Hb Hle Hrun.
  - apply ret_returns in Hrun as [-> ->]. by rewrite app_nil_r.
  - cbn [for_each] in Hrun.
    apply bind_returns in Hrun as (b1 & w1 & Hstep & Hrest).
    replace (done ++ (cat_name, cat_data) :: items)
      with ((done ++ [(cat_name, cat_data)]) ++ items)
      by (by rewrite <- app_assoc).
    assert (Hone : w1 = w /\ empty_batch b1 /\
              (listed (fun f => Q f \/
                                Exists (generic_lists cfg selected f)
                                  (done ++ [(cat_name, cat_data)]))
                      source_dir w <= total_would_move b1)%nat).
    { assert (Hskip : forall f,
                ~ generic_lists cfg selected f (cat_name, cat_data) ->
                Q f \/ Exists (generic_lists cfg selected f)
                         (done ++ [(cat_name, cat_data)]) ->
                Q f \/ Exists (generic_lists cfg selected f) done).
      { intros f Hno [HQ|[Hex|Hex]%Exists_app]; [by left|by right|].
        apply Exists_cons in Hex as [Hg|Hex]; [done|].
        by apply Exists_nil in Hex. }
      unfold generic_category_step in Hstep.
      destruct (bool_decide _) eqn:Hded.
      { apply ret_returns in Hstep as [-> ->]. split; [done|]. split; [done|].
        etransitivity; [|exact Hle]. apply listed_mono.
        intros f. apply Hskip. intros [_ Hnone]. cbn [fst] in Hnone.
        apply bool_decide_eq_true in Hded as [k Hk]. congruence. }
      apply bool_decide_eq_false in Hded.
      destruct (filtered_out selected cat_name) eqn:Hsel.
      - apply ret_returns in Hstep as [-> ->]. split; [done|]. split; [done|].
        etransitivity; [|exact Hle]. apply listed_mono.
        intros f. apply Hskip. intros [[Hs _] _].
        unfold selects in Hs. cbn [fst] in Hs. congruence.
      - apply bind_returns in Hstep as (st & w2 & Horg & Hrec).
        pose proof Horg as Hkept.
        apply (statement_kept_world _ _ _ _ _
                 (quiet_organize_generic source_dir _ _)) in Hkept as ->.
        destruct (quiet_organize_generic source_dir
                    (joinpath base_target
                       match target_dir cat_data with
                       | Some name => name
                       | None => cat_name
                       end)
                    (map str_lower (extensions cat_data)) w) as [_ Hnm].
        rewrite Horg in Hnm. specialize (Hnm st eq_refl).
        apply organize_generic_would_move in Horg; [|done].
        destruct (quiet_record_results cat_name st b Hnm Hb w) as [Hw Hq].
        rewrite Hrec in Hw, Hq. cbn in Hw. subst w1.
        specialize (Hq b1 eq_refl).
        apply record_results_returns in Hrec as (_ & _ & _ & Htw & _).
        split; [done|]. split; [done|]. rewrite Htw, Horg.
        etransitivity; [|apply Nat.add_le_mono_r; exact Hle].
        etransitivity; [|apply listed_or]. apply listed_mono.
        intros f [HQ|[Hex|Hex]%Exists_app]; [left; by left|left; by right|].
        right. apply Exists_cons in Hex as [[[_ Hin] _]|Hex]; [done|].
        by apply Exists_nil in Hex. }
    destruct Hone as (-> & Hb1 & Hle1).
    by apply (IH _ b1 b' w').
Qed.

(** With distinct category names, a file that some category of the run
    lists is recognized by a dedicated organizer of the run or listed by a
    category without one. *)
Lemma eligible_is_processed (f : path) :
  NoDup (categories cfg).*1 ->
  eligible cfg selected f ->
  Exists (organizer_lists cfg selected f) (_build_organizers cfg) \/
  Exists (generic_lists cfg selected f) (categories cfg).
Proof.
  intros Hnd Hel. apply Exists_exists in Hel as ([name data] & Hin & Hs & Hext).
  cbn [fst snd] in Hs, Hext.
  destruct (dict_get (_build_organizers cfg) name) as [k|] eqn:Hk.
  - left. apply dict_get_Some_elem in Hk.
    destruct (build_organizers_names cfg name k Hk) as [-> _].
    apply Exists_exists. exists (category_of k, k). split; [done|].
    split; [done|]. cbn. unfold is_kind, organizer_extensions.
    by rewrite (dict_get_elem _ _ data Hnd Hin).
  - right. apply Exists_exists. exists (name, data). by repeat split.
Qed.

Lemma organize_dry_would_move (w' : World) (r : Report) :
  NoDup (categories cfg).*1 ->
  organize cfg base_target source_dir true selected w = (Returns r, w') ->
  (listed (eligible cfg selected) source_dir w
   <= report_total_would_move r)%nat.
Proof.
  unfold organize. intros Hnd Hrun.
  apply bind_returns in Hrun as (b1 & w1 & Hded & Hrun).
  apply bind_returns in Hrun as (b2 & w2 & Hgen & Hrun).
  apply bind_returns in Hrun as ([] & w3 & _ & Hret).
  apply ret_returns in Hret as [-> _]. cbn [report_total_would_move].
  apply (dedicated_loop_would_move _ []) in Hded as (-> & Hb1 & Hle1);
    [|by repeat split|].
  2:{ etransitivity; [|apply Nat.le_0_l]. unfold listed.
      rewrite filter_none; [done|]. intros f _ [_ Hex].
      by apply Exists_nil in Hex. }
  cbn [app] in Hle1.
  apply (generic_loop_would_move
           (fun f => Exists (organizer_lists cfg selected f)
                       (_build_organizers cfg)) _ []) in Hgen
    as (_ & _ & Hle2); [|done|].
  2:{ etransitivity; [|exact Hle1]. apply listed_mono.
      intros f [?|Hex]; [done|]. by apply Exists_nil in Hex. }
  cbn [app] in Hle2. etransitivity; [|exact Hle2].
  apply listed_mono. intros f. by apply eligible_is_processed.
Qed.

End DryTotals.

(** A dry run counts a file once for every category that lists it. With
    distinct category names, the number of eligible files that
    [_count_eligible_files] returns, where a file that several categories list
    counts once, is at most the total that a dry run reports as would-move. *)
Theorem dry_run_counts_at_least_eligible `{DirEnum} (cfg : Config)
    (base_target source_dir : path) (selected : option (list string))
    (w w' : World) (r : Report) :
  NoDup (categories cfg).*1 ->
  organize cfg base_target source_dir true selected w = (Returns r, w') ->
  exists n,
    _count_eligible_files cfg source_dir selected w = (Returns n, w) /\
    (n <= report_total_would_move r)%nat.
Proof.
  intros Hnd Hrun. eexists. split; [apply count_eligible_files_eq|].
  destruct (fs_is_dir (files w) source_dir) eqn:Hdir; [|lia].
  by apply (organize_dry_would_move cfg base_target source_dir selected w Hdir
              w' r).
Qed.

Lemma dry_run_counts_at_least_eligible_witness :
  exists n,
    _count_eligible_files (H := listdir_enum) DEFAULT_CONFIG inbox None
      inbox_world
    = (Returns n, inbox_world) /\
    (n <= report_total_would_move
            {| report_total_moved := 0; report_total_would_move := 2;
               report_categories :=
                 [ ("photos",
                    {| moved := 0; would_move := 2; duplicates := 0;
                       entries := [] |});
                   ("documents", no_stats); ("downloads", no_stats) ] |})%nat.
Proof.
  apply (dry_run_counts_at_least_eligible (H := listdir_enum) DEFAULT_CONFIG
           sorted inbox None inbox_world inbox_world).
  - apply (bool_decide_unpack _). vm_compute. exact I.
  - vm_compute. reflexivity.
Defined.

(** ** Dry runs and execute runs *)

(** A dedicated organizer relocates every file it scanned. When an
    execute run of a dedicated organizer returns, the sources of the entries
    it recorded are the files [scan] found, in that order, and it moved as
    many files as a dry run from the same world counts as would-move. *)
Theorem organizer_relocates_every_scanned_file `{DirEnum} (k : organizer_kind)
    (cfg : Config) (source_dir target : path) (w w' : World) (st : Stats) :
  organizer_organize k cfg source_dir target false w = (Returns st, w') ->
  exists found,
    scan (organizer_extensions cfg k) source_dir w = (Returns found, w) /\
    (entries st).*1 = found /\
    moved st = length found /\
    forall st_dry w_dry,
      organizer_organize k cfg source_dir target true w
      = (Returns st_dry, w_dry) ->
      would_move st_dry = moved st.
Proof.
  unfold organizer_organize. intros Hrun.
  apply bind_returns in Hrun as (found & w1 & Hscan & Hloop).
  pose proof Hscan as Hw. apply fs_get_returns in Hw as [_ ->].
  exists found. split; [exact Hscan|].
  assert (HI : (entries st).*1 ++ [] = found /\
               (moved st + length (@nil path))%nat = length found).
  { apply (for_each_returns _
             (fun rest s _ => (entries s).*1 ++ rest = found /\
                              (moved s + length rest)%nat = length found))
      in Hloop; [done| |done].
    clear. intros x rest s w s' w' [Hs Hm] Hstep. unfold organizer_step in Hstep.
    apply bind_returns in Hstep as (sub & w1 & _ & Hstep).
    apply bind_returns in Hstep as ([] & w2 & _ & Hstep).
    apply resolve_and_move_stats in Hstep as (final & dups & -> & _).
    cbn [entries moved]. rewrite fmap_app, <- app_assoc. cbn in *.
    split; [done|lia]. }
  destruct HI as [Hsrc Hm]. rewrite app_nil_r in Hsrc. cbn in Hm.
  split; [done|]. split; [lia|].
  intros st_dry w_dry Hdry.
  apply bind_returns in Hdry as (found' & w2 & Hscan' & Hloop').
  rewrite Hscan in Hscan'. injection Hscan' as <- <-.
  apply (for_each_returns _
           (fun rest s _ => (would_move s + length rest)%nat = length found))
    in Hloop'; [cbn in Hloop'; lia| |done].
  clear. intros x rest s w s' w' Hs Hstep. unfold organizer_step in Hstep.
  apply bind_returns in Hstep as (sub & w1 & _ & Hstep).
  apply ret_returns in Hstep as [-> _]. cbn in *. lia.
Qed.

Lemma organizer_relocates_every_scanned_file_witness :
  exists found,
    scan (H := listdir_enum) (organizer_extensions DEFAULT_CONFIG PhotoOrganizer)
      inbox inbox_world
    = (Returns found, inbox_world) /\
    (entries inbox_photos_stats).*1 = found /\
    moved inbox_photos_stats = length found /\
    forall st_dry w_dry,
      organizer_organize (H := listdir_enum) PhotoOrganizer DEFAULT_CONFIG inbox
        (sorted // "Photos") true inbox_world
      = (Returns st_dry, w_dry) ->
      would_move st_dry = moved inbox_photos_stats.
Proof.
  apply (organizer_relocates_every_scanned_file (H := listdir_enum)
           PhotoOrganizer DEFAULT_CONFIG inbox (sorted // "Photos")
           inbox_world inbox_photos_run.2 inbox_photos_stats).
  vm_compute. reflexivity.
Defined.

Section DryRaises.

Context `{DirEnum}.

Lemma quiet_dedicated_step (cfg : Config) (base_target source_dir : path)
    (selected : option (list string)) (b : Batch)
    (item : string * organizer_kind) :
  empty_batch b ->
  quiet (dedicated_step cfg base_target source_dir true selected b item)
        empty_batch.
Proof.
  intros Hb. destruct item as [cat_name organizer]. unfold dedicated_step.
  destruct (filtered_out _ _); [by apply quiet_ret|].
  apply quiet_bind with nothing_moved; [apply quiet_organizer_organize|].
  intros results Hres. by apply quiet_record_results.
Qed.

Lemma quiet_generic_category_step (cfg : Config)
    (base_target source_dir : path) (selected : option (list string))
    (b : Batch) (item : string * CategoryData) :
  empty_batch b ->
  quiet (generic_category_step cfg base_target source_dir true selected b item)
        empty_batch.
Proof.
  intros Hb. destruct item as [cat_name cat_data].
  unfold generic_category_step.
  destruct (bool_decide _); [by apply quiet_ret|].
  destruct (filtered_out _ _); [by apply quiet_ret|].
  apply quiet_bind with nothing_moved; [apply quiet_organize_generic|].
  intros results Hres. by apply quiet_record_results.
Qed.

(** The date extractor raises on a path only when the file is there and
    the extractor raises on its bytes; what it raises is a [ValueError]. *)
Lemma extract_exif_date_raises (photo : path) (w w' : World) (e : exn) :
  _extract_exif_date photo w = (Raises e, w') ->
  e = ValueError /\
  exists c, files w !! photo = Some (File c) /\
            extract_exif_date_bytes (content_bytes c) = Raises ValueError.
Proof.
  unfold _extract_exif_date, open_rb.
  destruct (files w !! photo) as [[c|]|]; [|done..].
  unfold extract_exif_date_bytes.
  destruct (exif_try_body (content_bytes c)) as [d|[]] eqn:E;
    cbn [catch_os_struct]; try done.
  intros [= <- _]. split; [done|]. exists c. by rewrite E.
Qed.

Lemma organizer_organize_dry_raises (k : organizer_kind) (cfg : Config)
    (source_dir target : path) (w w' : World) (e : exn) :
  organizer_organize k cfg source_dir target true w = (Raises e, w') ->
  e = ValueError /\ k = PhotoOrganizer /\
  exists photo c,
    photo ∈ iterdir (files w) source_dir /\
    files w !! photo = Some (File c) /\
    is_photo cfg photo = true /\
    extract_exif_date_bytes (content_bytes c) = Raises ValueError.
Proof.
  unfold organizer_organize, scan. intros Hrun.
  apply bind_raises in Hrun as [Hscan|(found & w1 & Hscan & Hloop)]; [done|].
  apply fs_get_returns in Hscan as [Hfound ->].
  apply for_each_raises in Hloop
    as (l1 & x & l2 & s1 & w1 & Hl & Hpre & Hx).
  assert (w1 = w) as ->.
  { eapply (statement_kept_world _ (fun _ => True)); [|exact Hpre].
    apply quiet_for_each; [|done]. intros s f _. unfold organizer_step.
    apply quiet_bind with (fun _ => True); [apply quiet_get_subfolder|].
    intros sub _. by apply quiet_ret. }
  assert (Hin : x ∈ found).
  { rewrite Hl. apply elem_of_app. right. by left. }
  rewrite Hfound in Hin.
  destruct (fs_is_dir _ _); [|by apply elem_of_nil in Hin].
  apply list_elem_of_In, List.filter_In in Hin as [Hin Htest].
  apply list_elem_of_In in Hin. apply andb_prop in Htest as [_ Hkind].
  unfold organizer_step in Hx.
  apply bind_raises in Hx as [Hsub|(sub & w2 & _ & Hret)]; [|done].
  destruct k; cbn [get_subfolder] in Hsub; [|done..].
  unfold _get_date_subfolder in Hsub.
  apply bind_raises in Hsub as [Hex|(res & w2 & _ & Hret)];
    [|by destruct res as [[? ?]|]].
  apply extract_exif_date_raises in Hex as (-> & c & Hc & Hbytes).
  split; [done|]. split; [done|]. by exists x, c.
Qed.

Lemma organize_generic_dry_returns (source_dir target : path)
    (exts : list string) (w w' : World) (e : exn) :
  _organize_generic source_dir target exts true w = (Raises e, w') -> False.
Proof.
  unfold _organize_generic. intros Hrun.
  apply bind_raises in Hrun as [Hisd|(isd & w1 & _ & Hrun)]; [done|].
  destruct (negb isd); [done|].
  apply bind_raises in Hrun as [Hret|([] & w2 & _ & Hrun)]; [done|].
  apply bind_raises in Hrun as [Hls|(listing & w3 & _ & Hloop)]; [done|].
  apply for_each_raises in Hloop as (l1 & x & l2 & s1 & w4 & _ & _ & Hx).
  unfold generic_step in Hx.
  apply bind_raises in Hx as [Hisf|(isf & w5 & _ & Hx)]; [done|].
  destruct (negb isf); [done|]. by destruct (negb _).
Qed.

End DryRaises.

(** When a dry run raises. A dry run raises only a [ValueError], leaves the
    world as it found it, and does so only when the date extractor raises on a
    photo listed in the source directory; the other organizers never make a
    dry run raise. *)
Theorem dry_run_raises_only_on_unreadable_date `{DirEnum} (cfg : Config)
    (base_target source_dir : path) (selected : option (list string))
    (w w' : World) (e : exn) :
  organize cfg base_target source_dir true selected w = (Raises e, w') ->
  e = ValueError /\ w' = w /\
  exists photo c,
    photo ∈ iterdir (files w) source_dir /\
    files w !! photo = Some (File c) /\
    is_photo cfg photo = true /\
    extract_exif_date_bytes (content_bytes c) = Raises ValueError.
Proof.
  intros Hrun.
  assert (Hw : w' = w).
  { destruct (quiet_organize cfg base_target source_dir selected w) as [Hq _].
    by rewrite Hrun in Hq. }
  subst w'. unfold organize in Hrun.
  apply bind_raises in Hrun as [Hded|(b1 & w1 & Hded & Hrun)].
  { apply for_each_raises in Hded
      as (l1 & [cat_name organizer] & l2 & s1 & wa & _ & Hpre & Hx).
    assert (wa = w) as ->.
    { eapply (statement_kept_world _ empty_batch); [|exact Hpre].
      apply quiet_for_each; [|by repeat split].
      intros b item Hb. by apply quiet_dedicated_step. }
    unfold dedicated_step in Hx. destruct (filtered_out _ _); [done|].
    apply bind_raises in Hx as [Horg|(st & wb & _ & Hrec)];
      [|by apply record_results_never_raises in Hrec].
    apply organizer_organize_dry_raises in Horg as (-> & _ & Hphoto).
    by repeat split. }
  exfalso.
  apply bind_raises in Hrun as [Hgen|(b2 & w2 & _ & Hrun)].
  { apply for_each_raises in Hgen
      as (l1 & [cat_name cat_data] & l2 & s1 & wa & _ & _ & Hx).
    unfold generic_category_step in Hx.
    destruct (bool_decide _); [done|]. destruct (filtered_out _ _); [done|].
    apply bind_raises in Hx as [Horg|(st & wb & _ & Hrec)].
    - by apply organize_generic_dry_returns in Horg.
    - by apply record_results_never_raises in Hrec. }
  by apply bind_raises in Hrun as [Hsave|(u & w3 & _ & Hret)].
Qed.

Lemma dry_run_raises_only_on_unreadable_date_witness :
  ValueError = ValueError /\ broken_world = broken_world /\
  exists photo c,
    photo ∈ iterdir (DirEnum := listdir_enum) (files broken_world) inbox /\
    files broken_world !! photo = Some (File c) /\
    is_photo DEFAULT_CONFIG photo = true /\
    extract_exif_date_bytes (content_bytes c) = Raises ValueError.
Proof.
  apply (dry_run_raises_only_on_unreadable_date (H := listdir_enum)
           DEFAULT_CONFIG sorted inbox None broken_world broken_world
           ValueError).
  vm_compute. reflexivity.
Defined.

(** ** What undo leaves alone *)

Section Frames.

Implicit Types (fs : FS) (a t q : path).

Lemma relative_to_suffix a k (rel : list string) :
  relative_to a k = Some rel -> k = rel ++ a.
Proof.
  unfold relative_to. cbv zeta. destruct (decide _) as [Hd|]; [|done].
  intros [= <-].
  transitivity (take (length k - length a) k ++ drop (length k - length a) k);
    [by rewrite take_drop|by rewrite Hd].
Qed.

Lemma rekey_frame a t k q :
  ~ a `suffix_of` q -> ~ t `suffix_of` q -> rekey a t k = q -> k = q.
Proof.
  intros Ha Ht. unfold rekey.
  destruct (relative_to a k) as [rel|] eqn:E; [|done].
  intros <-. destruct Ht. by exists rel.
Qed.

Lemma rekey_outside a t q : ~ a `suffix_of` q -> rekey a t q = q.
Proof.
  intros Ha. unfold rekey.
  destruct (relative_to a q) as [rel|] eqn:E; [|done].
  apply relative_to_suffix in E. destruct Ha. by exists rel.
Qed.

(** Moving a tree leaves alone what lies outside the tree and outside the
    place it goes to. *)
Lemma fs_move_tree_frame a t fs q :
  ~ a `suffix_of` q -> ~ t `suffix_of` q ->
  fs_move_tree a t fs !! q = fs !! q.
Proof.
  intros Ha Ht. unfold fs_move_tree.
  destruct (list_to_map _ !! q) as [n|] eqn:E.
  - apply elem_of_list_to_map_2 in E.
    apply list_elem_of_In, in_map_iff in E as ([k n'] & [= Hk ->] & Hin).
    apply (rekey_frame a t k q Ha Ht) in Hk as ->.
    apply list_elem_of_In, elem_of_map_to_list in Hin. by rewrite Hin.
  - apply not_elem_of_list_to_map_2 in E.
    destruct (fs !! q) as [n|] eqn:Hq; [|done]. exfalso. apply E.
    apply list_elem_of_fmap. exists (q, n). split; [done|].
    apply list_elem_of_In, in_map_iff. exists (q, n).
    split; [cbn; by rewrite rekey_outside|].
    by apply list_elem_of_In, elem_of_map_to_list.
Qed.

Lemma os_rename_frame a t fs fs' q :
  os_rename a t fs = Some fs' ->
  ~ a `suffix_of` q -> ~ t `suffix_of` q -> fs' !! q = fs !! q.
Proof.
  unfold os_rename. intros Hmv Ha Ht.
  assert (Hqa : q <> a) by (intros ->; by apply Ha).
  assert (Hqt : q <> t) by (intros ->; by apply Ht).
  destruct (negb _); [done|].
  destruct (fs !! a) as [[c|]|], (fs !! t) as [[c'|]|]; try done.
  - injection Hmv as <-. rewrite lookup_insert_ne by done.
    by rewrite lookup_delete_ne.
  - injection Hmv as <-. rewrite lookup_insert_ne by done.
    by rewrite lookup_delete_ne.
  - destruct (decide _); [done|]. injection Hmv as <-.
    by apply fs_move_tree_frame.
Qed.

Lemma fs_shutil_move_frame a b fs fs' q :
  fs_shutil_move a b fs = Some fs' ->
  ~ a `suffix_of` q -> ~ b `suffix_of` q -> fs' !! q = fs !! q.
Proof.
  unfold fs_shutil_move. intros Hmv Ha Hb.
  destruct (fs !! a); [|done].
  destruct (fs_is_dir fs b); [|by apply (os_rename_frame a b fs)].
  destruct (decide (a = b)); [by injection Hmv as <-|].
  destruct (fs_exists _ _); [done|].
  apply (os_rename_frame _ _ _ _ q) in Hmv; [done..|].
  intros Hs. apply Hb. by apply suffix_cons_l in Hs.
Qed.

Lemma undo_entry_frame (acc : UndoCounts) (e : BackupEntry)
    (w w' : World) (o : outcome UndoCounts) (q : path) :
  undo_entry acc e w = (o, w') ->
  unconcerned q e ->
  files w' !! q = files w !! q /\ clock w' = clock w.
Proof.
  intros Hrun (Hdst & Hsrc & Hpar). revert Hrun.
  unfold undo_entry, bind, path_exists, fs_get, try_except_OSError,
    path_mkdir, ledger_move, shutil_move, fs_update, ret, raise.
  destruct (fs_exists _ _); cbn [negb]; [|by intros [= _ <-]].
  destruct (has_nul (path_parent (source e))); [by intros [= _ <-]|].
  destruct (fs_mkdir _ _) as [fs1|] eqn:Hmk; cbn [files set_files];
    [|by intros [= _ <-]].
  pose proof (fs_mkdir_frame _ _ _ q Hmk Hpar) as H1.
  destruct (has_nul (destination e) || has_nul (source e));
    [by intros [= _ <-]|].
  destruct (fs_shutil_move _ _ _) as [fs2|] eqn:Hmv; cbn [files set_files];
    intros [= _ <-]; cbn [files set_files clock]; [|done].
  split; [|done]. rewrite <- H1. by apply (fs_shutil_move_frame _ _ _ _ q Hmv).
Qed.

Lemma undo_loop_frame (l : list BackupEntry) (q : path) :
  forall acc w w' (o : outcome UndoCounts),
    for_each undo_entry l acc w = (o, w') ->
    (forall e, e ∈ l -> unconcerned q e) ->
    files w' !! q = files w !! q /\ clock w' = clock w.
Proof.
  induction l as [|e l IH]; intros acc w w' o Hrun Hall.
  - by injection Hrun as _ <-.
  - cbn [for_each] in Hrun. unfold bind in Hrun.
    destruct (undo_entry acc e w) as [[acc1|x] w1] eqn:He.
    + apply (undo_entry_frame _ _ _ _ _ q) in He as [Hf Hc];
        [|apply Hall; by left].
      apply IH in Hrun as [Hf' Hc']; [|intros e' He'; apply Hall; by right].
      split; congruence.
    + injection Hrun as _ <-.
      apply (undo_entry_frame _ _ _ _ _ q) in He; [done|apply Hall; by left].
Qed.

End Frames.

(** Undo touches only what the ledger names. A path that lies neither at
    or below the destination of an entry, nor at or below its source, nor
    above its source, for every entry of the ledger, holds after undo what it
    held before; and undo does not advance the clock. *)
Theorem undo_touches_only_ledger_paths (m : BackupManifest) (w : World)
    (q : path) :
  (forall e, e ∈ m -> unconcerned q e) ->
  files (undo_moves m w).2 !! q = files w !! q /\
  clock (undo_moves m w).2 = clock w.
Proof.
  intros Hall. unfold undo_moves.
  destruct (for_each undo_entry (rev m) _ w) as [o w'] eqn:Hrun. cbn [snd].
  apply (undo_loop_frame _ q _ _ _ _ Hrun).
  intros e He. apply Hall.
  by apply list_elem_of_In, in_rev, list_elem_of_In in He.
Qed.

Lemma undo_touches_only_ledger_paths_witness :
  files (undo_moves half_gone_ledger half_gone_world).2 !! sorted
  = files half_gone_world !! sorted /\
  clock (undo_moves half_gone_ledger half_gone_world).2
  = clock half_gone_world.
Proof.
  apply (undo_touches_only_ledger_paths half_gone_ledger half_gone_world
           sorted).
  intros e He. unfold half_gone_ledger in He.
  repeat (apply elem_of_cons in He as [->|He]);
    [..|by apply elem_of_nil in He];
    unfold unconcerned; cbn [source destination path_parent];
    repeat split; apply (bool_decide_unpack _); vm_compute; exact I.
Defined.

(** ** The generic organizer, file by file *)

(** The generic organizer relocates every listed file. Suppose the
    enumeration yields only paths that exist. When an execute run of the
    generic organizer over a source directory returns, the sources of the
    entries it recorded are, in the order of the listing taken once the target
    directory is made, the listed regular files whose suffix is one of the
    extensions; and it moved as many files. *)
Theorem generic_organizer_relocates_every_listed_file `{DirEnum}
    (source_dir target : path) (exts : list string) (w w' : World)
    (st : Stats) :
  (forall fs p, p ∈ iterdir fs source_dir -> is_Some (fs !! p)) ->
  fs_is_dir (files w) source_dir = true ->
  _organize_generic source_dir target exts false w = (Returns st, w') ->
  exists fs1,
    fs_mkdir target (files w) = Some fs1 /\
    (entries st).*1
    = filter (fun f => fs_is_file fs1 f = true /\
                       str_in (str_lower (path_suffix f)) exts = true)
             (iterdir fs1 source_dir) /\
    moved st = length (entries st).
Proof.
  intros Hlisted Hsrc Hrun. unfold _organize_generic in Hrun.
  apply bind_returns in Hrun as (isd & w1 & Hisd & Hrun).
  apply fs_get_returns in Hisd as [-> ->]. rewrite Hsrc in Hrun.
  cbn [negb] in Hrun.
  apply bind_returns in Hrun as ([] & w1 & Hmk & Hrun).
  apply path_mkdir_returns in Hmk as (fs1 & Hmk & ->).
  destruct (fs_mkdir_grows _ _ _ Hmk) as [_ Hdir].
  apply bind_returns in Hrun as (listing & w2 & Hls & Hloop).
  apply fs_get_returns in Hls as [Hlisting ->]. cbn [files set_files] in *.
  exists fs1. split; [done|].
  set (P := fun f => fs_is_file fs1 f = true /\
                     str_in (str_lower (path_suffix f)) exts = true).
  set (I := fun (rest : list path) (s : Stats) (v : World) =>
              traced (set_files fs1 w) s v /\
              files v !! target = Some Dir /\
              NoDup rest /\
              (forall g, g ∈ rest ->
                 is_Some (fs1 !! g) /\ files v !! g = fs1 !! g) /\
              (entries s).*1 ++ filter P rest = filter P listing /\
              moved s = length (entries s)).
  assert (HI : I [] st w').
  { eapply (for_each_returns _ I); [| |exact Hloop].
    - clear. intros x rest s v s' v'
        (Htr & Hdir & Hnd & Hsame & Hent & Hm) Hstep.
      apply NoDup_cons in Hnd as [Hx Hnd].
      rewrite filter_cons in Hent.
      destruct (Hsame x ltac:(left)) as [_ Hxx].
      unfold generic_step in Hstep.
      apply bind_returns in Hstep as (isf & v1 & Hisf & Hstep).
      apply fs_get_returns in Hisf as [-> ->].
      unfold fs_is_file in Hstep at 1. rewrite Hxx in Hstep.
      destruct (decide (P x)) as [[Hfile Hext]|Hno].
      + unfold fs_is_file in Hfile.
        destruct (fs1 !! x) as [[c|]|] eqn:Ex; try discriminate.
        rewrite Hext in Hstep. cbn [negb] in Hstep.
        destruct (traced_move _ _ _ _ _ _ c _ _ eq_refl Htr Hxx Hdir Hstep)
          as (Htr' & Hfs' & Hfree).
        pose proof Hstep as Hst.
        apply resolve_and_move_stats in Hst as (final & dups & -> & _).
        split; [done|]. split.
        { rewrite Hfs'. rewrite lookup_insert_ne by congruence.
          rewrite lookup_delete_ne by congruence. done. }
        split; [done|]. split; [|split].
        * intros g Hg. destruct (Hsame g ltac:(by right)) as [Hgs Hgg].
          split; [done|]. rewrite Hfs'.
          rewrite lookup_insert_ne.
          -- rewrite lookup_delete_ne by (intros ->; done). done.
          -- intros <-. rewrite Hfree in Hgg. rewrite <- Hgg in Hgs.
             by destruct Hgs.
        * cbn [entries]. rewrite fmap_app, <- app_assoc. exact Hent.
        * cbn [entries moved]. rewrite length_app. cbn. lia.
      + assert (s' = s /\ v' = v) as [-> ->].
        { destruct (fs1 !! x) as [[c|]|] eqn:Ex; cbn [negb] in Hstep;
            try by apply ret_returns in Hstep.
          destruct (str_in (str_lower (path_suffix x)) exts) eqn:Hext;
            cbn [negb] in Hstep; [|by apply ret_returns in Hstep].
          destruct Hno. unfold P, fs_is_file. by rewrite Ex. }
        split; [done|]. split; [done|]. split; [done|]. split; [|by split].
        intros g Hg. apply Hsame. by right.
    - split; [|split; [done|split; [|split; [|by split]]]].
      + split; [apply steps_start|]. by split.
      + rewrite Hlisting. apply iterdir_NoDup.
      + intros g Hg. split; [|done]. apply (Hlisted fs1). by rewrite <- Hlisting. }
  destruct HI as (_ & _ & _ & _ & Hent & Hm). cbn in Hent.
  rewrite app_nil_r in Hent. split; [|done].
  by rewrite Hent, Hlisting.
Qed.

Lemma generic_organizer_relocates_every_listed_file_witness :
  exists fs1,
    fs_mkdir (root // "docs") (files reports_world) = Some fs1 /\
    (entries reports_generic_stats).*1
    = filter (fun f => fs_is_file fs1 f = true /\
                       str_in (str_lower (path_suffix f)) [".txt"] = true)
             (iterdir (DirEnum := listdir_enum) fs1 (root // "a")) /\
    moved reports_generic_stats = length (entries reports_generic_stats).
Proof.
  apply (generic_organizer_relocates_every_listed_file (H := listdir_enum)
           (root // "a") (root // "docs") [".txt"] reports_world
           reports_generic_run.2 reports_generic_stats).
  - intros fs p Hp. apply listdir_children in Hp as (name & -> & Hs). done.
  - vm_compute. reflexivity.
  - vm_compute. reflexivity.
Defined.

